(** * manage-opengrok-test.sh: a shallow embedding of the instance manager

    The script is a sequence of shell commands run under [set -euo pipefail].
    It is embedded as computations of a small monad [Sh] that threads the
    state the script reads back (the instance directory, the virtual
    machines of the backend, the dependency cache), collects the externally
    visible actions in a log, and may terminate the shell with an exit code
    ([die], [errexit]).  Everything the script obtains from programs it does
    not define (multipass, curl, jq, the file tests, mktemp, date, the
    downloader, the browser opener) comes from an environment [Env] of
    oracles.

    The script's own tests are embedded as it makes them: the state of a
    machine is read by [grep] over the lines of [multipass info], the
    existence of an instance by [[ -d ]] on the path built from the name as
    typed, the fields of a record by [jq] on the document as written.

    What is taken for granted: [mkdir -p], [cat >], [rm -rf], [mktemp -d],
    [date] and [basename] on the host succeed; the instance directory is
    tracked by the names the script is called with, so two different names
    that denote the same directory (as [a] and [a/]) are tracked apart. *)

From Stdlib Require Import List String Ascii Arith Bool Lia.
Import ListNotations.
Local Open Scope list_scope.
Local Open Scope string_scope.

(** ** Strings *)

Module Str.

(** The double quote character, and a line feed. *)
Definition dq : string := String (ascii_of_nat 34) EmptyString.
Definition nl : string := String (ascii_of_nat 10) EmptyString.

(** A here-document: every line is followed by a line feed. *)
Fixpoint heredoc (ls : list string) : string :=
  match ls with
  | [] => ""
  | l :: ls' => l ++ nl ++ heredoc ls'
  end.

Definition nonempty (s : string) : bool :=
  match s with EmptyString => false | String _ _ => true end.

(** [${s:0:2}] *)
Definition first2 (s : string) : string := substring 0 2 s.

(** [strip_prefix p s] is [Some r] when [s = p ++ r]. *)
Fixpoint strip_prefix (p s : string) : option string :=
  match p with
  | EmptyString => Some s
  | String a p' =>
      match s with
      | EmptyString => None
      | String b s' => if Ascii.eqb a b then strip_prefix p' s' else None
      end
  end.

Definition slash : ascii := ascii_of_nat 47.

(** Drop the slashes at the front of a list of characters. *)
Fixpoint drop_slashes (l : list ascii) : list ascii :=
  match l with
  | c :: l' => if Ascii.eqb c slash then drop_slashes l' else l
  | [] => []
  end.

(** The characters before the first slash. *)
Fixpoint until_slash (l : list ascii) : list ascii :=
  match l with
  | c :: l' => if Ascii.eqb c slash then [] else c :: until_slash l'
  | [] => []
  end.

(** basename(1) without a suffix: trailing slashes are dropped, then the part
    after the last slash is kept; a string of slashes only gives [/]. *)
Definition basename (s : string) : string :=
  match s with
  | EmptyString => ""
  | _ =>
      let r := drop_slashes (rev (list_ascii_of_string s)) in
      match r with
      | [] => "/"
      | _ => string_of_list_ascii (rev (until_slash r))
      end
  end.

Definition ends_with (suffix s : string) : bool :=
  prefix (string_of_list_ascii (rev (list_ascii_of_string suffix)))
         (string_of_list_ascii (rev (list_ascii_of_string s))).

(** basename(1) with a suffix: the suffix is removed from the base name when
    the base name ends with it and is not the suffix itself. *)
Definition basename_suffix (s suffix : string) : string :=
  let b := basename s in
  if ends_with suffix b && negb (String.eqb b suffix)
  then substring 0 (String.length b - String.length suffix) b
  else b.

(** [contains w s]: [w] occurs in [s] (what [grep -q w] tests on a line). *)
Fixpoint contains (w s : string) : bool :=
  prefix w s
  || match s with
     | String _ s' => contains w s'
     | EmptyString => false
     end.

Definition has_slash (s : string) : bool :=
  existsb (Ascii.eqb slash) (list_ascii_of_string s).

End Str.

(** ** Data *)

Inductive codebase_type := Local | Git | Demo.

Definition codebase_type_text (t : codebase_type) : string :=
  match t with Local => "local" | Git => "git" | Demo => "demo" end.

(** The document [config.json] of an instance, with the fields as
    [save_instance_state] writes them.  The fields are the shell's strings
    as they were passed; what [jq -r] reads back from the document is
    decided by [jq] below. *)
Module Config.
Record t := mk {
  name : string;
  vm_name : string;
  codebase_type : codebase_type;
  codebase_path : string;
  port : string;
  memory : string;
  disk : string;
  cpus : string;
  ubuntu_version : string;
  created : string;
  git_depth : string;
  git_branch : string
}.
End Config.
Definition config : Type := Config.t.

(** What [multipass info] reports about a virtual machine. *)
Inductive vm_state := Running | Stopped | Suspended.

Definition vm_state_eqb (a b : vm_state) : bool :=
  match a, b with
  | Running, Running | Stopped, Stopped | Suspended, Suspended => true
  | _, _ => false
  end.

(** The state as [multipass info] prints it. *)
Definition state_text (s : vm_state) : string :=
  match s with
  | Running => "Running"
  | Stopped => "Stopped"
  | Suspended => "Suspended"
  end.

(** A machine of the backend: its state, and the address that
    [awk '/IPv4:/ {print $2}' | head -1] extracts from the output of
    [multipass info]. *)
Record vm := { state : vm_state; ipv4 : string }.

(** The invocations of the backend command line.  A destination
    ["$vm_name:/path"] is kept as its two parts. *)
Inductive mp_cmd :=
| MpInfo (vm_name : string)
| MpLaunch (vm_name memory disk cpus image : string)
| MpStart (vm_name : string)
| MpStop (vm_name : string)
| MpDeletePurge (vm_name : string)
| MpExec (vm_name : string) (argv : list string)
| MpTransfer (src vm_name remote : string)
| MpTransferR (src vm_name remote : string)
| MpMount (src vm_name remote : string)
| MpShell (vm_name : string).

(** The dependency cache directory: whether it exists, whether it holds
    [MANIFEST.txt], and its entries in glob order, each with the result of
    the [-f] test. *)
Record cache := {
  cache_dir : bool;
  manifest : bool;
  entries : list (string * bool)
}.

(** The response [curl] gets, if any. *)
Inductive curl_outcome := NoResponse | Http (status : nat).

(** [curl -sf]: exit status 0 unless there is no response or the server
    answers with a status of 400 or more. *)
Definition curl_sf (o : curl_outcome) : bool :=
  match o with
  | NoResponse => false
  | Http s => (s <? 400)%nat
  end.

Definition is_2xx (o : curl_outcome) : bool :=
  match o with
  | NoResponse => false
  | Http s => ((200 <=? s) && (s <? 300))%nat
  end.

(** The externally visible actions of a run, in the order they happen. *)
Inductive event :=
| Call (f : string) (args : list string)
| Stdout (line : string)
| Stderr (line : string)
| Multipass (c : mp_cmd)
| Curl (url : string)
| Sleep (seconds : nat)
| Download (dir : string)
| Mktemp (dir : string)
| Mkdir (path : string)
| WriteFile (path content : string)
| RmRf (path : string)
| OpenUrl (opener url : string).

Definition absolute (path : string) : bool := prefix "/" path.

(** The programs and files the script depends on but does not define.
    [is_dir] answers [[ -d path ]] for the paths the world does not track;
    [pwd] prints an absolute path. *)
Record Env := {
  script : string;                              (* $0 *)
  HOME : string;
  SCRIPT_DIR : string;
  have_multipass : bool;                        (* command -v multipass *)
  have_open : bool;
  have_xdg_open : bool;
  open_exit : string -> string -> nat;          (* exit status of open, xdg-open *)
  mp_exit : list (string * vm) -> mp_cmd -> nat; (* exit status of multipass *)
  mp_ip : string -> string;                     (* address of a booted machine *)
  info_more : string -> list string;            (* multipass info: the other lines *)
  curl : string -> nat -> curl_outcome;         (* response to the n-th probe *)
  is_dir : string -> bool;                      (* [ -d path ] *)
  cd_pwd : string -> option string;             (* cd path && pwd *)
  pwd_absolute : forall c p, cd_pwd c = Some p -> absolute p = true;
  jq_raw : string -> string -> string;          (* jq -r filter, on a document *)
  mktemp : string;                              (* mktemp -d *)
  date : string;                                (* date -u +%Y-%m-%dT%H:%M:%SZ *)
  download : cache -> nat * cache               (* download-dependencies.sh *)
}.

(** The state the script reads back: the directories [$STATE_DIR/$name] by
    name, in byte order, each with its [config.json] if it has one; the
    machines of the backend; the dependency cache.  A missing [STATE_DIR] is
    the empty listing: the script returns 0 without effect in both cases. *)
Record World := {
  instances : list (string * option config);
  vms : list (string * vm);
  deps : cache
}.

Definition set_instances (w : World) (i : list (string * option config)) : World :=
  {| instances := i; vms := vms w; deps := deps w |}.
Definition set_vms (w : World) (v : list (string * vm)) : World :=
  {| instances := instances w; vms := v; deps := deps w |}.
Definition set_deps (w : World) (c : cache) : World :=
  {| instances := instances w; vms := vms w; deps := c |}.

(** ** Association lists in directory order *)

Section Assoc.
Context {V : Type}.

Fixpoint lookup (k : string) (l : list (string * V)) : option V :=
  match l with
  | [] => None
  | (k', v) :: l' => if String.eqb k k' then Some v else lookup k l'
  end.

(** Replace the entry of [k], or add it at its place in byte order. *)
Fixpoint upsert (k : string) (v : V) (l : list (string * V)) : list (string * V) :=
  match l with
  | [] => [(k, v)]
  | (k', v') :: l' =>
      if String.eqb k k' then (k, v) :: l'
      else if String.ltb k k' then (k, v) :: (k', v') :: l'
      else (k', v') :: upsert k v l'
  end.

Fixpoint remove (k : string) (l : list (string * V)) : list (string * V) :=
  match l with
  | [] => []
  | (k', v') :: l' =>
      if String.eqb k k' then remove k l' else (k', v') :: remove k l'
  end.

Definition has (k : string) (l : list (string * V)) : bool :=
  match lookup k l with Some _ => true | None => false end.

End Assoc.

(** ** Names and documents *)

(** A name that can be the name of an entry of a directory: not empty,
    without a slash, and neither [.] nor [..]. *)
Definition plain (name : string) : bool :=
  Str.nonempty name && negb (Str.has_slash name)
  && negb (String.eqb name ".") && negb (String.eqb name "..").

(** The entries the pattern ["$STATE_DIR"/*/config.json] visits: [*] does
    not match a name that starts with a dot. *)
Definition globbed (name : string) : bool :=
  plain name && negb (prefix "." name).

(** Text that stands for itself between the quotes of a JSON string:
    printable ASCII without the quote and the backslash. *)
Definition safe_char (a : ascii) : bool :=
  let n := nat_of_ascii a in
  ((32 <=? n) && (n <? 127) && negb (n =? 34) && negb (n =? 92))%nat.

Definition safe_text (s : string) : bool :=
  forallb safe_char (list_ascii_of_string s).

Definition is_digit (a : ascii) : bool :=
  let n := nat_of_ascii a in ((48 <=? n) && (n <=? 57))%nat.

(** A JSON number that [jq] prints as it was written: decimal digits, no
    leading zero, at most fifteen of them. *)
Definition canonical_number (s : string) : bool :=
  match s with
  | EmptyString => false
  | String a _ =>
      forallb is_digit (list_ascii_of_string s)
      && (String.length s <=? 15)%nat
      && (negb (Ascii.eqb a "0") || String.eqb s "0")
  end.

(** The record whose document, as [save_instance_state] writes it without
    escaping or validation, is JSON from which [jq -r] reads every field
    back as it was written: [port] and [cpus] are written bare, the other
    fields between quotes. *)
Definition json_safe (c : config) : bool :=
  safe_text (Config.name c) && safe_text (Config.vm_name c)
  && safe_text (Config.codebase_path c) && canonical_number (Config.port c)
  && safe_text (Config.memory c) && safe_text (Config.disk c)
  && canonical_number (Config.cpus c) && safe_text (Config.ubuntu_version c)
  && safe_text (Config.created c) && safe_text (Config.git_depth c)
  && safe_text (Config.git_branch c).

(** ** The shell monad *)

Inductive res (A : Type) :=
| Ret (a : A)          (* the command list ran to its end *)
| Exit (code : nat).   (* the shell exited *)
Arguments Ret {A} a.
Arguments Exit {A} code.

Definition Sh (A : Type) : Type := World -> res A * World * list event.

Definition ret {A} (a : A) : Sh A := fun w => (Ret a, w, []).

Definition bind {A B} (m : Sh A) (f : A -> Sh B) : Sh B :=
  fun w =>
    match m w with
    | (Ret a, w1, l1) =>
        match f a w1 with
        | (r, w2, l2) => (r, w2, (l1 ++ l2)%list)
        end
    | (Exit c, w1, l1) => (Exit c, w1, l1)
    end.

Notation "x <- m ;; k" := (bind m (fun x => k))
  (at level 61, m at next level, right associativity).
Notation "m ;; k" := (bind m (fun _ => k))
  (at level 61, right associativity).

Definition emit (e : event) : Sh unit := fun w => (Ret tt, w, [e]).
Definition exit {A} (code : nat) : Sh A := fun w => (Exit code, w, []).
Definition get_world : Sh World := fun w => (Ret w, w, []).
Definition put_world (w' : World) : Sh unit := fun _ => (Ret tt, w', []).

(** [set -e]: a command that returns a non-zero status where the status is
    not tested ends the shell with that status. *)
Definition errexit (m : Sh nat) : Sh unit :=
  st <- m ;; if Nat.eqb st 0 then ret tt else exit st.

(** The projections of a run. *)
Definition result {A} (r : res A * World * list event) : res A := fst (fst r).
Definition world {A} (r : res A * World * list event) : World := snd (fst r).
Definition log {A} (r : res A * World * list event) : list event := snd r.

(** Command substitution [$(...)]: the commands run in a subshell, their
    standard output is the value, and neither their status nor an exit
    inside reaches the caller. *)
Fixpoint stdout_of (l : list event) : list string :=
  match l with
  | [] => []
  | Stdout s :: l' => s :: stdout_of l'
  | _ :: l' => stdout_of l'
  end.

Definition not_stdout (e : event) : bool :=
  match e with Stdout _ => false | _ => true end.

Definition capture {A} (m : Sh A) : Sh string :=
  fun w =>
    match m w with
    | (_, w1, l) => (Ret (String.concat Str.nl (stdout_of l)), w1, filter not_stdout l)
    end.

(** ** The script *)

(** The options of [start], as the local variables of [command_start]. *)
Module Opt.
Record t := mk {
  memory : string;
  disk : string;
  cpus : string;
  port : string;
  ubuntu : string;
  no_cache : string;
  git_depth : string;
  git_branch : string
}.
End Opt.

Definition DEFAULT_MEMORY := "4G".
Definition DEFAULT_DISK := "20G".
Definition DEFAULT_CPUS := "2".
Definition DEFAULT_PORT := "8080".
Definition DEFAULT_UBUNTU := "22.04".

Definition default_options : Opt.t :=
  Opt.mk DEFAULT_MEMORY DEFAULT_DISK DEFAULT_CPUS DEFAULT_PORT DEFAULT_UBUNTU
         "no" "" "".

Definition get_vm_name (name : string) : string := "opengrok-test-" ++ name.

Definition source_url (ip port : string) : string :=
  "http://" ++ ip ++ ":" ++ port ++ "/source".

Section Script.
Context (E : Env).

Definition CACHE_DIR : string := HOME E ++ "/.opengrok-test-cache".
Definition STATE_DIR : string := HOME E ++ "/.opengrok-test-instances".

Definition info (msg : string) : Sh unit := emit (Stdout msg).
Definition warn (msg : string) : Sh unit := emit (Stderr ("WARNING: " ++ msg)).
Definition die {A} (msg : string) : Sh A :=
  emit (Stderr ("ERROR: " ++ msg)) ;; exit 1.

(** [set -u]: expanding an unset positional parameter ends the shell. *)
Definition unbound {A} (param : string) : Sh A :=
  emit (Stderr (param ++ ": unbound variable")) ;; exit 1.

(** *** The backend *)

Definition booted (n : string) : vm := {| state := Running; ipv4 := mp_ip E n |}.

(** What a successful invocation does to the machines. *)
Definition mp_effect (c : mp_cmd) (v : list (string * vm)) : list (string * vm) :=
  match c with
  | MpLaunch n _ _ _ _ => upsert n (booted n) v
  | MpStart n =>
      match lookup n v with
      | Some _ => upsert n (booted n) v
      | None => v
      end
  | MpStop n =>
      match lookup n v with
      | Some m => upsert n {| state := Stopped; ipv4 := ipv4 m |} v
      | None => v
      end
  | MpDeletePurge n => remove n v
  | _ => v
  end.

(** [multipass ...]: returns the exit status. *)
Definition multipass (c : mp_cmd) : Sh nat :=
  fun w =>
    let st := mp_exit E (vms w) c in
    (Ret st, if Nat.eqb st 0 then set_vms w (mp_effect c (vms w)) else w,
     [Multipass c]).

(** [multipass info "$vm_name" 2>/dev/null]: fails when there is no such
    machine. *)
Definition multipass_info (vm_name : string) : Sh (option vm) :=
  fun w => (Ret (lookup vm_name (vms w)), w, [Multipass (MpInfo vm_name)]).

(** The lines [multipass info] prints for a machine: its name, its state,
    and whatever else the backend reports (addresses, release, resources,
    mounts). *)
Definition info_lines (vm_name : string) (m : vm) : list string :=
  ("Name:           " ++ vm_name)
  :: ("State:          " ++ state_text (state m))
  :: info_more E vm_name.

(** [grep -q word]: some line contains the word. *)
Definition grep_q (word : string) (lines : list string) : bool :=
  existsb (Str.contains word) lines.

(** The word of a state occurs somewhere in what [multipass info] prints. *)
Definition seen (s : vm_state) (vm_name : string) (m : vm) : bool :=
  grep_q (state_text s) (info_lines vm_name m).

(** [multipass info "$vm_name" 2>/dev/null | grep -q "<State>"] under
    [pipefail]: the machine exists and the word occurs in the output. *)
Definition info_grep (vm_name : string) (s : vm_state) : Sh bool :=
  o <- multipass_info vm_name ;;
  ret match o with
      | Some m => seen s vm_name m
      | None => false
      end.

(** [multipass info "$vm_name" &>/dev/null] *)
Definition info_ok (vm_name : string) : Sh bool :=
  o <- multipass_info vm_name ;;
  ret match o with Some _ => true | None => false end.

Definition check_multipass : Sh unit :=
  if have_multipass E then ret tt
  else die "Multipass not installed. Run: brew install --cask multipass".

(** [[ -d "$STATE_DIR/$name" ]]: the directory of a tracked name is there;
    an untracked plain name has none; for any other name (empty, [.], [..],
    or with a slash) the path is resolved by the file system. *)
Definition record_dir (name : string) (w : World) : bool :=
  has name (instances w)
  || negb (plain name) && is_dir E (STATE_DIR ++ "/" ++ name).

Definition check_instance_exists (name : string) : Sh unit :=
  w <- get_world ;;
  if record_dir name w then ret tt
  else die ("Instance '" ++ name ++ "' not found. Run: " ++ script E ++ " list").

Definition get_vm_ip (vm_name : string) : Sh string :=
  o <- multipass_info vm_name ;;
  ret match o with Some m => ipv4 m | None => "" end.

(** *** The readiness probe *)

(** The loop of [wait_for_opengrok], by the number of attempts left:
    [while [ $attempt -lt $max_attempts ]]. *)
Fixpoint wait_loop (url : string) (left attempt : nat) : Sh nat :=
  match left with
  | 0 => ret 1
  | S left' =>
      emit (Curl url) ;;
      if curl_sf (curl E url attempt) then ret 0
      else emit (Sleep 2) ;; wait_loop url left' (S attempt)
  end.

Definition max_attempts : nat := 60.

Definition wait_for_opengrok (url : string) : Sh nat :=
  emit (Call "wait_for_opengrok" [url]) ;;
  info "Waiting for OpenGrok to start..." ;;
  wait_loop url (max_attempts - 0) 0.

(** *** The dependency cache *)

Definition ensure_cache (force_download : string) : Sh unit :=
  emit (Call "ensure_cache" [force_download]) ;;
  w <- get_world ;;
  if String.eqb force_download "yes" || negb (cache_dir (deps w))
     || negb (manifest (deps w))
  then
    info "Downloading dependencies to cache..." ;;
    emit (Mkdir CACHE_DIR) ;;
    let c := {| cache_dir := true; manifest := manifest (deps w);
                entries := entries (deps w) |} in
    emit (Download CACHE_DIR) ;;
    put_world (set_deps w (snd (download E c))) ;;
    errexit (ret (fst (download E c)))
  else
    info ("Using cached dependencies from " ++ CACHE_DIR).

(** *** The state store *)

Definition q (s : string) : string := Str.dq ++ s ++ Str.dq.

(** The here-document of [save_instance_state]. *)
Definition render_config (c : config) : string :=
  Str.heredoc
    [ "{";
      "  " ++ q "name" ++ ": " ++ q (Config.name c) ++ ",";
      "  " ++ q "vm_name" ++ ": " ++ q (Config.vm_name c) ++ ",";
      "  " ++ q "codebase_type" ++ ": "
           ++ q (codebase_type_text (Config.codebase_type c)) ++ ",";
      "  " ++ q "codebase_path" ++ ": " ++ q (Config.codebase_path c) ++ ",";
      "  " ++ q "port" ++ ": " ++ Config.port c ++ ",";
      "  " ++ q "memory" ++ ": " ++ q (Config.memory c) ++ ",";
      "  " ++ q "disk" ++ ": " ++ q (Config.disk c) ++ ",";
      "  " ++ q "cpus" ++ ": " ++ Config.cpus c ++ ",";
      "  " ++ q "ubuntu_version" ++ ": " ++ q (Config.ubuntu_version c) ++ ",";
      "  " ++ q "created" ++ ": " ++ q (Config.created c) ++ ",";
      "  " ++ q "git_depth" ++ ": " ++ q (Config.git_depth c) ++ ",";
      "  " ++ q "git_branch" ++ ": " ++ q (Config.git_branch c);
      "}" ].

Definition config_file (name : string) : string :=
  STATE_DIR ++ "/" ++ name ++ "/config.json".

Definition save_instance_state
  (name : string) (codebase_type : codebase_type)
  (codebase_path port memory disk cpus ubuntu git_depth git_branch : string)
  : Sh unit :=
  emit (Call "save_instance_state"
          [name; codebase_type_text codebase_type; codebase_path; port; memory;
           disk; cpus; ubuntu; git_depth; git_branch]) ;;
  emit (Mkdir (STATE_DIR ++ "/" ++ name)) ;;
  let vm_name := get_vm_name name in
  let created := date E in
  let c := Config.mk name vm_name codebase_type codebase_path port memory disk
                     cpus ubuntu created git_depth git_branch in
  emit (WriteFile (config_file name) (render_config c)) ;;
  w <- get_world ;;
  put_world (set_instances w (upsert name (Some c) (instances w))).

(** [load_instance_state] inside [$(...)]: the document, or nothing when the
    file is missing (the [die] ends the subshell only). *)
Definition load_instance_state (name : string) : Sh (option config) :=
  w <- get_world ;;
  match lookup name (instances w) with
  | Some (Some c) => ret (Some c)
  | _ =>
      emit (Stderr ("ERROR: State file not found for '" ++ name ++ "'")) ;;
      ret None
  end.

(** [jq -r '.field'] on the document of a record, or on nothing: a safe
    document gives the field as it was written; what comes out of any other
    document (nothing, when it does not parse) is up to [jq]. *)
Definition jq (filter : string) (field : config -> string) (c : option config)
  : string :=
  match c with
  | Some c => if json_safe c then field c else jq_raw E filter (render_config c)
  | None => ""
  end.

(** *** The port check *)

Definition port_conflict_message (port instance_name : string) : string :=
  "Port " ++ port ++ " already used by running instance '" ++ instance_name
  ++ "'. Use --port to specify different port.".

(** The loop of [check_port_available] over [$STATE_DIR/*/config.json]. *)
Fixpoint port_scan (port name : string) (l : list (string * option config))
  : Sh unit :=
  match l with
  | [] => ret tt
  | (_, None) :: l' => port_scan port name l'
  | (dir, Some c) :: l' =>
      if globbed dir then
        let instance_port := jq ".port" Config.port (Some c) in
        let instance_name := jq ".name" Config.name (Some c) in
        if String.eqb instance_port port && negb (String.eqb instance_name name)
        then
          let vm_name := get_vm_name instance_name in
          running <- info_grep vm_name Running ;;
          if running then die (port_conflict_message port instance_name)
          else port_scan port name l'
        else port_scan port name l'
      else port_scan port name l'
  end.

Definition check_port_available (port name : string) : Sh unit :=
  emit (Call "check_port_available" [port; name]) ;;
  w <- get_world ;;
  port_scan port name (instances w).


(** *** The demo codebase *)

Definition utils_h : string :=
  Str.heredoc
    [ "#ifndef UTILS_H";
      "#define UTILS_H";
      "";
      "int string_length(const char* str);";
      "void print_message(const char* msg);";
      "";
      "#endif" ].

Definition utils_c : string :=
  Str.heredoc
    [ "#include <stdio.h>";
      "#include <string.h>";
      "#include " ++ q "../include/utils.h";
      "";
      "int string_length(const char* str) {";
      "    return strlen(str);";
      "}";
      "";
      "void print_message(const char* msg) {";
      "    printf(" ++ q "%s\n" ++ ", msg);";
      "}" ].

Definition main_c : string :=
  Str.heredoc
    [ "#include <stdio.h>";
      "#include " ++ q "../include/utils.h";
      "";
      "int main() {";
      "    const char* message = " ++ q "Hello, OpenGrok!" ++ ";";
      "    print_message(message);";
      "    printf(" ++ q "Message length: %d\n" ++ ", string_length(message));";
      "    return 0;";
      "}" ].

Definition server_py : string :=
  Str.heredoc
    [ "from client import Client";
      "";
      "class Server:";
      "    def __init__(self, port):";
      "        self.port = port";
      "        self.clients = []";
      "";
      "    def add_client(self, client):";
      "        self.clients.append(client)";
      "";
      "    def broadcast(self, message):";
      "        for client in self.clients:";
      "            client.send(message)";
      "";
      "    def start(self):";
      "        print(f" ++ q "Server started on port {self.port}" ++ ")" ].

Definition client_py : string :=
  Str.heredoc
    [ "class Client:";
      "    def __init__(self, name):";
      "        self.name = name";
      "";
      "    def send(self, message):";
      "        print(f" ++ q "{self.name} received: {message}" ++ ")";
      "";
      "    def connect(self, server):";
      "        server.add_client(self)" ].

Definition helpers_js : string :=
  Str.heredoc
    [ "export function formatMessage(msg) {";
      "    return `[INFO] ${msg}`;";
      "}";
      "";
      "export function getCurrentTimestamp() {";
      "    return new Date().toISOString();";
      "}" ].

Definition app_js : string :=
  Str.heredoc
    [ "import { formatMessage, getCurrentTimestamp } from './helpers.js';";
      "";
      "class Application {";
      "    constructor(name) {";
      "        this.name = name;";
      "        this.startTime = getCurrentTimestamp();";
      "    }";
      "";
      "    log(message) {";
      "        console.log(formatMessage(message));";
      "    }";
      "";
      "    run() {";
      "        this.log(`Application ${this.name} started at ${this.startTime}`);";
      "    }";
      "}";
      "";
      "const app = new Application('DemoApp');";
      "app.run();" ].

Definition test_utils_c : string :=
  Str.heredoc
    [ "#include <assert.h>";
      "#include <string.h>";
      "#include " ++ q "../include/utils.h";
      "";
      "void test_string_length() {";
      "    assert(string_length(" ++ q "hello" ++ ") == 5);";
      "    assert(string_length(" ++ q "" ++ ") == 0);";
      "}";
      "";
      "int main() {";
      "    test_string_length();";
      "    return 0;";
      "}" ].

Definition test_server_py : string :=
  Str.heredoc
    [ "import sys";
      "sys.path.insert(0, '../src')";
      "";
      "from server import Server";
      "from client import Client";
      "";
      "def test_server():";
      "    server = Server(8080)";
      "    client = Client(" ++ q "TestClient" ++ ")";
      "    client.connect(server)";
      "    assert len(server.clients) == 1";
      "    print(" ++ q "Tests passed" ++ ")";
      "";
      "if __name__ == " ++ q "__main__" ++ ":";
      "    test_server()" ].

(** [create_demo_codebase]: runs inside [$(...)], so no command of it ends
    the shell; its output is the directory [mktemp -d] made. *)
Definition create_demo_codebase : Sh nat :=
  emit (Call "create_demo_codebase" []) ;;
  let demo_dir := mktemp E in
  emit (Mktemp demo_dir) ;;
  emit (Mkdir (demo_dir ++ "/src")) ;;
  emit (Mkdir (demo_dir ++ "/include")) ;;
  emit (Mkdir (demo_dir ++ "/tests")) ;;
  emit (WriteFile (demo_dir ++ "/include/utils.h") utils_h) ;;
  emit (WriteFile (demo_dir ++ "/src/utils.c") utils_c) ;;
  emit (WriteFile (demo_dir ++ "/src/main.c") main_c) ;;
  emit (WriteFile (demo_dir ++ "/src/server.py") server_py) ;;
  emit (WriteFile (demo_dir ++ "/src/client.py") client_py) ;;
  emit (WriteFile (demo_dir ++ "/src/helpers.js") helpers_js) ;;
  emit (WriteFile (demo_dir ++ "/src/app.js") app_js) ;;
  emit (WriteFile (demo_dir ++ "/tests/test_utils.c") test_utils_c) ;;
  emit (WriteFile (demo_dir ++ "/tests/test_server.py") test_server_py) ;;
  emit (Stdout demo_dir) ;;
  ret 0.

(** *** start *)

(** The [while]/[case] loop over the options of [start]. *)
Fixpoint parse_options (args : list string) (o : Opt.t) : Sh Opt.t :=
  match args with
  | [] => ret o
  | a :: rest =>
      let '(Opt.mk memory disk cpus port ubuntu no_cache git_depth git_branch) := o in
      if String.eqb a "--memory" then
        match rest with
        | v :: rest' =>
            parse_options rest' (Opt.mk v disk cpus port ubuntu no_cache git_depth git_branch)
        | [] => unbound "$2"
        end
      else if String.eqb a "--disk" then
        match rest with
        | v :: rest' =>
            parse_options rest' (Opt.mk memory v cpus port ubuntu no_cache git_depth git_branch)
        | [] => unbound "$2"
        end
      else if String.eqb a "--cpus" then
        match rest with
        | v :: rest' =>
            parse_options rest' (Opt.mk memory disk v port ubuntu no_cache git_depth git_branch)
        | [] => unbound "$2"
        end
      else if String.eqb a "--port" then
        match rest with
        | v :: rest' =>
            parse_options rest' (Opt.mk memory disk cpus v ubuntu no_cache git_depth git_branch)
        | [] => unbound "$2"
        end
      else if String.eqb a "--ubuntu" then
        match rest with
        | v :: rest' =>
            parse_options rest' (Opt.mk memory disk cpus port v no_cache git_depth git_branch)
        | [] => unbound "$2"
        end
      else if String.eqb a "--no-cache" then
        parse_options rest (Opt.mk memory disk cpus port ubuntu "yes" git_depth git_branch)
      else if String.eqb a "--depth" then
        match rest with
        | v :: rest' =>
            parse_options rest' (Opt.mk memory disk cpus port ubuntu no_cache v git_branch)
        | [] => unbound "$2"
        end
      else if String.eqb a "--branch" then
        match rest with
        | v :: rest' =>
            parse_options rest' (Opt.mk memory disk cpus port ubuntu no_cache git_depth v)
        | [] => unbound "$2"
        end
      else die ("Unknown option: " ++ a)
  end.

(** [[[ "$codebase" =~ ^(https?://|git@|ssh://) ]]] *)
Definition is_remote_url (codebase : string) : bool :=
  prefix "http://" codebase || prefix "https://" codebase
  || prefix "git@" codebase || prefix "ssh://" codebase.

(** The codebase of a run: its type, [source_path] and [project_name]. *)
Record codebase_info := {
  cb_type : codebase_type;
  source_path : string;
  project_name : string
}.

(** "Determine codebase type and project name": the [if]/[elif] chain of
    [command_start].  When [cd] fails on a directory, the assignment of
    [source_path] fails and [set -e] ends the shell. *)
Definition classify_codebase (codebase : string) : Sh codebase_info :=
  if negb (Str.nonempty codebase) then
    info "No codebase specified, creating demo code..." ;;
    source_path <- capture create_demo_codebase ;;
    ret {| cb_type := Demo; source_path := source_path; project_name := "demo" |}
  else if is_dir E codebase then
    match cd_pwd E codebase with
    | Some source_path =>
        ret {| cb_type := Local; source_path := source_path;
               project_name := Str.basename source_path |}
    | None => exit 1
    end
  else if is_remote_url codebase then
    ret {| cb_type := Git; source_path := codebase;
           project_name := Str.basename_suffix codebase ".git" |}
  else die ("Codebase not found: " ++ codebase).

(** The loop that transfers the files of the cache. *)
Fixpoint transfer_deps (vm_name : string) (files : list (string * bool)) : Sh unit :=
  match files with
  | [] => ret tt
  | (file, regular) :: files' =>
      (if regular
       then errexit (multipass (MpTransfer file vm_name "/tmp/opengrok-deps/"))
       else ret tt) ;;
      transfer_deps vm_name files'
  end.

(** "Handle codebase" *)
Definition handle_codebase (vm_name : string) (cb : codebase_info)
  (git_depth git_branch : string) : Sh unit :=
  match cb_type cb with
  | Local | Demo =>
      info "Transferring source code..." ;;
      errexit (multipass (MpExec vm_name ["mkdir"; "-p"; "/tmp/source-code"])) ;;
      st <- multipass (MpTransferR (source_path cb ++ "/*")
                                   vm_name "/tmp/source-code/") ;;
      if Nat.eqb st 0 then ret tt
      else
        errexit (multipass (MpMount (source_path cb) vm_name "/mnt/source")) ;;
        errexit (multipass (MpExec vm_name
          ["sh"; "-c";
           "cp -r /mnt/source/* /tmp/source-code/ 2>/dev/null || cp -r /mnt/source/. /tmp/source-code/"]))
  | Git =>
      info "Cloning git repository..." ;;
      let git_cmd := "git clone" in
      let git_cmd :=
        if Str.nonempty git_depth then git_cmd ++ " --depth " ++ git_depth
        else git_cmd in
      let git_cmd :=
        if Str.nonempty git_branch then git_cmd ++ " --branch " ++ git_branch
        else git_cmd in
      let git_cmd := git_cmd ++ " " ++ source_path cb ++ " /tmp/source-code" in
      errexit (multipass (MpExec vm_name ["bash"; "-c"; git_cmd]))
  end.

Definition install_argv (port project_name : string) : list string :=
  ["sudo"; "bash"; "/home/ubuntu/scripts/install-opengrok.sh";
   "-y"; "--indexer-memory"; "2048"; "--port"; port;
   "--project-name"; project_name; "/tmp/opengrok-deps"; "/tmp/source-code"].

(** "Check if instance already exists": [Some status] when the function
    returns from this block, [None] when it goes on. *)
Definition existing_instance (name vm_name port : string) : Sh (option nat) :=
  w <- get_world ;;
  if record_dir name w then
    info ("Instance '" ++ name ++ "' already exists. Checking status...") ;;
    running <- info_grep vm_name Running ;;
    if running then
      info "Instance is already running." ;;
      ip <- get_vm_ip vm_name ;;
      info ("OpenGrok URL: " ++ source_url ip port) ;;
      ret (Some 0)
    else
      present <- info_ok vm_name ;;
      if present then
        info "Restarting existing instance..." ;;
        errexit (multipass (MpStart vm_name)) ;;
        ip <- get_vm_ip vm_name ;;
        info ("Instance restarted. OpenGrok URL: " ++ source_url ip port) ;;
        ret (Some 0)
      else ret None
  else ret None.

(** The end of [command_start], from "Wait for OpenGrok" on.  The function
    returns the status of its last command,
    [[ "$codebase_type" = "demo" ] && rm -rf "$source_path"]. *)
Definition finish_start (name vm_name port : string) (cb : codebase_info) : Sh nat :=
  ip <- get_vm_ip vm_name ;;
  let url := source_url ip port in
  ready <- wait_for_opengrok url ;;
  (if Nat.eqb ready 0 then
     info "" ;;
     info ("=== Instance '" ++ name ++ "' Ready ===") ;;
     info ("OpenGrok URL: " ++ url) ;;
     info ("VM IP: " ++ ip) ;;
     info ""
   else
     warn ("OpenGrok may not be ready yet. Check logs with: " ++ script E
           ++ " logs " ++ name)) ;;
  match cb_type cb with
  | Demo => emit (RmRf (source_path cb)) ;; ret 0
  | _ => ret 1
  end.

(** The middle of [command_start], from "Check port availability" to "Save
    instance state". *)
Definition provision (name vm_name codebase : string) (o : Opt.t) : Sh nat :=
  let '(Opt.mk memory disk cpus port ubuntu no_cache git_depth git_branch) := o in
  check_port_available port name ;;
  cb <- classify_codebase codebase ;;
  ensure_cache no_cache ;;
  info ("Creating VM '" ++ vm_name ++ "'...") ;;
  errexit (multipass (MpLaunch vm_name memory disk cpus ubuntu)) ;;
  errexit (multipass (MpExec vm_name ["mkdir"; "-p"; "/home/ubuntu/scripts"])) ;;
  info "Transferring installation scripts..." ;;
  errexit (multipass (MpTransfer (SCRIPT_DIR E ++ "/download-dependencies.sh")
                                 vm_name "/home/ubuntu/scripts/")) ;;
  errexit (multipass (MpTransfer (SCRIPT_DIR E ++ "/install-opengrok.sh")
                                 vm_name "/home/ubuntu/scripts/")) ;;
  info "Transferring cached dependencies..." ;;
  errexit (multipass (MpExec vm_name ["mkdir"; "-p"; "/tmp/opengrok-deps"])) ;;
  w <- get_world ;;
  transfer_deps vm_name (entries (deps w)) ;;
  handle_codebase vm_name cb git_depth git_branch ;;
  info "Installing OpenGrok..." ;;
  errexit (multipass (MpExec vm_name (install_argv port (project_name cb)))) ;;
  save_instance_state name (cb_type cb) (source_path cb) port memory disk cpus
                      ubuntu git_depth git_branch ;;
  finish_start name vm_name port cb.

(** The optional codebase argument: it is taken (and shifted) unless it is
    empty or starts with two dashes. *)
Definition split_codebase (args : list string) : string * list string :=
  let codebase := match args with a :: _ => a | [] => "" end in
  if Str.nonempty codebase && negb (String.eqb (Str.first2 codebase) "--")
  then (codebase, tl args) else ("", args).

Definition command_start (args : list string) : Sh nat :=
  let name := match args with a :: _ => a | [] => "" end in
  if negb (Str.nonempty name) then
    die ("Usage: " ++ script E ++ " start <name> [codebase] [options]")
  else
    let args := tl args in
    let '(codebase, args) := split_codebase args in
    o <- parse_options args default_options ;;
    let vm_name := get_vm_name name in
    done <- existing_instance name vm_name (Opt.port o) ;;
    match done with
    | Some status => ret status
    | None => provision name vm_name codebase o
    end.

(** *** The other commands *)

Definition command_stop (args : list string) : Sh nat :=
  let name := match args with a :: _ => a | [] => "" end in
  if negb (Str.nonempty name) then
    die ("Usage: " ++ script E ++ " stop <name>")
  else
    check_instance_exists name ;;
    let vm_name := get_vm_name name in
    info ("Stopping instance '" ++ name ++ "'...") ;;
    st <- multipass (MpStop vm_name) ;;
    (if Nat.eqb st 0 then ret tt else die "Failed to stop VM") ;;
    info "Instance stopped (VM preserved for quick restart)" ;;
    ret 0.

Definition command_destroy (args : list string) : Sh nat :=
  let name := match args with a :: _ => a | [] => "" end in
  if negb (Str.nonempty name) then
    die ("Usage: " ++ script E ++ " destroy <name>")
  else
    check_instance_exists name ;;
    let vm_name := get_vm_name name in
    info ("Destroying instance '" ++ name ++ "'...") ;;
    st <- multipass (MpDeletePurge vm_name) ;;
    (if Nat.eqb st 0 then ret tt else warn "VM may not exist") ;;
    emit (RmRf (STATE_DIR ++ "/" ++ name)) ;;
    w <- get_world ;;
    put_world (set_instances w (remove name (instances w))) ;;
    info "Instance destroyed" ;;
    ret 0.

Definition command_status (args : list string) : Sh nat :=
  let name := match args with a :: _ => a | [] => "" end in
  if negb (Str.nonempty name) then
    die ("Usage: " ++ script E ++ " status <name>")
  else
    w <- get_world ;;
    if negb (record_dir name w) then
      info "not found" ;;
      ret 1
    else
      let vm_name := get_vm_name name in
      running <- info_grep vm_name Running ;;
      if running then info "running" ;; ret 0
      else
        stopped <- info_grep vm_name Stopped ;;
        if stopped then info "stopped" ;; ret 0
        else info "unknown" ;; ret 0.

Definition command_info (args : list string) : Sh nat :=
  let name := match args with a :: _ => a | [] => "" end in
  if negb (Str.nonempty name) then
    die ("Usage: " ++ script E ++ " info <name>")
  else
    check_instance_exists name ;;
    config <- load_instance_state name ;;
    let vm_name := get_vm_name name in
    let port := jq ".port" Config.port config in
    let codebase := jq ".codebase_path" Config.codebase_path config in
    let created := jq ".created" Config.created config in
    let memory := jq ".memory" Config.memory config in
    let cpus := jq ".cpus" Config.cpus config in
    status <- capture (command_status [name]) ;;
    ip <- get_vm_ip vm_name ;;
    let url := source_url ip port in
    info ("Instance: " ++ name) ;;
    info ("Status: " ++ status) ;;
    info ("VM Name: " ++ vm_name) ;;
    info ("URL: " ++ url) ;;
    info ("IP: " ++ ip) ;;
    info ("Port: " ++ port) ;;
    info ("Codebase: " ++ codebase) ;;
    info ("Resources: " ++ memory ++ " RAM, " ++ cpus ++ " CPUs") ;;
    info ("Created: " ++ created) ;;
    ret 0.

(** [open "$url"] or [xdg-open "$url"]: a simple command, so [set -e] ends
    the shell when it fails. *)
Definition opener (program url : string) : Sh unit :=
  emit (OpenUrl program url) ;;
  errexit (ret (open_exit E program url)).

Definition command_open (args : list string) : Sh nat :=
  let name := match args with a :: _ => a | [] => "" end in
  if negb (Str.nonempty name) then
    die ("Usage: " ++ script E ++ " open <name>")
  else
    check_instance_exists name ;;
    let vm_name := get_vm_name name in
    config <- load_instance_state name ;;
    let port := jq ".port" Config.port config in
    status <- capture (command_status [name]) ;;
    (if String.eqb status "running" then ret tt
     else die ("Instance '" ++ name ++ "' is not running. Start it with: "
               ++ script E ++ " start " ++ name)) ;;
    ip <- get_vm_ip vm_name ;;
    let url := source_url ip port in
    info ("Opening " ++ url ++ " in browser...") ;;
    (if have_open E then opener "open" url
     else if have_xdg_open E then opener "xdg-open" url
     else info ("Please open this URL manually: " ++ url)) ;;
    ret 0.

Fixpoint spaces (n : nat) : string :=
  match n with 0 => "" | S n' => " " ++ spaces n' end.

(** [printf "%-Ns"] *)
Definition pad (n : nat) (s : string) : string :=
  s ++ spaces (n - String.length s).

Definition list_row (name status port ip codebase : string) : string :=
  pad 20 name ++ " " ++ pad 10 status ++ " " ++ pad 6 port ++ " "
  ++ pad 15 ip ++ " " ++ codebase.

Fixpoint list_rows (l : list (string * option config)) : Sh unit :=
  match l with
  | [] => ret tt
  | (_, None) :: l' => list_rows l'
  | (dir, Some c) :: l' =>
      if globbed dir then
        let name := jq ".name" Config.name (Some c) in
        let port := jq ".port" Config.port (Some c) in
        let codebase := jq ".codebase_path" Config.codebase_path (Some c) in
        let vm_name := get_vm_name name in
        running <- info_grep vm_name Running ;;
        row <-
          (if running then
             ip <- get_vm_ip vm_name ;; ret ("running", ip)
           else
             stopped <- info_grep vm_name Stopped ;;
             ret (if stopped then "stopped" else "unknown", "N/A")) ;;
        let '(status, ip) := row in
        info (list_row name status port ip codebase) ;;
        list_rows l'
      else list_rows l'
  end.

Definition command_list (args : list string) : Sh nat :=
  info (list_row "NAME" "STATUS" "PORT" "IP" "CODEBASE") ;;
  info (list_row "----" "------" "----" "--" "--------") ;;
  w <- get_world ;;
  list_rows (instances w) ;;
  ret 0.

Definition reindex_argv : list string :=
  ["sudo"; "java"; "-Xmx2048m"; "-jar"; "/opt/opengrok/lib/opengrok.jar";
   "-c"; "/usr/local/bin/ctags"; "-s"; "/var/opengrok/src";
   "-d"; "/var/opengrok/data"; "-H"; "-P"; "-S"; "-G";
   "-W"; "/var/opengrok/etc/configuration.xml"].

Definition command_reindex (args : list string) : Sh nat :=
  let name := match args with a :: _ => a | [] => "" end in
  if negb (Str.nonempty name) then
    die ("Usage: " ++ script E ++ " reindex <name>")
  else
    check_instance_exists name ;;
    let vm_name := get_vm_name name in
    status <- capture (command_status [name]) ;;
    (if String.eqb status "running" then ret tt
     else die ("Instance '" ++ name ++ "' is not running")) ;;
    info "Reindexing codebase..." ;;
    errexit (multipass (MpExec vm_name reindex_argv)) ;;
    info "Reindexing complete" ;;
    ret 0.

Definition command_shell (args : list string) : Sh nat :=
  let name := match args with a :: _ => a | [] => "" end in
  if negb (Str.nonempty name) then
    die ("Usage: " ++ script E ++ " shell <name>")
  else
    check_instance_exists name ;;
    let vm_name := get_vm_name name in
    errexit (multipass (MpShell vm_name)) ;;
    ret 0.

Definition command_logs (args : list string) : Sh nat :=
  let name := match args with a :: _ => a | [] => "" end in
  if negb (Str.nonempty name) then
    die ("Usage: " ++ script E ++ " logs <name> [--follow]")
  else
    check_instance_exists name ;;
    let vm_name := get_vm_name name in
    let args := tl args in
    let arg := match args with a :: _ => a | [] => "" end in
    let follow_flag :=
      if String.eqb arg "--follow" || String.eqb arg "-f" then ["-f"] else [] in
    errexit (multipass (MpExec vm_name
      (["sudo"; "journalctl"; "-u"; "tomcat"; "-n"; "100"] ++ follow_flag)%list)) ;;
    ret 0.

Definition help_text : string :=
  Str.heredoc
    [ "Usage: manage-opengrok-test.sh <command> [options]";
      "";
      "Commands:";
      "  start <name> [codebase]   Start or create an instance";
      "  stop <name>               Stop instance (keeps VM)";
      "  destroy <name>            Remove instance completely";
      "  status <name>             Quick status check";
      "  info <name>               Detailed instance info";
      "  open <name>               Open in browser";
      "  list                      List all instances";
      "  reindex <name>            Reindex codebase";
      "  shell <name>              Shell into VM";
      "  logs <name> [--follow]    View logs";
      "  help                      Show this help";
      "";
      "Start options:";
      "  --memory 4G       VM memory (default: 4G)";
      "  --disk 20G        VM disk size (default: 20G)";
      "  --cpus 2          CPU cores (default: 2)";
      "  --port 8080       OpenGrok port (default: 8080)";
      "  --no-cache        Force fresh dependency download";
      "  --ubuntu 24.04    Ubuntu version (default: 22.04)";
      "  --depth 1         Git clone depth (for git repos)";
      "  --branch main     Git branch (for git repos)";
      "";
      "Examples:";
      "  manage-opengrok-test.sh start my-test ~/code/project";
      "  manage-opengrok-test.sh start demo";
      "  manage-opengrok-test.sh start linux-test https://github.com/torvalds/linux --depth 1";
      "  manage-opengrok-test.sh open my-test";
      "  manage-opengrok-test.sh stop my-test";
      "  manage-opengrok-test.sh destroy my-test" ].

Definition command_help : Sh nat := emit (Stdout help_text) ;; ret 0.

(** *** Dispatch *)

(** [main]: the function called by name is a simple command, so [set -e]
    ends the shell when it returns a non-zero status. *)
Definition main (args : list string) : Sh nat :=
  check_multipass ;;
  let cmd := match args with a :: _ => if Str.nonempty a then a else "help"
                        | [] => "help" end in
  let args := tl args in
  if String.eqb cmd "start" then errexit (command_start args) ;; ret 0
  else if String.eqb cmd "stop" then errexit (command_stop args) ;; ret 0
  else if String.eqb cmd "destroy" then errexit (command_destroy args) ;; ret 0
  else if String.eqb cmd "status" then errexit (command_status args) ;; ret 0
  else if String.eqb cmd "info" then errexit (command_info args) ;; ret 0
  else if String.eqb cmd "open" then errexit (command_open args) ;; ret 0
  else if String.eqb cmd "list" then errexit (command_list args) ;; ret 0
  else if String.eqb cmd "reindex" then errexit (command_reindex args) ;; ret 0
  else if String.eqb cmd "shell" then errexit (command_shell args) ;; ret 0
  else if String.eqb cmd "logs" then errexit (command_logs args) ;; ret 0
  else if String.eqb cmd "help" || String.eqb cmd "--help" || String.eqb cmd "-h"
  then errexit command_help ;; ret 0
  else die ("Unknown command: " ++ cmd ++ ". Run: " ++ script E ++ " help").

(** The exit code of the process for [main "$@"]. *)
Definition exit_code (args : list string) (w : World) : nat :=
  match result (errexit (main args) w) with
  | Ret _ => 0
  | Exit c => c
  end.

End Script.

(** * Notions used in the statements *)

(** The entries a run creates below [root], with their paths relative to it;
    [None] stands for an entry outside [root]. *)
Inductive node :=
| Dir (path : string)
| File (path content : string).

Fixpoint tree_below (root : string) (l : list event) : list (option node) :=
  match l with
  | [] => []
  | Mkdir p :: l' => option_map Dir (Str.strip_prefix root p) :: tree_below root l'
  | WriteFile p c :: l' =>
      option_map (fun rel => File rel c) (Str.strip_prefix root p)
      :: tree_below root l'
  | _ :: l' => tree_below root l'
  end.

Definition demo_tree : list node :=
  [ Dir "/src"; Dir "/include"; Dir "/tests";
    File "/include/utils.h" utils_h;
    File "/src/utils.c" utils_c;
    File "/src/main.c" main_c;
    File "/src/server.py" server_py;
    File "/src/client.py" client_py;
    File "/src/helpers.js" helpers_js;
    File "/src/app.js" app_js;
    File "/tests/test_utils.c" test_utils_c;
    File "/tests/test_server.py" test_server_py ].

(** A machine on which every external program succeeds: the backend, the
    downloader, and a service that answers the third probe. *)
Module Scenario.

Definition cache_full : cache :=
  {| cache_dir := true; manifest := true;
     entries := [("/home/u/.opengrok-test-cache/MANIFEST.txt", true);
                 ("/home/u/.opengrok-test-cache/opengrok.tar.gz", true);
                 ("/home/u/.opengrok-test-cache/tmp", false)] |}.

(** [cd] enters [/src/proj], also by the relative name [proj]. *)
Definition cd (p : string) : option string :=
  if String.eqb p "/src/proj" || String.eqb p "proj"
  then Some "/src/proj" else None.

Definition cd_absolute (c p : string) : cd c = Some p -> absolute p = true :=
  fun H =>
    match String.eqb c "/src/proj" || String.eqb c "proj" as b
          return (if b then Some "/src/proj" else None) = Some p ->
                 absolute p = true
    with
    | true => fun H' =>
        match H' in _ = o
              return match o with Some q => absolute q = true | None => True end
        with eq_refl => eq_refl end
    | false => fun H' =>
        match H' in _ = o
              return match o with Some _ => absolute p = true | None => True end
        with eq_refl => I end
    end H.

(** A host where the state directory exists, [jq] prints nothing for a
    document it cannot parse, and the backend reports nothing but the name
    and the state of a machine. *)
Definition env : Env :=
  {| script := "manage-opengrok-test.sh";
     HOME := "/home/u";
     SCRIPT_DIR := "/opt/opengrok/scripts";
     have_multipass := true;
     have_open := false;
     have_xdg_open := true;
     open_exit := fun _ _ => 0;
     mp_exit := fun _ _ => 0;
     mp_ip := fun vm_name =>
       if String.eqb vm_name "opengrok-test-a" then "10.0.0.7" else "10.0.0.8";
     info_more := fun _ => [];
     curl := fun _ n => if Nat.ltb n 2 then NoResponse else Http 200;
     is_dir := fun p =>
       String.eqb p "/src/proj" || String.eqb p "proj"
       || String.eqb p "/home/u/.opengrok-test-instances/.";
     cd_pwd := cd;
     pwd_absolute := cd_absolute;
     jq_raw := fun _ _ => "";
     mktemp := "/tmp/tmp.k3Hq9";
     date := "2026-01-01T00:00:00Z";
     download := fun _ => (0, cache_full) |}.

(** The same machine with a service that never answers. *)
Definition env_silent : Env :=
  {| script := script env; HOME := HOME env; SCRIPT_DIR := SCRIPT_DIR env;
     have_multipass := true; have_open := false; have_xdg_open := true;
     open_exit := open_exit env;
     mp_exit := mp_exit env; mp_ip := mp_ip env; info_more := info_more env;
     curl := fun _ _ => NoResponse;
     is_dir := is_dir env; cd_pwd := cd_pwd env;
     pwd_absolute := pwd_absolute env; jq_raw := jq_raw env;
     mktemp := mktemp env; date := date env; download := download env |}.

(** The same machine with a service that redirects from the first request
    on. *)
Definition env_redirect : Env :=
  {| script := script env; HOME := HOME env; SCRIPT_DIR := SCRIPT_DIR env;
     have_multipass := true; have_open := false; have_xdg_open := true;
     open_exit := open_exit env;
     mp_exit := mp_exit env; mp_ip := mp_ip env; info_more := info_more env;
     curl := fun _ _ => Http 302;
     is_dir := is_dir env; cd_pwd := cd_pwd env;
     pwd_absolute := pwd_absolute env; jq_raw := jq_raw env;
     mktemp := mktemp env; date := date env; download := download env |}.

(** The same machine where every path is a directory that cannot be
    entered. *)
Definition env_locked : Env :=
  {| script := script env; HOME := HOME env; SCRIPT_DIR := SCRIPT_DIR env;
     have_multipass := true; have_open := false; have_xdg_open := true;
     open_exit := open_exit env;
     mp_exit := mp_exit env; mp_ip := mp_ip env; info_more := info_more env;
     curl := curl env;
     is_dir := fun _ => true; cd_pwd := fun _ => None;
     pwd_absolute := fun c p (H : None = Some p) =>
       match H in _ = o
             return match o with Some _ => absolute p = true | None => True end
       with eq_refl => I end;
     jq_raw := jq_raw env;
     mktemp := mktemp env; date := date env; download := download env |}.

(** The same machine, but the clone inside the virtual machine fails with
    the status of [git]. *)
Definition env_clone_fails : Env :=
  {| script := script env; HOME := HOME env; SCRIPT_DIR := SCRIPT_DIR env;
     have_multipass := true; have_open := false; have_xdg_open := true;
     open_exit := open_exit env;
     mp_exit := fun _ c =>
       match c with
       | MpExec _ (a :: _) => if String.eqb a "bash" then 128 else 0
       | _ => 0
       end;
     mp_ip := mp_ip env; info_more := info_more env; curl := curl env;
     is_dir := is_dir env; cd_pwd := cd_pwd env;
     pwd_absolute := pwd_absolute env; jq_raw := jq_raw env;
     mktemp := mktemp env; date := date env; download := download env |}.

Definition fresh : World :=
  {| instances := []; vms := [];
     deps := {| cache_dir := false; manifest := false; entries := [] |} |}.

Definition record (name : string) (t : codebase_type) (path port : string) : config :=
  Config.mk name (get_vm_name name) t path port "4G" "20G" "2" "22.04"
            "2025-12-24T10:00:00Z" "" "".

Definition machine (s : vm_state) (ip : string) : vm := {| state := s; ipv4 := ip |}.

(** Instance [a] on port 9000 with its machine in the given state. *)
Definition with_a (s : vm_state) : World :=
  {| instances := [("a", Some (record "a" Git "https://example.org/r.git" "9000"))];
     vms := [(get_vm_name "a", machine s "10.0.0.7")];
     deps := cache_full |}.

(** Instance [a] running on port 9000 and instance [b], also on port 9000,
    with its machine in the given state. *)
Definition with_a_b (s : vm_state) : World :=
  {| instances := [("a", Some (record "a" Git "https://example.org/r.git" "9000"));
                   ("b", Some (record "b" Local "/src/proj" "9000"))];
     vms := [(get_vm_name "a", machine Running "10.0.0.7");
             (get_vm_name "b", machine s "10.0.0.8")];
     deps := cache_full |}.

(** An instance named [Running] on port 9000, its machine stopped. *)
Definition with_running_name : World :=
  {| instances := [("Running",
                    Some (record "Running" Git "https://example.org/r.git" "9000"))];
     vms := [(get_vm_name "Running", machine Stopped "10.0.0.7")];
     deps := cache_full |}.

(** Instance [a], started with [--port 0800], its machine running. *)
Definition with_octal_port : World :=
  {| instances := [("a", Some (record "a" Git "https://example.org/r.git" "0800"))];
     vms := [(get_vm_name "a", machine Running "10.0.0.7")];
     deps := cache_full |}.

(** The record of [a] is left, its machine is gone. *)
Definition orphan_a : World :=
  {| instances := [("a", Some (record "a" Git "https://example.org/r.git" "9000"))];
     vms := [];
     deps := cache_full |}.

End Scenario.

Definition invalid_codebase (codebase : string) : event :=
  Stderr ("ERROR: Codebase not found: " ++ codebase).

(** The machine is observed in a state: it exists and
    [multipass info "$vm_name" | grep -q "<State>"] succeeds. *)
Definition observed (E : Env) (s : vm_state) (w : World) (vm_name : string)
  : bool :=
  match lookup vm_name (vms w) with
  | Some m => seen E s vm_name m
  | None => false
  end.

Definition observed_running (E : Env) (w : World) (vm_name : string) : bool :=
  observed E Running w vm_name.

(** The word occurs in the output of [multipass info] outside the line of
    the state: in the name of the machine or in the other lines. *)
Definition stray (E : Env) (s : vm_state) (vm_name : string) : bool :=
  Str.contains (state_text s) vm_name
  || grep_q (state_text s) (info_more E vm_name).

(** What [jq] reads in the document of a record. *)
Definition read_name (E : Env) (c : config) : string :=
  jq E ".name" Config.name (Some c).
Definition read_port (E : Env) (c : config) : string :=
  jq E ".port" Config.port (Some c).
Definition read_codebase (E : Env) (c : config) : string :=
  jq E ".codebase_path" Config.codebase_path (Some c).

(** A stored record of another instance that has the port and whose machine
    is observed running, name and port being what [jq] reads. *)
Definition blocks (E : Env) (w : World) (port name : string) (c : config) : bool :=
  String.eqb (read_port E c) port && negb (String.eqb (read_name E c) name)
  && observed_running E w (get_vm_name (read_name E c)).

(** The record is the [config.json] of an entry the glob visits. *)
Definition stored (w : World) (c : config) : Prop :=
  exists dir, In (dir, Some c) (instances w) /\ globbed dir = true.

Definition conflict (E : Env) (w : World) (port name : string) (c : config)
  : Prop :=
  stored w c /\ read_port E c = port /\ read_name E c <> name
  /\ observed_running E w (get_vm_name (read_name E c)) = true.

(** The specification's reading of a conflict: the field [port] of the
    record is the port, its field [name] is another name, and the state of
    its machine is [Running]. *)
Definition owner_runs (w : World) (port name : string) (c : config) : Prop :=
  (exists dir, In (dir, Some c) (instances w))
  /\ Config.port c = port /\ Config.name c <> name
  /\ exists m, lookup (get_vm_name (Config.name c)) (vms w) = Some m
               /\ state m = Running.

Definition port_conflict (port owner : string) : event :=
  Stderr ("ERROR: " ++ port_conflict_message port owner).

Definition already_exists (name : string) : event :=
  Stdout ("Instance '" ++ name ++ "' already exists. Checking status...").

(** The log of [start] on an instance whose machine runs. *)
Definition running_log (name ip port : string) : list event :=
  [ already_exists name;
    Multipass (MpInfo (get_vm_name name));
    Stdout "Instance is already running.";
    Multipass (MpInfo (get_vm_name name));
    Stdout ("OpenGrok URL: " ++ source_url ip port) ].

(** The log of [start] on an instance whose machine exists and does not
    run, up to the backend's [start]. *)
Definition restart_log (name : string) : list event :=
  [ already_exists name;
    Multipass (MpInfo (get_vm_name name));
    Multipass (MpInfo (get_vm_name name));
    Stdout "Restarting existing instance...";
    Multipass (MpStart (get_vm_name name)) ].

Definition restarted_log (name ip port : string) : list event :=
  [ Multipass (MpInfo (get_vm_name name));
    Stdout ("Instance restarted. OpenGrok URL: " ++ source_url ip port) ].

(** The events that change something outside the process: everything but
    messages, calls of the script's own functions and [multipass info]. *)
Definition effectful (e : event) : bool :=
  match e with
  | Stdout _ | Stderr _ | Call _ _ | Multipass (MpInfo _) => false
  | _ => true
  end.

(** The events of the readiness probe. *)
Definition is_probe (e : event) : bool :=
  match e with
  | Curl _ | Sleep _ => true
  | Call f _ => String.eqb f "wait_for_opengrok"
  | _ => false
  end.

Definition is_port_check (e : event) : bool :=
  match e with
  | Call f _ => String.eqb f "check_port_available"
  | Stderr _ => true
  | _ => false
  end.

(** [k] failed attempts, each followed by two seconds of sleep. *)
Fixpoint failed_attempts (url : string) (k : nat) : list event :=
  match k with
  | 0 => []
  | S k' => Curl url :: Sleep 2 :: failed_attempts url k'
  end.

Definition probe_header (url : string) : list event :=
  [Call "wait_for_opengrok" [url]; Stdout "Waiting for OpenGrok to start..."].

(** The environment with other responses to the probe. *)
Definition with_curl (E : Env) (c : string -> nat -> curl_outcome) : Env :=
  {| script := script E; HOME := HOME E; SCRIPT_DIR := SCRIPT_DIR E;
     have_multipass := have_multipass E; have_open := have_open E;
     have_xdg_open := have_xdg_open E; open_exit := open_exit E;
     mp_exit := mp_exit E; mp_ip := mp_ip E; info_more := info_more E;
     curl := c; is_dir := is_dir E; cd_pwd := cd_pwd E;
     pwd_absolute := pwd_absolute E; jq_raw := jq_raw E; mktemp := mktemp E;
     date := date E; download := download E |}.

Definition readiness_warning (E : Env) (name : string) : event :=
  Stderr ("WARNING: OpenGrok may not be ready yet. Check logs with: "
          ++ script E ++ " logs " ++ name).

(** What the last command of [command_start] does. *)
Definition cleanup_log (cb : codebase_info) : list event :=
  match cb_type cb with
  | Demo => [RmRf (source_path cb)]
  | _ => []
  end.

Definition last_status (cb : codebase_info) : nat :=
  match cb_type cb with Demo => 0 | _ => 1 end.

(** Two runs with the same status and the same final world. *)
Definition same_outcome {A} (r1 r2 : res A * World * list event) : Prop :=
  result r1 = result r2 /\ world r1 = world r2.

Inductive step :=
| PortCheck | Resolve | CreateVM | TransferDeps | TransferCodebase | Install
| Save | Probe.

(** The step a command run inside the machine belongs to. *)
Definition exec_step (argv : list string) : option step :=
  match argv with
  | a :: _ :: c :: _ =>
      if String.eqb a "mkdir" then
        if String.eqb c "/tmp/opengrok-deps" then Some TransferDeps
        else if String.eqb c "/tmp/source-code" then Some TransferCodebase
        else None
      else if String.eqb a "sh" || String.eqb a "bash" then Some TransferCodebase
      else if String.eqb a "sudo"
              && String.eqb c "/home/ubuntu/scripts/install-opengrok.sh"
      then Some Install
      else None
  | _ => None
  end.

(** The step an event belongs to, if any: the port check and the save are
    the calls of their functions, the probe is the call of its function with
    its requests and pauses, [Resolve] is the generation of the demo tree on
    the host, and the steps on the machine are the backend invocations. *)
Definition step_of (e : event) : option step :=
  match e with
  | Call f _ =>
      if String.eqb f "check_port_available" then Some PortCheck
      else if String.eqb f "create_demo_codebase" then Some Resolve
      else if String.eqb f "save_instance_state" then Some Save
      else if String.eqb f "wait_for_opengrok" then Some Probe
      else None
  | Curl _ | Sleep _ => Some Probe
  | Multipass (MpLaunch _ _ _ _ _) => Some CreateVM
  | Multipass (MpTransfer _ _ remote) =>
      if String.eqb remote "/tmp/opengrok-deps/" then Some TransferDeps else None
  | Multipass (MpTransferR _ _ _) | Multipass (MpMount _ _ _) =>
      Some TransferCodebase
  | Multipass (MpExec _ argv) => exec_step argv
  | _ => None
  end.

Definition steps (l : list event) : list step :=
  flat_map (fun e => match step_of e with Some s => [s] | None => [] end) l.

(** The position of each step in the order the specification gives (the
    codebase resolver sits with the codebase transfer, the save comes
    last), and in the order of the script. *)
Definition spec_order (s : step) : nat :=
  match s with
  | PortCheck => 0 | CreateVM => 1 | TransferDeps => 2
  | Resolve => 3 | TransferCodebase => 3 | Install => 4
  | Probe => 5 | Save => 6
  end.

Definition code_order (s : step) : nat :=
  match s with
  | PortCheck => 0 | Resolve => 1 | CreateVM => 2 | TransferDeps => 3
  | TransferCodebase => 4 | Install => 5 | Save => 6 | Probe => 7
  end.

Fixpoint ascending (l : list nat) : Prop :=
  match l with
  | [] => True
  | x :: l' => Forall (le x) l' /\ ascending l'
  end.

(** The steps of a log are performed in the given order. *)
Definition in_order (rank : step -> nat) (l : list event) : Prop :=
  ascending (map rank (steps l)).

Definition pipeline_steps : list step :=
  [PortCheck; CreateVM; TransferDeps; TransferCodebase; Install; Probe; Save].

(** The steps of a run of [provision] that reaches its end: the port check;
    the demo tree, if the codebase is the demo; the launch; the transfer of
    the cache; the transfer or clone of the codebase; the install; the save;
    the probe. *)
Definition provision_shape (d : list step) (n m p : nat) : list step :=
  (PortCheck :: d ++ CreateVM :: TransferDeps :: repeat TransferDeps n
   ++ repeat TransferCodebase (S m) ++ Install :: Save :: Probe :: repeat Probe p)%list.

(** Blocks of equal ranks with ascending keys are ascending. *)
Definition expand (blocks : list (nat * nat)) : list nat :=
  flat_map (fun b => repeat (fst b) (snd b)) blocks.

(** Why the shell exited with status [c], leaving the world [w'] and the
    log [l]: the script's own error handling gave 1, or else [c] is the
    status that the last action of the run returned, this action being a
    backend command (run on the machines as they are left), the downloader
    (which left the cache as it is) or the opener. *)
Definition exit_cause (E : Env) (c : nat) (w' : World) (l : list event) : Prop :=
  c = 1
  \/ (exists pre cmd,
        l = (pre ++ [Multipass cmd])%list /\ c = mp_exit E (vms w') cmd)
  \/ (exists pre ca,
        l = (pre ++ [Download (CACHE_DIR E)])%list
        /\ c = fst (download E ca) /\ deps w' = snd (download E ca))
  \/ (exists pre program url,
        l = (pre ++ [OpenUrl program url])%list /\ c = open_exit E program url).

(** Whenever the computation ends the shell, the status is not 0 and has
    such a cause. *)
Definition fails_properly (E : Env) {A} (m : Sh A) : Prop :=
  forall w c w' l, m w = (Exit c, w', l) -> c <> 0 /\ exit_cause E c w' l.

(** Whenever the function returns, it returns 0 or 1. *)
Definition returns_0_or_1 (m : Sh nat) : Prop :=
  forall w st w' l, m w = (Ret st, w', l) -> st = 0 \/ st = 1.

(** The word [status] prints for a name whose directory exists. *)
Definition status_word (E : Env) (w : World) (vm_name : string) : string :=
  if observed E Running w vm_name then "running"
  else if observed E Stopped w vm_name then "stopped"
  else "unknown".

(** The word for the state of a machine. *)
Definition state_word (s : vm_state) : string :=
  match s with
  | Running => "running"
  | Stopped => "stopped"
  | Suspended => "unknown"
  end.

(** The computation leaves the instance records alone, however it ends. *)
Definition keeps_store {A} (m : Sh A) : Prop :=
  forall w, instances (world (m w)) = instances w.

(** The computation leaves the instance records alone when it ends the
    shell. *)
Definition exit_keeps_store {A} (m : Sh A) : Prop :=
  forall w c w' l, m w = (Exit c, w', l) -> instances w' = instances w.

(** Every event of the computation satisfies [P]. *)
Definition always {A} (P : event -> bool) (m : Sh A) : Prop :=
  forall w, forallb P (log (m w)) = true.

(** Every event of the computation satisfies [P] when it ends the shell. *)
Definition exit_always {A} (P : event -> bool) (m : Sh A) : Prop :=
  forall w c w' l, m w = (Exit c, w', l) -> forallb P l = true.

(** Every event of the computation satisfies [P] when it returns a status
    other than 0. *)
Definition fail_always (P : event -> bool) (m : Sh nat) : Prop :=
  forall w st w' l, m w = (Ret st, w', l) -> st <> 0 -> forallb P l = true.

Definition is_rm_rf (e : event) : bool :=
  match e with RmRf _ => true | _ => false end.

Definition is_download (e : event) : bool :=
  match e with Download _ => true | _ => false end.

Definition is_stderr (e : event) : bool :=
  match e with Stderr _ => true | _ => false end.

(** The record [save_instance_state] writes for the options [o]. *)
Definition record_of (E : Env) (name : string) (t : codebase_type)
  (path : string) (o : Opt.t) : config :=
  Config.mk name (get_vm_name name) t path (Opt.port o) (Opt.memory o)
            (Opt.disk o) (Opt.cpus o) (Opt.ubuntu o) (date E)
            (Opt.git_depth o) (Opt.git_branch o).

(** The options [start] knows. *)
Definition known_options : list string :=
  ["--memory"; "--disk"; "--cpus"; "--port"; "--ubuntu"; "--no-cache";
   "--depth"; "--branch"].

(** The events that take something away: removing files, deleting or
    stopping a machine. *)
Definition destructive (e : event) : bool :=
  match e with
  | RmRf _ | Multipass (MpDeletePurge _) | Multipass (MpStop _) => true
  | _ => false
  end.

Definition not_destructive (e : event) : bool := negb (destructive e).

(** Everything but deleting or stopping a machine. *)
Definition keeps_machines (e : event) : bool :=
  match e with
  | Multipass (MpDeletePurge _) | Multipass (MpStop _) => false
  | _ => true
  end.

(** The computation changes no record but that of [name]. *)
Definition only_writes {A} (name : string) (m : Sh A) : Prop :=
  forall w other,
    other <> name ->
    lookup other (instances (world (m w))) = lookup other (instances w).

(** The words [main] dispatches on. *)
Definition commands : list string :=
  ["start"; "stop"; "destroy"; "status"; "info"; "open"; "list"; "reindex";
   "shell"; "logs"; "help"; "--help"; "-h"].

(** The commands that work on an instance that must exist. *)
Definition needs_instance : list (string * (Env -> list string -> Sh nat)) :=
  [("stop", command_stop); ("destroy", command_destroy); ("info", command_info);
   ("open", command_open); ("reindex", command_reindex);
   ("shell", command_shell); ("logs", command_logs)].

(** The commands that take a name. *)
Definition takes_name : list (string * (Env -> list string -> Sh nat)) :=
  (("start", command_start) :: ("status", command_status) :: needs_instance)%list.

(** The same environment without the [multipass] command. *)
Definition without_multipass (E : Env) : Env :=
  {| script := script E; HOME := HOME E; SCRIPT_DIR := SCRIPT_DIR E;
     have_multipass := false; have_open := have_open E;
     have_xdg_open := have_xdg_open E; open_exit := open_exit E;
     mp_exit := mp_exit E; mp_ip := mp_ip E; info_more := info_more E;
     curl := curl E; is_dir := is_dir E; cd_pwd := cd_pwd E;
     pwd_absolute := pwd_absolute E; jq_raw := jq_raw E; mktemp := mktemp E;
     date := date E; download := download E |}.

Definition is_exec (e : event) : bool :=
  match e with Multipass (MpExec _ _) => true | _ => false end.

Definition is_open_url (e : event) : bool :=
  match e with OpenUrl _ _ => true | _ => false end.

(** The address [list] prints for a machine: its address when it is observed
    running, [N/A] otherwise. *)
Definition listed_ip (E : Env) (w : World) (vm_name : string) : string :=
  match lookup vm_name (vms w) with
  | Some m => if seen E Running vm_name m then ipv4 m else "N/A"
  | None => "N/A"
  end.

(** The row of [list] for a record, from what [jq] reads in it. *)
Definition row_of (E : Env) (w : World) (c : config) : string :=
  let vm_name := get_vm_name (read_name E c) in
  list_row (read_name E c) (status_word E w vm_name) (read_port E c)
           (listed_ip E w vm_name) (read_codebase E c).

(** The records of the entries the glob visits, in its order. *)
Fixpoint listed (l : list (string * option config)) : list config :=
  match l with
  | [] => []
  | (dir, Some c) :: l' => if globbed dir then c :: listed l' else listed l'
  | (_, None) :: l' => listed l'
  end.

(** The address [info] and [open] read for a machine. *)
Definition reported_ip (w : World) (vm_name : string) : string :=
  match lookup vm_name (vms w) with Some m => ipv4 m | None => "" end.

(** What [load_instance_state] prints: the record of the name, when its
    directory has a [config.json]. *)
Definition saved_config (w : World) (name : string) : option config :=
  match lookup name (instances w) with
  | Some (Some c) => Some c
  | _ => None
  end.

(** The address [open] builds: that of the machine, with the port [jq]
    reads in the record. *)
Definition open_url (E : Env) (w : World) (name : string) : string :=
  source_url (reported_ip w (get_vm_name name))
             (jq E ".port" Config.port (saved_config w name)).

(** The program [open] hands the address to. *)
Definition handed (E : Env) : option string :=
  if have_open E then Some "open"
  else if have_xdg_open E then Some "xdg-open"
  else None.

(** Started with the dependency cache [d], the computation leaves it as it
    is and runs no download, however it ends. *)
Definition cache_untouched (d : cache) {A} (m : Sh A) : Prop :=
  forall w,
    deps w = d ->
    deps (world (m w)) = d /\ existsb is_download (log (m w)) = false.

(** The cache as the downloader finds it: [mkdir -p] has run. *)
Definition cache_made (c : cache) : cache :=
  {| cache_dir := true; manifest := manifest c; entries := entries c |}.

(** The commands that read their first argument only. *)
Definition name_only : list (string * (Env -> list string -> Sh nat)) :=
  [("stop", command_stop); ("destroy", command_destroy);
   ("status", command_status); ("info", command_info); ("open", command_open);
   ("reindex", command_reindex); ("shell", command_shell)].

(** [--follow] or [-f]. *)
Definition is_follow (a : string) : bool :=
  String.eqb a "--follow" || String.eqb a "-f".

(** The transfer of one cached file into the machine. *)
Definition dep_transfer (vm_name file : string) : mp_cmd :=
  MpTransfer file vm_name "/tmp/opengrok-deps/".

(** The regular files among the entries of the cache, in glob order. *)
Definition regular_files (files : list (string * bool)) : list string :=
  map fst (filter snd files).

(** * Properties *)

(** ** Laws of the shell monad *)

Lemma bind_ret_inv {A B} (m : Sh A) (f : A -> Sh B) w b w' l :
  bind m f w = (Ret b, w', l) ->
  exists a w1 l1 l2,
    m w = (Ret a, w1, l1) /\ f a w1 = (Ret b, w', l2) /\ l = (l1 ++ l2)%list.
Proof.
  unfold bind. destruct (m w) as [[[a|c] w1] l1]; [|discriminate].
  destruct (f a w1) as [[r w2] l2] eqn:Hf. intros H. inversion H; subst.
  exists a, w1, l1, l2. auto.
Qed.

Lemma bind_eq {A B} (m : Sh A) (f : A -> Sh B) w a w1 l1 :
  m w = (Ret a, w1, l1) ->
  bind m f w = (result (f a w1), world (f a w1), (l1 ++ log (f a w1))%list).
Proof.
  intros H. unfold bind. rewrite H. destruct (f a w1) as [[r w2] l2]. reflexivity.
Qed.

Lemma bind_exit {A B} (m : Sh A) (f : A -> Sh B) w c w1 l1 :
  m w = (Exit c, w1, l1) -> bind m f w = (Exit c, w1, l1).
Proof. intros H. unfold bind. rewrite H. reflexivity. Qed.

Lemma errexit_ret_inv (m : Sh nat) w u w' l :
  errexit m w = (Ret u, w', l) -> m w = (Ret 0, w', l).
Proof.
  unfold errexit. intros H. apply bind_ret_inv in H.
  destruct H as (st & w1 & l1 & l2 & Hm & Hk & ->).
  destruct st as [|st]; cbn in Hk; inversion Hk; subst.
  rewrite app_nil_r. exact Hm.
Qed.

Lemma run_eta {A} (r : res A * World * list event) :
  r = (result r, world r, log r).
Proof. destruct r as [[? ?] ?]. reflexivity. Qed.

(** ** Demo generation *)

Lemma strip_prefix_app (p s : string) : Str.strip_prefix p (p ++ s) = Some s.
Proof.
  induction p as [|a p IH]; cbn; [reflexivity|].
  rewrite Ascii.eqb_refl. exact IH.
Qed.

Lemma create_demo_codebase_run (E : Env) (w : World) :
  create_demo_codebase E w =
    (Ret 0, w,
     (Call "create_demo_codebase" [] :: Mktemp (mktemp E)
      :: map (fun n => match n with
                       | Dir p => Mkdir (mktemp E ++ p)
                       | File p c => WriteFile (mktemp E ++ p) c
                       end) demo_tree
      ++ [Stdout (mktemp E)])%list).
Proof. reflexivity. Qed.

Lemma tree_below_demo (root : string) :
  tree_below root
    (map (fun n => match n with
                   | Dir p => Mkdir (root ++ p)
                   | File p c => WriteFile (root ++ p) c
                   end) demo_tree)
  = map Some demo_tree.
Proof.
  unfold demo_tree. cbn [map tree_below].
  rewrite !strip_prefix_app. reflexivity.
Qed.

Lemma tree_below_app (root : string) (l1 l2 : list event) :
  tree_below root (l1 ++ l2) = (tree_below root l1 ++ tree_below root l2)%list.
Proof.
  induction l1 as [|e l1 IH]; [reflexivity|].
  destruct e; cbn [tree_below app]; rewrite IH; reflexivity.
Qed.

(** C9. Demo generation is deterministic: whatever the environment, the
    state of the machine and the temporary directory [mktemp] hands out, the
    directories and files [create_demo_codebase] creates are, relative to
    that directory, the same paths with the same contents (the fixed tree
    [demo_tree]); the function prints the directory, returns 0 and changes
    nothing else. *)
Theorem demo_generation_deterministic (E1 E2 : Env) (w1 w2 : World) :
  tree_below (mktemp E1) (log (create_demo_codebase E1 w1))
  = tree_below (mktemp E2) (log (create_demo_codebase E2 w2))
  /\ tree_below (mktemp E1) (log (create_demo_codebase E1 w1)) = map Some demo_tree
  /\ stdout_of (log (create_demo_codebase E1 w1)) = [mktemp E1]
  /\ result (create_demo_codebase E1 w1) = Ret 0
  /\ world (create_demo_codebase E1 w1) = w1.
Proof.
  rewrite !create_demo_codebase_run. unfold log, result, world.
  cbn [fst snd tree_below].
  rewrite !tree_below_app, !tree_below_demo. cbn [tree_below].
  rewrite !app_nil_r. auto.
Qed.

(** ** Base names *)

Example basename_repo :
  Str.basename_suffix "https://github.com/user/repo.git" ".git" = "repo".
Proof. reflexivity. Qed.

Example basename_dir : Str.basename "/home/u/project/" = "project".
Proof. reflexivity. Qed.

Lemma list_ascii_of_string_app (a b : string) :
  list_ascii_of_string (a ++ b)
  = (list_ascii_of_string a ++ list_ascii_of_string b)%list.
Proof. induction a as [|c a IH]; cbn; [reflexivity|]. rewrite IH. reflexivity. Qed.

Lemma string_of_list_ascii_app (l1 l2 : list ascii) :
  string_of_list_ascii (l1 ++ l2)
  = string_of_list_ascii l1 ++ string_of_list_ascii l2.
Proof. induction l1 as [|c l1 IH]; cbn; [reflexivity|]. rewrite IH. reflexivity. Qed.

Lemma prefix_app (p r : string) : prefix p (p ++ r) = true.
Proof.
  induction p as [|c p IH]; cbn; [destruct r; reflexivity|].
  destruct (ascii_dec c c) as [_|Hn]; [exact IH|congruence].
Qed.

Lemma ends_with_app (b suffix : string) : Str.ends_with suffix (b ++ suffix) = true.
Proof.
  unfold Str.ends_with.
  rewrite list_ascii_of_string_app, rev_app_distr, string_of_list_ascii_app.
  apply prefix_app.
Qed.

Lemma length_app (a b : string) :
  String.length (a ++ b) = String.length a + String.length b.
Proof. induction a as [|c a IH]; cbn; [reflexivity|]. rewrite IH. reflexivity. Qed.

Lemma substring_app (a b : string) : substring 0 (String.length a) (a ++ b) = a.
Proof.
  induction a as [|c a IH]; cbn; [destruct b; reflexivity|].
  rewrite IH. reflexivity.
Qed.

(** [basename s suffix] removes the suffix from a base name that ends with
    it and is longer; it keeps a base name that does not end with it. *)
Lemma basename_suffix_strips (s b suffix : string) :
  b <> "" ->
  Str.basename s = b ++ suffix ->
  Str.basename_suffix s suffix = b.
Proof.
  intros Hb Hs. unfold Str.basename_suffix. rewrite Hs, ends_with_app.
  assert (Hne : String.eqb (b ++ suffix) suffix = false).
  { apply String.eqb_neq. intros Heq.
    apply (f_equal String.length) in Heq. rewrite length_app in Heq.
    destruct b; [congruence|cbn in Heq; lia]. }
  rewrite Hne. cbn [negb andb].
  rewrite length_app, Nat.add_sub. apply substring_app.
Qed.

Lemma basename_suffix_keeps (s suffix : string) :
  Str.ends_with suffix (Str.basename s) = false ->
  Str.basename_suffix s suffix = Str.basename s.
Proof. intros H. unfold Str.basename_suffix. rewrite H. reflexivity. Qed.

(** ** Codebase classification *)

(** C8 as stated fails: [/srv/locked] is an existing directory, but [cd]
    cannot enter it; the run ends with status 1 at the assignment of
    [source_path], so the directory is not classified [local], and the
    message of an invalid codebase is not printed either. *)
Lemma existing_directory_not_local :
  is_dir Scenario.env_locked "/srv/locked" = true
  /\ classify_codebase Scenario.env_locked "/srv/locked" Scenario.fresh
     = (Exit 1, Scenario.fresh, [])
  /\ ~ In (invalid_codebase "/srv/locked")
          (log (classify_codebase Scenario.env_locked "/srv/locked"
                  Scenario.fresh)).
Proof.
  split; [reflexivity|]. split; [reflexivity|]. intros H. exact H.
Qed.

(** C8, amended. Classification of a non-empty codebase argument is total
    over four outcomes, tried in this order.  An existing directory that
    [cd] can enter is [local], with the absolute path [pwd] prints and the
    base name of that path; an existing directory that [cd] cannot enter
    ends the run with status 1 and no message of the script.  Otherwise an
    argument that starts with [http://], [https://], [git@] or [ssh://] is
    [git], with the URL itself and its base name without a trailing [.git]
    (as [basename URL .git] gives it: a longer base name that ends in
    [.git] loses it, a base name that does not end in [.git] is kept);
    anything else ends the run with status 1 and the message of an invalid
    codebase.  Classification changes nothing. *)
Theorem classify_codebase_total (E : Env) (w : World) (codebase : string)
  (Hne : Str.nonempty codebase = true) :
  (is_dir E codebase = true ->
     (forall p, cd_pwd E codebase = Some p ->
        absolute p = true
        /\ classify_codebase E codebase w =
             (Ret {| cb_type := Local; source_path := p;
                     project_name := Str.basename p |}, w, []))
     /\ (cd_pwd E codebase = None ->
         classify_codebase E codebase w = (Exit 1, w, [])))
  /\ (is_dir E codebase = false ->
      (prefix "http://" codebase || prefix "https://" codebase
       || prefix "git@" codebase || prefix "ssh://" codebase) = true ->
      classify_codebase E codebase w =
        (Ret {| cb_type := Git; source_path := codebase;
                project_name := Str.basename_suffix codebase ".git" |}, w, [])
      /\ (forall b, b <> "" -> Str.basename codebase = b ++ ".git" ->
           Str.basename_suffix codebase ".git" = b)
      /\ (Str.ends_with ".git" (Str.basename codebase) = false ->
          Str.basename_suffix codebase ".git" = Str.basename codebase))
  /\ (is_dir E codebase = false ->
      (prefix "http://" codebase || prefix "https://" codebase
       || prefix "git@" codebase || prefix "ssh://" codebase) = false ->
      classify_codebase E codebase w = (Exit 1, w, [invalid_codebase codebase])).
Proof.
  unfold classify_codebase, is_remote_url. rewrite Hne. cbn [negb].
  split; [|split].
  - intros Hd. rewrite Hd. split.
    + intros p Hp. split; [exact (pwd_absolute E codebase p Hp)|].
      rewrite Hp. reflexivity.
    + intros Hp. rewrite Hp. reflexivity.
  - intros Hd Hu. rewrite Hd, Hu. split; [reflexivity|]. split.
    + intros b Hb Hs. exact (basename_suffix_strips codebase b ".git" Hb Hs).
    + apply basename_suffix_keeps.
  - intros Hd Hu. rewrite Hd, Hu. reflexivity.
Qed.

Lemma classify_codebase_total_witness :
  classify_codebase Scenario.env "https://github.com/user/repo.git" Scenario.fresh =
    (Ret {| cb_type := Git; source_path := "https://github.com/user/repo.git";
            project_name := "repo" |}, Scenario.fresh, []).
Proof.
  apply (classify_codebase_total Scenario.env Scenario.fresh
           "https://github.com/user/repo.git" eq_refl);
    reflexivity.
Defined.

Example classify_local_directory :
  classify_codebase Scenario.env "proj" Scenario.fresh =
    (Ret {| cb_type := Local; source_path := "/src/proj";
            project_name := "proj" |}, Scenario.fresh, []).
Proof. reflexivity. Qed.

Example classify_invalid :
  classify_codebase Scenario.env "no/such/dir" Scenario.fresh =
    (Exit 1, Scenario.fresh, [invalid_codebase "no/such/dir"]).
Proof. reflexivity. Qed.

(** ** The port check *)

Lemma jq_safe (E : Env) (filter : string) (field : config -> string)
  (c : config) :
  json_safe c = true -> jq E filter field (Some c) = field c.
Proof. intros H. unfold jq. rewrite H. reflexivity. Qed.

Lemma blocks_true (E : Env) (w : World) (port name : string) (c : config) :
  blocks E w port name c = true <->
  read_port E c = port /\ read_name E c <> name
  /\ observed_running E w (get_vm_name (read_name E c)) = true.
Proof.
  unfold blocks. rewrite !andb_true_iff, negb_true_iff.
  rewrite String.eqb_eq, String.eqb_neq. tauto.
Qed.

Lemma info_grep_run (E : Env) (vm_name : string) (s : vm_state) (w : World) :
  info_grep E vm_name s w =
    (Ret (observed E s w vm_name), w, [Multipass (MpInfo vm_name)]).
Proof. reflexivity. Qed.

Lemma port_scan_step (E : Env) (port name dir : string) (c : config) l
  (w : World) :
  port_scan E port name ((dir, Some c) :: l) w =
    if globbed dir
       && (String.eqb (read_port E c) port
           && negb (String.eqb (read_name E c) name))
    then
      if observed_running E w (get_vm_name (read_name E c))
      then (Exit 1, w,
            [Multipass (MpInfo (get_vm_name (read_name E c)));
             port_conflict port (read_name E c)])
      else (result (port_scan E port name l w), world (port_scan E port name l w),
            Multipass (MpInfo (get_vm_name (read_name E c)))
            :: log (port_scan E port name l w))
    else port_scan E port name l w.
Proof.
  cbn [port_scan]. fold (read_port E c). fold (read_name E c).
  destruct (globbed dir); [|reflexivity]. cbn [andb].
  destruct (String.eqb (read_port E c) port
            && negb (String.eqb (read_name E c) name)); [|reflexivity].
  unfold bind at 1. rewrite info_grep_run.
  fold (observed_running E w (get_vm_name (read_name E c))).
  destruct (observed_running E w (get_vm_name (read_name E c))).
  - reflexivity.
  - destruct (port_scan E port name l w) as [[r w'] l']. reflexivity.
Qed.

(** The entry is visited by the glob and its record blocks. *)
Lemma blocks_split (E : Env) (w : World) (port name dir : string) (c : config) :
  globbed dir && blocks E w port name c =
    (globbed dir
     && (String.eqb (read_port E c) port
         && negb (String.eqb (read_name E c) name)))
    && observed_running E w (get_vm_name (read_name E c)).
Proof. unfold blocks. rewrite !andb_assoc. reflexivity. Qed.

(** The scan leaves the world alone. *)
Lemma port_scan_world (E : Env) (port name : string) (w : World) l :
  world (port_scan E port name l w) = w.
Proof.
  induction l as [|[dir [c|]] l IH]; [reflexivity| |exact IH].
  rewrite port_scan_step.
  destruct (globbed dir
            && (String.eqb (read_port E c) port
                && negb (String.eqb (read_name E c) name)));
    [|exact IH].
  destruct (observed_running E w (get_vm_name (read_name E c)));
    [reflexivity|exact IH].
Qed.

(** Without a blocking record the scan returns. *)
Lemma port_scan_free (E : Env) (port name : string) (w : World) l :
  (forall dir c, In (dir, Some c) l ->
                 globbed dir && blocks E w port name c = false) ->
  result (port_scan E port name l w) = Ret tt.
Proof.
  induction l as [|[dir [c|]] l IH]; intros H.
  - reflexivity.
  - rewrite port_scan_step.
    pose proof (H dir c (or_introl eq_refl)) as Hb. rewrite blocks_split in Hb.
    assert (IH' : result (port_scan E port name l w) = Ret tt).
    { apply IH. intros d c' Hin. apply (H d c'). right; exact Hin. }
    destruct (globbed dir
              && (String.eqb (read_port E c) port
                  && negb (String.eqb (read_name E c) name)));
      [|exact IH'].
    cbn [andb] in Hb. rewrite Hb. exact IH'.
  - cbn [port_scan]. apply IH. intros d c' Hin. apply (H d c'). right; exact Hin.
Qed.

(** With a blocking record the scan ends the shell, and its last message
    names a blocking record. *)
Lemma port_scan_blocked (E : Env) (port name : string) (w : World) l :
  (exists dir c, In (dir, Some c) l
                 /\ globbed dir && blocks E w port name c = true) ->
  result (port_scan E port name l w) = Exit 1
  /\ exists dir c pre,
       In (dir, Some c) l /\ globbed dir && blocks E w port name c = true
       /\ log (port_scan E port name l w)
          = (pre ++ [port_conflict port (read_name E c)])%list.
Proof.
  induction l as [|[dir [c|]] l IH]; intros (d & c' & Hin & Hb).
  - destruct Hin.
  - rewrite port_scan_step.
    destruct (globbed dir && blocks E w port name c) eqn:Hbc;
      pose proof Hbc as Hbc'; rewrite blocks_split in Hbc.
    + apply andb_true_iff in Hbc. destruct Hbc as [H1 H2]. rewrite H1, H2.
      split; [reflexivity|].
      exists dir, c, [Multipass (MpInfo (get_vm_name (read_name E c)))].
      split; [left; reflexivity|]. split; [exact Hbc'|reflexivity].
    + assert (Hl : exists dir c, In (dir, Some c) l
                                 /\ globbed dir && blocks E w port name c = true).
      { destruct Hin as [Heq|Hin].
        - inversion Heq; subst. congruence.
        - eauto. }
      destruct (IH Hl) as (Hr & d' & c'' & pre & Hin' & Hb' & Hlog).
      destruct (globbed dir
                && (String.eqb (read_port E c) port
                    && negb (String.eqb (read_name E c) name))).
      * cbn [andb] in Hbc. rewrite Hbc. split; [exact Hr|].
        exists d', c'', (Multipass (MpInfo (get_vm_name (read_name E c))) :: pre).
        split; [right; exact Hin'|]. split; [exact Hb'|].
        unfold log in *. cbn [snd]. rewrite Hlog. reflexivity.
      * split; [exact Hr|]. exists d', c'', pre.
        split; [right; exact Hin'|]. split; [exact Hb'|exact Hlog].
  - cbn [port_scan].
    assert (Hl : exists dir c, In (dir, Some c) l
                               /\ globbed dir && blocks E w port name c = true).
    { destruct Hin as [Heq|Hin]; [discriminate|eauto]. }
    destruct (IH Hl) as (Hr & d' & c'' & pre & Hin' & Hb' & Hlog).
    split; [exact Hr|]. exists d', c'', pre.
    split; [right; exact Hin'|]. split; [exact Hb'|exact Hlog].
Qed.

Lemma check_port_available_eq (E : Env) (port name : string) (w : World) :
  check_port_available E port name w =
    (result (port_scan E port name (instances w) w),
     world (port_scan E port name (instances w) w),
     Call "check_port_available" [port; name]
     :: log (port_scan E port name (instances w) w)).
Proof.
  unfold check_port_available, bind, emit, get_world.
  destruct (port_scan E port name (instances w) w) as [[r w'] l]. reflexivity.
Qed.

Lemma blocker_dec (E : Env) (w : World) (port name : string)
  (l : list (string * option config)) :
  (forall dir c, In (dir, Some c) l ->
                 globbed dir && blocks E w port name c = false)
  \/ (exists dir c, In (dir, Some c) l
                    /\ globbed dir && blocks E w port name c = true).
Proof.
  induction l as [|[dir [c|]] l [IH|(d & c' & Hin & Hb)]].
  - left. intros ? ? [].
  - destruct (globbed dir && blocks E w port name c) eqn:Hb.
    + right. exists dir, c. split; [left; reflexivity|exact Hb].
    + left. intros d c' [Heq|Hin]; [inversion Heq; subst; exact Hb|eauto].
  - right. exists d, c'. split; [right; exact Hin|exact Hb].
  - left. intros d c' [Heq|Hin]; [discriminate|eauto].
  - right. exists d, c'. split; [right; exact Hin|exact Hb].
Qed.

Lemma conflict_blocks (E : Env) (w : World) (port name : string) (c : config) :
  conflict E w port name c <->
  exists dir, In (dir, Some c) (instances w)
              /\ globbed dir && blocks E w port name c = true.
Proof.
  unfold conflict, stored. split.
  - intros ((d & Hin & Hg) & H). exists d. split; [exact Hin|].
    rewrite Hg. apply blocks_true. exact H.
  - intros (d & Hin & H). apply andb_true_iff in H. destruct H as [Hg H].
    apply blocks_true in H. split; [exists d; auto|exact H].
Qed.

(** What the check does, in the script's own terms. *)
Lemma check_port_available_spec (E : Env) (port name : string) (w : World) :
  (result (check_port_available E port name w) = Exit 1
     <-> exists c, conflict E w port name c)
  /\ (result (check_port_available E port name w) = Exit 1 ->
      exists c pre,
        conflict E w port name c
        /\ log (check_port_available E port name w)
           = (pre ++ [port_conflict port (read_name E c)])%list)
  /\ ((forall c, ~ conflict E w port name c) ->
      result (check_port_available E port name w) = Ret tt)
  /\ world (check_port_available E port name w) = w.
Proof.
  assert (Hres : result (check_port_available E port name w)
                 = result (port_scan E port name (instances w) w))
    by (rewrite check_port_available_eq; reflexivity).
  assert (Hlg : log (check_port_available E port name w)
                = Call "check_port_available" [port; name]
                  :: log (port_scan E port name (instances w) w))
    by (rewrite check_port_available_eq; reflexivity).
  assert (Hwd : world (check_port_available E port name w)
                = world (port_scan E port name (instances w) w))
    by (rewrite check_port_available_eq; reflexivity).
  rewrite Hres, Hlg, Hwd. clear Hres Hlg Hwd.
  pose proof (conflict_blocks E w port name) as Hc.
  split; [split|split; [|split]].
  - intros Hex.
    destruct (blocker_dec E w port name (instances w)) as [Hn|(d & c & Hin & Hb)].
    + rewrite (port_scan_free _ _ _ _ _ Hn) in Hex. discriminate.
    + exists c. apply Hc. eauto.
  - intros (c & Hcf). apply Hc in Hcf. destruct Hcf as (d & Hin & Hb).
    apply port_scan_blocked. eauto.
  - intros Hex. destruct (blocker_dec E w port name (instances w)) as [Hn|Hy].
    + rewrite (port_scan_free _ _ _ _ _ Hn) in Hex. discriminate.
    + destruct (port_scan_blocked _ _ _ _ _ Hy)
        as (_ & d & c & pre & Hin & Hb & Hlog).
      exists c, (Call "check_port_available" [port; name] :: pre).
      split; [apply Hc; eauto|]. rewrite Hlog. reflexivity.
  - intros Hnone. apply port_scan_free. intros d c Hin.
    destruct (globbed d && blocks E w port name c) eqn:Hb; [|reflexivity].
    exfalso. apply (Hnone c). apply Hc. eauto.
  - apply port_scan_world.
Qed.

Lemma vm_state_eqb_eq (a b : vm_state) : vm_state_eqb a b = true <-> a = b.
Proof. destruct a, b; cbn; split; congruence. Qed.

(** C4. The check at two inputs.  With the record of an instance named
    [Running] on port 9000 whose machine is stopped, [start b --port 9000]
    is refused on every host with the port conflict that names [Running],
    although no record has a running machine: the word is found in the name
    line of the backend's report.  With the record of [a] saved with
    [--port 0800] and its machine running, port 0800 is given to [b] as
    soon as [jq] does not print [0800] for the port of the document, which
    holds a bare [0800]: [jq] rejects the document or prints the number it
    read. *)
Theorem port_check_misjudges_owner :
  (lookup (get_vm_name "Running") (vms Scenario.with_running_name)
   = Some (Scenario.machine Stopped "10.0.0.7")
   /\ (forall c, ~ owner_runs Scenario.with_running_name "9000" "b" c)
   /\ (forall E,
        check_port_available E "9000" "b" Scenario.with_running_name
        = (Exit 1, Scenario.with_running_name,
           [Call "check_port_available" ["9000"; "b"];
            Multipass (MpInfo "opengrok-test-Running");
            port_conflict "9000" "Running"])))
  /\ (owner_runs Scenario.with_octal_port "0800" "b"
        (Scenario.record "a" Git "https://example.org/r.git" "0800")
      /\ (forall E,
           jq_raw E ".port"
                  (render_config
                     (Scenario.record "a" Git "https://example.org/r.git" "0800"))
           <> "0800" ->
           check_port_available E "0800" "b" Scenario.with_octal_port
           = (Ret tt, Scenario.with_octal_port,
              [Call "check_port_available" ["0800"; "b"]]))
      /\ check_port_available Scenario.env "0800" "b" Scenario.with_octal_port
         = (Ret tt, Scenario.with_octal_port,
            [Call "check_port_available" ["0800"; "b"]])).
Proof.
  assert (Hoctal : forall E,
             jq_raw E ".port"
                    (render_config
                       (Scenario.record "a" Git "https://example.org/r.git" "0800"))
             <> "0800" ->
             check_port_available E "0800" "b" Scenario.with_octal_port
             = (Ret tt, Scenario.with_octal_port,
                [Call "check_port_available" ["0800"; "b"]])).
  { intros E Hjq. apply String.eqb_neq in Hjq.
    rewrite check_port_available_eq.
    cbn [instances Scenario.with_octal_port]. rewrite port_scan_step.
    change (read_port E (Scenario.record "a" Git "https://example.org/r.git" "0800"))
      with (jq_raw E ".port"
              (render_config
                 (Scenario.record "a" Git "https://example.org/r.git" "0800"))).
    rewrite Hjq, andb_false_r. reflexivity. }
  split; split.
  - reflexivity.
  - split; [|intros E; vm_compute; reflexivity].
    intros c ((dir & Hin) & _ & _ & m & Hm & Hs).
    destruct Hin as [Hin|[]]. injection Hin as _ <-.
    cbv in Hm. injection Hm as <-. discriminate.
  - split; [exists "a"; left; reflexivity|].
    split; [reflexivity|]. split; [discriminate|].
    exists (Scenario.machine Running "10.0.0.7"). split; reflexivity.
  - split; [exact Hoctal|]. apply Hoctal. discriminate.
Qed.


(** ** Options *)

(** Parsing the options reads no state: it returns the options, or ends the
    shell with status 1 and one message. *)
Lemma parse_options_pure (n : nat) :
  forall (args : list string) (o : Opt.t) (w : World),
    List.length args <= n ->
    (exists o', parse_options args o w = (Ret o', w, []))
    \/ (exists msg, parse_options args o w = (Exit 1, w, [Stderr msg])).
Proof.
  induction n as [|n IH]; intros args o w Hlen.
  - destruct args; [|cbn in Hlen; lia]. left. exists o. reflexivity.
  - destruct args as [|a rest]; [left; exists o; reflexivity|].
    cbn in Hlen. cbn [parse_options]. destruct o.
    repeat match goal with
    | |- context [if String.eqb a ?b then _ else _] => destruct (String.eqb a b)
    end;
    try (destruct rest as [|v rest'];
         [right; eexists; reflexivity|apply IH; cbn in Hlen |- *; lia]);
    try (apply IH; lia).
    right. eexists. reflexivity.
Qed.

Lemma parse_options_ret (args : list string) (o o' : Opt.t) (w : World) :
  result (parse_options args o w) = Ret o' ->
  parse_options args o w = (Ret o', w, []).
Proof.
  intros H.
  destruct (parse_options_pure (List.length args) args o w (le_n _))
    as [(o1 & Ho)|(msg & Ho)]; rewrite Ho in H |- *; cbn in H.
  - inversion H. reflexivity.
  - discriminate.
Qed.

Lemma parse_options_world (args : list string) (o : Opt.t) (w : World) :
  world (parse_options args o w) = w.
Proof.
  destruct (parse_options_pure (List.length args) args o w (le_n _))
    as [(o1 & Ho)|(msg & Ho)]; rewrite Ho; reflexivity.
Qed.

(** ** An instance that already exists *)

Lemma lookup_upsert {V} (k : string) (v : V) (l : list (string * V)) :
  lookup k (upsert k v l) = Some v.
Proof.
  induction l as [|[k' v'] l IH]; cbn.
  - rewrite String.eqb_refl. reflexivity.
  - destruct (String.eqb k k') eqn:Hk; cbn.
    + rewrite String.eqb_refl. reflexivity.
    + destruct (String.ltb k k'); cbn.
      * rewrite String.eqb_refl. reflexivity.
      * rewrite Hk. exact IH.
Qed.

(** *** What the script observes *)

Lemma record_dir_has (E : Env) (name : string) (w : World) :
  has name (instances w) = true -> record_dir E name w = true.
Proof. intros H. unfold record_dir. rewrite H. reflexivity. Qed.

Lemma record_dir_plain (E : Env) (name : string) (w : World) :
  plain name = true -> record_dir E name w = has name (instances w).
Proof.
  intros H. unfold record_dir. rewrite H. cbn [negb andb].
  apply Bool.orb_false_r.
Qed.

Lemma record_dir_false (E : Env) (name : string) (w : World) :
  record_dir E name w = false -> has name (instances w) = false.
Proof. unfold record_dir. intros H. apply Bool.orb_false_elim in H. tauto. Qed.

(** The line of the state shows the state. *)
Lemma seen_state (E : Env) (vm_name : string) (m : vm) :
  seen E (state m) vm_name m = true.
Proof.
  unfold seen, grep_q, info_lines. cbn [existsb].
  apply Bool.orb_true_iff. right. apply Bool.orb_true_iff. left.
  destruct (state m); reflexivity.
Qed.

(** A word that does not start with a character of [p] occurs in [p ++ s]
    only where it occurs in [s]. *)
Lemma contains_skip (w p s : string) :
  (forall a w', w = String a w' ->
     existsb (Ascii.eqb a) (list_ascii_of_string p) = false) ->
  w <> "" ->
  Str.contains w (p ++ s) = Str.contains w s.
Proof.
  intros Hfirst Hne. destruct w as [|a w']; [congruence|].
  specialize (Hfirst a w' eq_refl).
  induction p as [|b p IH]; [reflexivity|].
  cbn [list_ascii_of_string existsb] in Hfirst.
  apply Bool.orb_false_elim in Hfirst. destruct Hfirst as [Hab Hp].
  cbn [append Str.contains prefix].
  destruct (ascii_dec a b) as [Heq|Hneq].
  - subst b. rewrite Ascii.eqb_refl in Hab. discriminate.
  - cbn [orb]. exact (IH Hp).
Qed.

(** The word of a state occurs in the output for the state itself and
    where it strays into the name or the other lines. *)
Lemma seen_spec (E : Env) (s : vm_state) (vm_name : string) (m : vm) :
  seen E s vm_name m = vm_state_eqb (state m) s || stray E s vm_name.
Proof.
  unfold seen, stray, grep_q, info_lines. cbn [existsb].
  assert (Hn : Str.contains (state_text s) ("Name:           " ++ vm_name)
               = Str.contains (state_text s) vm_name).
  { apply contains_skip; destruct s; try discriminate;
      intros a w' Hw; inversion Hw; reflexivity. }
  assert (Hs : Str.contains (state_text s)
                 ("State:          " ++ state_text (state m))
               = vm_state_eqb (state m) s)
    by (destruct s, (state m); reflexivity).
  rewrite Hn, Hs.
  destruct (Str.contains (state_text s) vm_name), (vm_state_eqb (state m) s);
    reflexivity.
Qed.

Lemma existing_instance_seen (E : Env) (name port : string) (w : World) (m : vm) :
  record_dir E name w = true ->
  lookup (get_vm_name name) (vms w) = Some m ->
  seen E Running (get_vm_name name) m = true ->
  existing_instance E name (get_vm_name name) port w =
    (Ret (Some 0), w, running_log name (ipv4 m) port).
Proof.
  intros Hrec Hvm Hs.
  cbv [existing_instance bind get_world info emit info_grep get_vm_ip
       multipass_info ret].
  repeat (progress (cbv beta iota; rewrite ?Hrec, ?Hvm, ?Hs)). reflexivity.
Qed.

Lemma existing_instance_unseen (E : Env) (name port : string) (w : World) (m : vm) :
  record_dir E name w = true ->
  lookup (get_vm_name name) (vms w) = Some m ->
  seen E Running (get_vm_name name) m = false ->
  existing_instance E name (get_vm_name name) port w =
    if Nat.eqb (mp_exit E (vms w) (MpStart (get_vm_name name))) 0
    then (Ret (Some 0),
          set_vms w (upsert (get_vm_name name) (booted E (get_vm_name name)) (vms w)),
          (restart_log name
           ++ restarted_log name (mp_ip E (get_vm_name name)) port)%list)
    else (Exit (mp_exit E (vms w) (MpStart (get_vm_name name))), w,
          restart_log name).
Proof.
  intros Hrec Hvm Hs.
  cbv [existing_instance bind get_world info emit info_grep info_ok
       get_vm_ip multipass_info ret errexit multipass exit].
  repeat (progress (cbv beta iota; rewrite ?Hrec, ?Hvm, ?Hs)).
  destruct (Nat.eqb (mp_exit E (vms w) (MpStart (get_vm_name name))) 0) eqn:Hst.
  - cbv beta iota. cbn [mp_effect]. rewrite Hvm. cbn [vms set_vms].
    rewrite lookup_upsert. reflexivity.
  - reflexivity.
Qed.

Lemma existing_instance_running (E : Env) (name port : string) (w : World) (m : vm) :
  has name (instances w) = true ->
  lookup (get_vm_name name) (vms w) = Some m ->
  state m = Running ->
  existing_instance E name (get_vm_name name) port w =
    (Ret (Some 0), w, running_log name (ipv4 m) port).
Proof.
  intros Hrec Hvm Hrun.
  apply existing_instance_seen;
    [apply record_dir_has; exact Hrec|exact Hvm|].
  rewrite <- Hrun. apply seen_state.
Qed.

Lemma existing_instance_absent (E : Env) (name port : string) (w : World) :
  record_dir E name w = true ->
  lookup (get_vm_name name) (vms w) = None ->
  existing_instance E name (get_vm_name name) port w =
    (Ret None, w,
     [ already_exists name;
       Multipass (MpInfo (get_vm_name name));
       Multipass (MpInfo (get_vm_name name)) ]).
Proof.
  intros Hrec Hvm.
  cbv [existing_instance bind get_world info emit info_grep info_ok
       multipass_info ret].
  repeat (progress (cbv beta iota; rewrite ?Hrec, ?Hvm)). reflexivity.
Qed.

Lemma existing_instance_new (E : Env) (name vm_name port : string) (w : World) :
  record_dir E name w = false ->
  existing_instance E name vm_name port w = (Ret None, w, []).
Proof.
  intros Hrec. cbv [existing_instance bind get_world]. rewrite Hrec. reflexivity.
Qed.

(** Without a directory, or without a machine, [start] goes on to
    provision. *)
Lemma existing_instance_goes_on (E : Env) (name port : string) (w : World) :
  record_dir E name w = false \/ lookup (get_vm_name name) (vms w) = None ->
  exists l0, existing_instance E name (get_vm_name name) port w
             = (Ret None, w, l0).
Proof.
  intros H. destruct (record_dir E name w) eqn:Hrec.
  - destruct H as [Hf|Hvm]; [discriminate|].
    eexists. apply existing_instance_absent; assumption.
  - eexists. apply existing_instance_new. exact Hrec.
Qed.

(** [start] with a name: the options are parsed, then the existing instance
    is looked at, then the instance is provisioned. *)
Lemma command_start_named (E : Env) (name : string) (rest : list string) :
  Str.nonempty name = true ->
  command_start E (name :: rest) =
    (o <- parse_options (snd (split_codebase rest)) default_options ;;
     done <- existing_instance E name (get_vm_name name) (Opt.port o) ;;
     match done with
     | Some status => ret status
     | None => provision E name (get_vm_name name) (fst (split_codebase rest)) o
     end).
Proof.
  intros Hname. unfold command_start. cbn [tl]. rewrite Hname. cbn [negb].
  destruct (split_codebase rest) as [codebase args]. reflexivity.
Qed.

(** [start] on an instance whose record and machine exist, by the state of
    the machine. *)
Lemma command_start_running (E : Env) (name : string) (rest : list string)
  (w : World) (m : vm) (o : Opt.t) :
  Str.nonempty name = true ->
  has name (instances w) = true ->
  lookup (get_vm_name name) (vms w) = Some m ->
  state m = Running ->
  result (parse_options (snd (split_codebase rest)) default_options w) = Ret o ->
  command_start E (name :: rest) w =
    (Ret 0, w, running_log name (ipv4 m) (Opt.port o)).
Proof.
  intros Hname Hrec Hvm Hrun Hopt.
  rewrite (command_start_named E name rest Hname).
  rewrite (bind_eq _ _ _ _ _ _ (parse_options_ret _ _ _ _ Hopt)).
  rewrite (bind_eq _ _ _ _ _ _
             (existing_instance_running E name (Opt.port o) w m Hrec Hvm Hrun)).
  reflexivity.
Qed.

Lemma command_start_seen (E : Env) (name : string) (rest : list string)
  (w : World) (m : vm) (o : Opt.t) :
  Str.nonempty name = true ->
  record_dir E name w = true ->
  lookup (get_vm_name name) (vms w) = Some m ->
  seen E Running (get_vm_name name) m = true ->
  result (parse_options (snd (split_codebase rest)) default_options w) = Ret o ->
  command_start E (name :: rest) w =
    (Ret 0, w, running_log name (ipv4 m) (Opt.port o)).
Proof.
  intros Hname Hrec Hvm Hrun Hopt.
  rewrite (command_start_named E name rest Hname).
  rewrite (bind_eq _ _ _ _ _ _ (parse_options_ret _ _ _ _ Hopt)).
  rewrite (bind_eq _ _ _ _ _ _
             (existing_instance_seen E name (Opt.port o) w m Hrec Hvm Hrun)).
  reflexivity.
Qed.

Lemma command_start_restart (E : Env) (name : string) (rest : list string)
  (w : World) (m : vm) (o : Opt.t) :
  Str.nonempty name = true ->
  record_dir E name w = true ->
  lookup (get_vm_name name) (vms w) = Some m ->
  seen E Running (get_vm_name name) m = false ->
  result (parse_options (snd (split_codebase rest)) default_options w) = Ret o ->
  command_start E (name :: rest) w =
    if Nat.eqb (mp_exit E (vms w) (MpStart (get_vm_name name))) 0
    then (Ret 0,
          set_vms w (upsert (get_vm_name name) (booted E (get_vm_name name)) (vms w)),
          (restart_log name
           ++ restarted_log name (mp_ip E (get_vm_name name)) (Opt.port o))%list)
    else (Exit (mp_exit E (vms w) (MpStart (get_vm_name name))), w,
          restart_log name).
Proof.
  intros Hname Hrec Hvm Hrun Hopt.
  rewrite (command_start_named E name rest Hname).
  rewrite (bind_eq _ _ _ _ _ _ (parse_options_ret _ _ _ _ Hopt)).
  pose proof (existing_instance_unseen E name (Opt.port o) w m Hrec Hvm Hrun) as Hex.
  destruct (Nat.eqb (mp_exit E (vms w) (MpStart (get_vm_name name))) 0).
  - rewrite (bind_eq _ _ _ _ _ _ Hex). cbn [result world log fst snd ret].
    rewrite app_nil_r. reflexivity.
  - rewrite (bind_exit _ _ _ _ _ _ Hex). reflexivity.
Qed.

(** C6. [start] on an instance whose record exists and whose machine is
    observed running (with well-formed options) is a no-op: it returns 0,
    changes neither the store nor the machines, performs no effectful step
    (its log is the two status queries of the instance's own machine and
    three messages), and running it again gives the same result. *)
Theorem start_running_is_noop (E : Env) (name : string) (rest : list string)
  (w : World) (m : vm) (o : Opt.t)
  (Hname : Str.nonempty name = true)
  (Hrec : has name (instances w) = true)
  (Hvm : lookup (get_vm_name name) (vms w) = Some m)
  (Hrun : state m = Running)
  (Hopt : result (parse_options (snd (split_codebase rest)) default_options w)
          = Ret o) :
  command_start E (name :: rest) w
    = (Ret 0, w, running_log name (ipv4 m) (Opt.port o))
  /\ existsb effectful (log (command_start E (name :: rest) w)) = false
  /\ command_start E (name :: rest) (world (command_start E (name :: rest) w))
     = command_start E (name :: rest) w.
Proof.
  rewrite (command_start_running E name rest w m o Hname Hrec Hvm Hrun Hopt).
  split; [reflexivity|]. split; [reflexivity|].
  cbn [world fst snd].
  apply (command_start_running E name rest w m o Hname Hrec Hvm Hrun Hopt).
Qed.

Lemma start_running_is_noop_witness :
  command_start Scenario.env ["a"; "--port"; "9000"] (Scenario.with_a Running)
    = (Ret 0, Scenario.with_a Running, running_log "a" "10.0.0.7" "9000").
Proof.
  apply (start_running_is_noop Scenario.env "a" ["--port"; "9000"]
           (Scenario.with_a Running) (Scenario.machine Running "10.0.0.7")
           (Opt.mk "4G" "20G" "2" "9000" "22.04" "no" "" "")
           eq_refl eq_refl eq_refl eq_refl eq_refl).
Defined.

(** ** Restart *)

(** C3 as stated fails: on the stopped instance [a], [start a] returns 0
    after the backend's [start] without any event of the readiness probe. *)
Lemma restart_without_probe :
  has "a" (instances (Scenario.with_a Stopped)) = true
  /\ lookup (get_vm_name "a") (vms (Scenario.with_a Stopped))
     = Some (Scenario.machine Stopped "10.0.0.7")
  /\ result (command_start Scenario.env ["a"] (Scenario.with_a Stopped)) = Ret 0
  /\ existsb is_probe (log (command_start Scenario.env ["a"] (Scenario.with_a Stopped)))
     = false.
Proof. repeat split; vm_compute; reflexivity. Qed.

(** The script sees a machine as not running exactly when its state is
    not [Running] and the word does not stray into the rest of the report. *)
Lemma unseen_running (E : Env) (vm_name : string) (m : vm) :
  seen E Running vm_name m = false
  <-> state m <> Running /\ stray E Running vm_name = false.
Proof.
  rewrite seen_spec. split.
  - intros H. apply Bool.orb_false_elim in H. destruct H as [Hs Hc].
    split; [|exact Hc]. intros Hr. rewrite Hr in Hs. discriminate.
  - intros [Hs Hc]. rewrite Hc.
    destruct (state m); [congruence|reflexivity|reflexivity].
Qed.

(** C3, amended. [start] on an instance whose record exists and whose
    machine exists but is not running, the word [Running] occurring
    nowhere else in the backend's report on the machine (with well-formed
    options), does nothing but query the machine twice and invoke the
    backend's [start]: no creation, transfer, codebase or install step, no
    write of the record, and no readiness probe.  If the backend's [start]
    succeeds the command reports the restart and returns 0; otherwise the
    run ends with the backend's status.  The codebase argument is never
    looked at. *)
Theorem restart_only_starts (E : Env) (name : string) (rest : list string)
  (w : World) (m : vm) (o : Opt.t)
  (Hname : Str.nonempty name = true)
  (Hrec : has name (instances w) = true)
  (Hvm : lookup (get_vm_name name) (vms w) = Some m)
  (Hstop : state m <> Running)
  (Hclean : stray E Running (get_vm_name name) = false)
  (Hopt : result (parse_options (snd (split_codebase rest)) default_options w)
          = Ret o) :
  command_start E (name :: rest) w =
    (if Nat.eqb (mp_exit E (vms w) (MpStart (get_vm_name name))) 0
     then (Ret 0,
           set_vms w (upsert (get_vm_name name) (booted E (get_vm_name name)) (vms w)),
           (restart_log name
            ++ restarted_log name (mp_ip E (get_vm_name name)) (Opt.port o))%list)
     else (Exit (mp_exit E (vms w) (MpStart (get_vm_name name))), w,
           restart_log name))
  /\ existsb is_probe (log (command_start E (name :: rest) w)) = false
  /\ filter effectful (log (command_start E (name :: rest) w))
     = [Multipass (MpStart (get_vm_name name))]
  /\ instances (world (command_start E (name :: rest) w)) = instances w.
Proof.
  rewrite (command_start_restart E name rest w m o Hname
             (record_dir_has E name w Hrec) Hvm
             (proj2 (unseen_running E (get_vm_name name) m) (conj Hstop Hclean))
             Hopt).
  split; [reflexivity|].
  destruct (Nat.eqb (mp_exit E (vms w) (MpStart (get_vm_name name))) 0);
    repeat split; reflexivity.
Qed.

Lemma restart_only_starts_witness :
  command_start Scenario.env ["a"; "/no/such/dir"] (Scenario.with_a Stopped)
    = (Ret 0, Scenario.with_a Running,
       (restart_log "a" ++ restarted_log "a" "10.0.0.7" "8080")%list)
  /\ existsb is_probe
       (log (command_start Scenario.env ["a"; "/no/such/dir"] (Scenario.with_a Stopped)))
     = false.
Proof.
  destruct (restart_only_starts Scenario.env "a" ["/no/such/dir"]
              (Scenario.with_a Stopped) (Scenario.machine Stopped "10.0.0.7")
              default_options eq_refl eq_refl eq_refl
              ltac:(discriminate) eq_refl eq_refl) as (Hrun & Hprobe & _).
  split; [|exact Hprobe].
  rewrite Hrun. vm_compute. reflexivity.
Defined.

(** ** The record across restarts *)

Lemma command_stop_keeps (E : Env) (name : string) (w : World) (m : vm) :
  has name (instances w) = true ->
  lookup (get_vm_name name) (vms w) = Some m ->
  instances (world (command_stop E [name] w)) = instances w
  /\ exists m', lookup (get_vm_name name) (vms (world (command_stop E [name] w)))
                = Some m'.
Proof.
  intros Hrec Hvm.
  destruct (Str.nonempty name) eqn:Hname.
  - pose proof (record_dir_has E name w Hrec) as Hdir.
    cbv [command_stop check_instance_exists bind get_world info emit ret
         multipass die exit].
    repeat (progress (cbv beta iota; rewrite ?Hname, ?Hdir)). cbn [negb].
    repeat (progress (cbv beta iota; rewrite ?Hname, ?Hdir)).
    destruct (Nat.eqb (mp_exit E (vms w) (MpStop (get_vm_name name))) 0).
    + cbn [world fst snd mp_effect]. rewrite Hvm. cbn [instances vms set_vms].
      split; [reflexivity|]. rewrite lookup_upsert. eauto.
    + cbn [world fst snd]. eauto.
  - cbv [command_stop die bind emit exit]. rewrite Hname. cbn [negb world fst snd].
    eauto.
Qed.

Lemma command_start_keeps (E : Env) (name : string) (rest : list string)
  (w : World) (m : vm) :
  has name (instances w) = true ->
  lookup (get_vm_name name) (vms w) = Some m ->
  instances (world (command_start E (name :: rest) w)) = instances w.
Proof.
  intros Hrec Hvm.
  destruct (Str.nonempty name) eqn:Hname.
  - destruct (parse_options_pure _ (snd (split_codebase rest)) default_options w
                (le_n _)) as [(o & Ho)|(msg & Ho)].
    + assert (Hopt : result (parse_options (snd (split_codebase rest))
                               default_options w) = Ret o)
        by (rewrite Ho; reflexivity).
      pose proof (record_dir_has E name w Hrec) as Hdir.
      destruct (seen E Running (get_vm_name name) m) eqn:Hst.
      * rewrite (command_start_seen E name rest w m o); auto.
      * rewrite (command_start_restart E name rest w m o); auto.
        destruct (Nat.eqb (mp_exit E (vms w) (MpStart (get_vm_name name))) 0);
          reflexivity.
    + rewrite (command_start_named E name rest Hname).
      rewrite (bind_exit _ _ _ _ _ _ Ho). reflexivity.
  - cbv [command_start die bind emit exit]. rewrite Hname. reflexivity.
Qed.

(** C5 as stated fails: the record of [a] is left but its machine is gone;
    [start a] provisions again and replaces the record (the type goes from
    [git] to [demo], path, port and date change). *)
Lemma start_rewrites_record_without_vm :
  lookup "a" (instances Scenario.orphan_a)
    = Some (Some (Scenario.record "a" Git "https://example.org/r.git" "9000"))
  /\ lookup (get_vm_name "a") (vms Scenario.orphan_a) = None
  /\ lookup "a" (instances (world (command_start Scenario.env ["a"] Scenario.orphan_a)))
     = Some (Some (Config.mk "a" "opengrok-test-a" Demo "/tmp/tmp.k3Hq9" "8080"
                             "4G" "20G" "2" "22.04" "2026-01-01T00:00:00Z" "" "")).
Proof. repeat split; vm_compute; reflexivity. Qed.

(** C5, amended. For every instance whose record exists and whose machine
    still exists, [start] never rewrites the store, whatever its other
    arguments; and so after [stop] followed by [start] the store, with the
    record's [codebase_type] and [codebase_path], is what it was. *)
Theorem start_keeps_record_when_vm_exists (E : Env) (name : string)
  (rest : list string) (w : World) (m : vm)
  (Hrec : has name (instances w) = true)
  (Hvm : lookup (get_vm_name name) (vms w) = Some m) :
  instances (world (command_start E (name :: rest) w)) = instances w
  /\ instances (world (command_start E (name :: rest)
                         (world (command_stop E [name] w))))
     = instances w.
Proof.
  split; [exact (command_start_keeps E name rest w m Hrec Hvm)|].
  destruct (command_stop_keeps E name w m Hrec Hvm) as (Hi & m' & Hvm').
  transitivity (instances (world (command_stop E [name] w))); [|exact Hi].
  apply (command_start_keeps E name rest _ m'); [|exact Hvm'].
  rewrite Hi. exact Hrec.
Qed.

Lemma start_keeps_record_when_vm_exists_witness :
  instances (world (command_start Scenario.env ["a"; "/src/proj"; "--port"; "9100"]
                      (world (command_stop Scenario.env ["a"]
                                (Scenario.with_a Running)))))
  = instances (Scenario.with_a Running).
Proof.
  apply (start_keeps_record_when_vm_exists Scenario.env "a"
           ["/src/proj"; "--port"; "9100"] (Scenario.with_a Running)
           (Scenario.machine Running "10.0.0.7") eq_refl eq_refl).
Defined.

(** ** The fast path and the port check *)

(** C10. When the record and the machine of an instance exist (running or
    not), [start] with well-formed options returns before the port check:
    its log has no call of [check_port_available] and no error message, so
    no port conflict is raised, whatever other instances hold the port; it
    returns 0 when the machine runs or the backend's [start] succeeds. *)
Theorem fast_path_skips_port_check (E : Env) (name : string) (rest : list string)
  (w : World) (m : vm) (o : Opt.t)
  (Hname : Str.nonempty name = true)
  (Hrec : has name (instances w) = true)
  (Hvm : lookup (get_vm_name name) (vms w) = Some m)
  (Hopt : result (parse_options (snd (split_codebase rest)) default_options w)
          = Ret o) :
  existsb is_port_check (log (command_start E (name :: rest) w)) = false
  /\ (forall owner, ~ In (port_conflict (Opt.port o) owner)
                         (log (command_start E (name :: rest) w)))
  /\ (state m = Running
      \/ mp_exit E (vms w) (MpStart (get_vm_name name)) = 0 ->
      result (command_start E (name :: rest) w) = Ret 0).
Proof.
  pose proof (record_dir_has E name w Hrec) as Hdir.
  assert (Hnone : existsb is_port_check (log (command_start E (name :: rest) w))
                  = false).
  { destruct (seen E Running (get_vm_name name) m) eqn:Hst.
    - rewrite (command_start_seen E name rest w m o); auto.
    - rewrite (command_start_restart E name rest w m o); auto.
      destruct (Nat.eqb (mp_exit E (vms w) (MpStart (get_vm_name name))) 0);
        reflexivity. }
  split; [exact Hnone|]. split.
  - intros owner Hin.
    assert (Hex : existsb is_port_check (log (command_start E (name :: rest) w))
                  = true).
    { apply existsb_exists. exists (port_conflict (Opt.port o) owner).
      split; [exact Hin|reflexivity]. }
    congruence.
  - intros Hok. destruct (seen E Running (get_vm_name name) m) eqn:Hst.
    + rewrite (command_start_seen E name rest w m o); auto.
    + destruct Hok as [Hr|Hok].
      * rewrite <- Hr, seen_state in Hst. discriminate.
      * rewrite (command_start_restart E name rest w m o); auto.
        rewrite Hok. reflexivity.
Qed.

(** Instance [a] runs on port 9000; the stopped instance [b], also on port
    9000, restarts all the same. *)
Lemma fast_path_skips_port_check_witness :
  blocks Scenario.env (Scenario.with_a_b Stopped) "9000" "b"
         (Scenario.record "a" Git "https://example.org/r.git" "9000") = true
  /\ existsb is_port_check
       (log (command_start Scenario.env ["b"; "--port"; "9000"]
               (Scenario.with_a_b Stopped))) = false
  /\ result (command_start Scenario.env ["b"; "--port"; "9000"]
               (Scenario.with_a_b Stopped)) = Ret 0.
Proof.
  destruct (fast_path_skips_port_check Scenario.env "b" ["--port"; "9000"]
              (Scenario.with_a_b Stopped) (Scenario.machine Stopped "10.0.0.8")
              (Opt.mk "4G" "20G" "2" "9000" "22.04" "no" "" "")
              eq_refl eq_refl eq_refl eq_refl) as (Hlog & _ & Hres).
  split; [reflexivity|]. split; [exact Hlog|].
  apply Hres. right. reflexivity.
Defined.

(** ** The readiness probe *)

Lemma is_2xx_curl_sf (o : curl_outcome) : is_2xx o = true -> curl_sf o = true.
Proof.
  destruct o as [|s]; unfold is_2xx, curl_sf; [discriminate|].
  intros H. apply andb_true_iff in H. destruct H as [_ H].
  apply Nat.ltb_lt in H. apply Nat.ltb_lt. lia.
Qed.

Lemma wait_loop_ready (E : Env) (url : string) (k : nat) :
  forall (left attempt : nat) (w : World),
    k < left ->
    (forall j, j < k -> curl_sf (curl E url (attempt + j)) = false) ->
    curl_sf (curl E url (attempt + k)) = true ->
    wait_loop E url left attempt w
    = (Ret 0, w, (failed_attempts url k ++ [Curl url])%list).
Proof.
  induction k as [|k IH]; intros left attempt w Hlt Hfail Hok.
  - destruct left as [|left]; [lia|].
    rewrite Nat.add_0_r in Hok.
    cbv [wait_loop bind emit ret]. rewrite Hok. reflexivity.
  - destruct left as [|left]; [lia|].
    pose proof (Hfail 0 ltac:(lia)) as H0. rewrite Nat.add_0_r in H0.
    assert (Hrec : wait_loop E url left (S attempt) w
                   = (Ret 0, w, (failed_attempts url k ++ [Curl url])%list)).
    { apply IH; [lia| |].
      - intros j Hj. replace (S attempt + j) with (attempt + S j) by lia.
        apply Hfail. lia.
      - replace (S attempt + k) with (attempt + S k) by lia. exact Hok. }
    cbn [wait_loop]. cbv [bind emit]. rewrite H0. cbv beta iota.
    rewrite Hrec. reflexivity.
Qed.

Lemma wait_loop_timeout (E : Env) (url : string) (left : nat) :
  forall (attempt : nat) (w : World),
    (forall j, j < left -> curl_sf (curl E url (attempt + j)) = false) ->
    wait_loop E url left attempt w = (Ret 1, w, failed_attempts url left).
Proof.
  induction left as [|left IH]; intros attempt w Hfail; [reflexivity|].
  pose proof (Hfail 0 ltac:(lia)) as H0. rewrite Nat.add_0_r in H0.
  assert (Hrec : wait_loop E url left (S attempt) w
                 = (Ret 1, w, failed_attempts url left)).
  { apply IH. intros j Hj. replace (S attempt + j) with (attempt + S j) by lia.
    apply Hfail. lia. }
  cbn [wait_loop]. cbv [bind emit]. rewrite H0. cbv beta iota.
  rewrite Hrec. reflexivity.
Qed.

(** The loop always returns, 0 or 1, after at most [left] attempts, and
    leaves the world alone. *)
Lemma wait_loop_total (E : Env) (url : string) (left : nat) :
  forall (attempt : nat) (w : World),
    exists n,
      n <= left
      /\ (wait_loop E url left attempt w
          = (Ret 0, w, (failed_attempts url n ++ [Curl url])%list) /\ n < left
          \/ wait_loop E url left attempt w
             = (Ret 1, w, failed_attempts url left) /\ n = left).
Proof.
  induction left as [|left IH]; intros attempt w.
  - exists 0. split; [lia|]. right. split; reflexivity.
  - destruct (curl_sf (curl E url attempt)) eqn:H0.
    + exists 0. split; [lia|]. left. split; [|lia].
      cbv [wait_loop bind emit ret]. rewrite H0. reflexivity.
    + destruct (IH (S attempt) w) as (n & Hn & [[Hr Hlt]|[Hr Heq]]).
      * exists (S n). split; [lia|]. left. split; [|lia].
        cbn [wait_loop]. cbv [bind emit]. rewrite H0. cbv beta iota.
        rewrite Hr. reflexivity.
      * exists (S left). split; [lia|]. right. split; [|reflexivity].
        cbn [wait_loop]. cbv [bind emit]. rewrite H0. cbv beta iota.
        rewrite Hr. reflexivity.
Qed.

Lemma first_success (f : nat -> bool) (k : nat) :
  f k = true ->
  exists n, n <= k /\ f n = true /\ forall j, j < n -> f j = false.
Proof.
  induction k as [k IH] using (well_founded_induction Nat.lt_wf_0). intros Hk.
  destruct (forallb (fun j => negb (f j)) (seq 0 k)) eqn:Hall.
  - exists k. split; [lia|]. split; [exact Hk|]. intros j Hj.
    rewrite forallb_forall in Hall. specialize (Hall j).
    rewrite in_seq in Hall. apply negb_true_iff. apply Hall. lia.
  - assert (Hex : existsb f (seq 0 k) = true).
    { clear - Hall. induction (seq 0 k) as [|x l IHl]; [discriminate|].
      cbn in *. destruct (f x); [reflexivity|]. cbn in Hall. apply IHl. exact Hall. }
    apply existsb_exists in Hex. destruct Hex as (i & Hin & Hi).
    rewrite in_seq in Hin. destruct (IH i ltac:(lia) Hi) as (n & Hn & Hfn & Hlt).
    exists n. split; [lia|]. auto.
Qed.

Lemma wait_for_opengrok_eq (E : Env) (url : string) (w : World) :
  wait_for_opengrok E url w =
    (result (wait_loop E url max_attempts 0 w),
     world (wait_loop E url max_attempts 0 w),
     (probe_header url ++ log (wait_loop E url max_attempts 0 w))%list).
Proof.
  cbv [wait_for_opengrok bind emit info]. rewrite Nat.sub_0_r.
  destruct (wait_loop E url max_attempts 0 w) as [[r w'] l]. reflexivity.
Qed.

(** The end of [command_start] never ends the shell and changes nothing;
    its status is that of the last command. *)
Lemma finish_start_outcome (E : Env) (name vm_name port : string)
  (cb : codebase_info) (w : World) :
  result (finish_start E name vm_name port cb w) = Ret (last_status cb)
  /\ world (finish_start E name vm_name port cb w) = w.
Proof.
  set (ip := match lookup vm_name (vms w) with Some m => ipv4 m | None => "" end).
  pose proof (wait_for_opengrok_eq E (source_url ip port) w) as Hw.
  unfold finish_start. cbv [bind get_vm_ip multipass_info ret]. cbv beta iota.
  fold ip.
  destruct (wait_loop_total E (source_url ip port) max_attempts 0 w)
    as (n & Hn & [[Hr _]|[Hr _]]);
    rewrite Hr in Hw; cbn [result world log fst snd] in Hw; rewrite Hw;
    unfold last_status; destruct (cb_type cb); split; reflexivity.
Qed.

Lemma finish_start_timeout (E : Env) (name vm_name port : string)
  (cb : codebase_info) (w : World) (ip : string) :
  ip = match lookup vm_name (vms w) with Some m => ipv4 m | None => "" end ->
  (forall j, j < max_attempts -> curl_sf (curl E (source_url ip port) j) = false) ->
  finish_start E name vm_name port cb w =
    (Ret (last_status cb), w,
     (Multipass (MpInfo vm_name) :: probe_header (source_url ip port)
      ++ failed_attempts (source_url ip port) max_attempts
      ++ readiness_warning E name :: cleanup_log cb)%list).
Proof.
  intros Hip Hfail.
  pose proof (wait_for_opengrok_eq E (source_url ip port) w) as Hw.
  rewrite (wait_loop_timeout E _ max_attempts 0 w Hfail) in Hw.
  cbn [result world log fst snd] in Hw.
  unfold finish_start. cbv [bind get_vm_ip multipass_info ret]. cbv beta iota.
  rewrite <- Hip. rewrite Hw.
  unfold last_status, cleanup_log, readiness_warning.
  destruct (cb_type cb); cbv [warn emit ret]; cbn [Nat.eqb];
    rewrite ?app_nil_r; reflexivity.
Qed.

Lemma bind_same {A B} (m : Sh A) (k1 k2 : A -> Sh B) (w : World) :
  (forall a w1, same_outcome (k1 a w1) (k2 a w1)) ->
  same_outcome (bind m k1 w) (bind m k2 w).
Proof.
  intros H. unfold bind. destruct (m w) as [[[a|c] w1] l1].
  - specialize (H a w1).
    destruct (k1 a w1) as [[r1 w2] l2], (k2 a w1) as [[r1' w2'] l2'].
    exact H.
  - split; reflexivity.
Qed.

Lemma same_outcome_refl {A} (r : res A * World * list event) : same_outcome r r.
Proof. split; reflexivity. Qed.

Lemma provision_with_curl (E : Env) c (name vm_name codebase : string)
  (o : Opt.t) (w : World) :
  same_outcome (provision (with_curl E c) name vm_name codebase o w)
               (provision E name vm_name codebase o w).
Proof.
  unfold provision. destruct o.
  change (classify_codebase (with_curl E c)) with (classify_codebase E).
  change (ensure_cache (with_curl E c)) with (ensure_cache E).
  change (multipass (with_curl E c)) with (multipass E).
  change (SCRIPT_DIR (with_curl E c)) with (SCRIPT_DIR E).
  change (handle_codebase (with_curl E c)) with (handle_codebase E).
  change (save_instance_state (with_curl E c)) with (save_instance_state E).
  assert (H : forall cb w',
             same_outcome (finish_start (with_curl E c) name vm_name port cb w')
                          (finish_start E name vm_name port cb w')).
  { intros cb w'.
    destruct (finish_start_outcome (with_curl E c) name vm_name port cb w') as [H1 H2].
    destruct (finish_start_outcome E name vm_name port cb w') as [H3 H4].
    split; congruence. }
  revert H.
  generalize (finish_start (with_curl E c) name vm_name port)
             (finish_start E name vm_name port).
  intros f1 f2 H.
  repeat (apply bind_same; intros).
  apply H.
Qed.

(** The status and the final world of [start] do not depend on what the
    probe gets. *)
Lemma command_start_with_curl (E : Env) c (args : list string) (w : World) :
  same_outcome (command_start (with_curl E c) args w) (command_start E args w).
Proof.
  unfold command_start.
  change (script (with_curl E c)) with (script E).
  change (existing_instance (with_curl E c)) with (existing_instance E).
  destruct (negb (Str.nonempty match args with a :: _ => a | [] => "" end));
    [apply same_outcome_refl|].
  destruct (split_codebase (tl args)) as [codebase args'].
  apply bind_same; intros o w1. apply bind_same; intros done w2.
  destruct done; [apply same_outcome_refl|apply provision_with_curl].
Qed.

(** ** The order of the provisioning steps *)

Lemma steps_app (l1 l2 : list event) : steps (l1 ++ l2) = (steps l1 ++ steps l2)%list.
Proof. apply flat_map_app. Qed.

Lemma log_of {A} (r : res A * World * list event) a w l :
  r = (a, w, l) -> log r = l.
Proof. intros ->. reflexivity. Qed.

Lemma port_scan_steps (E : Env) (port name : string) (w : World) l :
  steps (log (port_scan E port name l w)) = [].
Proof.
  induction l as [|[dir [c|]] l IH]; [reflexivity| |exact IH].
  rewrite port_scan_step.
  destruct (globbed dir
            && (String.eqb (read_port E c) port
                && negb (String.eqb (read_name E c) name)));
    [|exact IH].
  destruct (observed_running E w (get_vm_name (read_name E c))); [reflexivity|].
  cbn [log snd]. change (steps (?e :: ?l)) with (steps [e] ++ steps l)%list.
  exact IH.
Qed.

Lemma check_port_available_steps (E : Env) (port name : string) (w : World) :
  steps (log (check_port_available E port name w)) = [PortCheck].
Proof.
  rewrite check_port_available_eq. cbn [log snd].
  change (steps (?e :: ?l)) with (steps [e] ++ steps l)%list.
  rewrite port_scan_steps. reflexivity.
Qed.

Lemma classify_codebase_steps (E : Env) (codebase : string) (w : World) :
  steps (log (classify_codebase E codebase w)) = []
  \/ steps (log (classify_codebase E codebase w)) = [Resolve].
Proof.
  unfold classify_codebase. destruct (Str.nonempty codebase); cbn [negb].
  - destruct (is_dir E codebase); [destruct (cd_pwd E codebase)|
                                   destruct (is_remote_url codebase)];
      left; reflexivity.
  - right. cbv [bind info emit capture]. rewrite create_demo_codebase_run.
    reflexivity.
Qed.

Lemma ensure_cache_steps (E : Env) (force : string) (w : World) :
  steps (log (ensure_cache E force w)) = [].
Proof.
  unfold ensure_cache. cbv [bind emit get_world info put_world errexit ret exit].
  destruct (String.eqb force "yes" || negb (cache_dir (deps w))
            || negb (manifest (deps w))); [|reflexivity].
  cbv beta iota.
  match goal with |- context [download E ?c] => destruct (download E c) as [st c'] end.
  cbn [fst snd]. destruct (Nat.eqb st 0); reflexivity.
Qed.

Lemma transfer_deps_steps (E : Env) (vm_name : string) files :
  forall w, exists n,
    steps (log (transfer_deps E vm_name files w)) = repeat TransferDeps n.
Proof.
  induction files as [|[file regular] files IH]; intros w.
  - exists 0. reflexivity.
  - cbn [transfer_deps]. destruct regular.
    + cbv [bind errexit multipass ret exit]. cbv beta iota.
      destruct (Nat.eqb (mp_exit E (vms w) (MpTransfer file vm_name "/tmp/opengrok-deps/")) 0).
      * cbv beta iota.
        match goal with
        | |- context [transfer_deps E vm_name files ?w1] =>
            destruct (IH w1) as (n & Hn);
            destruct (transfer_deps E vm_name files w1) as [[r w2] l2]
        end.
        exists (S n). cbn [log snd] in *. cbn [app].
        change (steps (?e :: ?l)) with (steps [e] ++ steps l)%list.
        rewrite Hn. reflexivity.
      * exists 1. reflexivity.
    + cbv [bind ret]. cbv beta iota.
      destruct (IH w) as (n & Hn).
      destruct (transfer_deps E vm_name files w) as [[r w2] l2].
      exists n. exact Hn.
Qed.

Lemma handle_codebase_steps (E : Env) (vm_name : string) (cb : codebase_info)
  (git_depth git_branch : string) (w w' : World) (u : unit) (l : list event) :
  handle_codebase E vm_name cb git_depth git_branch w = (Ret u, w', l) ->
  exists m, steps l = repeat TransferCodebase (S m).
Proof.
  unfold handle_codebase.
  destruct (cb_type cb);
    cbv [bind info emit errexit multipass ret exit]; cbv beta iota;
    repeat match goal with
    | |- context [Nat.eqb (mp_exit E ?v ?c) 0] =>
        destruct (Nat.eqb (mp_exit E v c) 0); cbv beta iota
    end;
    intros H; inversion H; subst;
    first [exists 0; reflexivity | exists 1; reflexivity
          | exists 2; reflexivity | exists 3; reflexivity].
Qed.

Lemma save_instance_state_steps (E : Env) (name : string) (t : codebase_type)
  (path port memory disk cpus ubuntu git_depth git_branch : string) (w : World) :
  steps (log (save_instance_state E name t path port memory disk cpus ubuntu
                                  git_depth git_branch w)) = [Save]
  /\ result (save_instance_state E name t path port memory disk cpus ubuntu
                                 git_depth git_branch w) = Ret tt.
Proof. split; reflexivity. Qed.

Lemma failed_attempts_steps (url : string) (n : nat) :
  steps (failed_attempts url n) = repeat Probe (n + n).
Proof.
  induction n as [|n IH]; [reflexivity|].
  cbn [failed_attempts]. change (steps (?a :: ?b :: ?l)) with (Probe :: Probe :: steps l).
  rewrite IH. replace (S n + S n) with (S (S (n + n))) by lia. reflexivity.
Qed.

Lemma steps_cons (e : event) (l : list event) :
  steps (e :: l)
  = (match step_of e with Some s => [s] | None => [] end ++ steps l)%list.
Proof. reflexivity. Qed.

Lemma finish_start_steps (E : Env) (name vm_name port : string)
  (cb : codebase_info) (w : World) :
  exists p, steps (log (finish_start E name vm_name port cb w))
            = Probe :: repeat Probe p.
Proof.
  set (ip := match lookup vm_name (vms w) with Some m => ipv4 m | None => "" end).
  pose proof (wait_for_opengrok_eq E (source_url ip port) w) as Hw.
  unfold finish_start. cbv [bind get_vm_ip multipass_info ret]. cbv beta iota.
  fold ip.
  destruct (wait_loop_total E (source_url ip port) max_attempts 0 w)
    as (n & Hn & [[Hr _]|[Hr _]]);
    rewrite Hr in Hw; cbn [result world log fst snd] in Hw; rewrite Hw;
    cbv [info warn emit]; cbn [Nat.eqb]; cbv beta iota.
  - exists (n + n + 1).
    destruct (cb_type cb); cbn [log snd app];
      rewrite steps_cons, !steps_app, failed_attempts_steps;
      repeat change (steps (Stdout ?a :: ?l)) with (steps l);
      repeat change (steps (RmRf ?a :: ?l)) with (steps l);
      change (steps []) with (@nil step);
      change (steps [Curl ?u]) with [Probe];
      change (steps (probe_header ?u)) with [Probe];
      cbn [step_of app]; rewrite (repeat_app _ (n + n) 1), ?app_nil_r; reflexivity.
  - exists (max_attempts + max_attempts).
    destruct (cb_type cb); cbn [log snd app];
      rewrite steps_cons, !steps_app, failed_attempts_steps;
      repeat change (steps (Stderr ?a :: ?l)) with (steps l);
      repeat change (steps (RmRf ?a :: ?l)) with (steps l);
      change (steps []) with (@nil step);
      change (steps (probe_header ?u)) with [Probe];
      cbn [step_of app]; rewrite app_nil_r; reflexivity.
Qed.

Ltac bind_inv H :=
  let a := fresh "a" in
  let w := fresh "w" in
  let l1 := fresh "l" in
  let l2 := fresh "l" in
  let Hm := fresh "Hm" in
  apply bind_ret_inv in H; destruct H as (a & w & l1 & l2 & Hm & H & ->).

Lemma errexit_multipass_log (E : Env) (c : mp_cmd) (w w' : World) u l :
  errexit (multipass E c) w = (Ret u, w', l) -> l = [Multipass c].
Proof.
  intros H. apply errexit_ret_inv in H. unfold multipass in H.
  inversion H. reflexivity.
Qed.

Lemma info_log (msg : string) (w w' : World) u l :
  info msg w = (Ret u, w', l) -> l = [Stdout msg].
Proof. intros H. inversion H. reflexivity. Qed.

Lemma provision_steps (E : Env) (name vm_name codebase : string) (o : Opt.t)
  (w w' : World) (st : nat) (l : list event) :
  provision E name vm_name codebase o w = (Ret st, w', l) ->
  exists d n m p,
    (d = [] \/ d = [Resolve]) /\ steps l = provision_shape d n m p.
Proof.
  unfold provision. destruct o. intros H.
  repeat
    (apply bind_ret_inv in H;
     let Hm := fresh "Hm" in
     destruct H as (? & ? & ? & ? & Hm & H & ->);
     lazymatch type of Hm with
     | check_port_available ?E0 ?p ?n ?w0 = _ =>
         let S := fresh "S" in
         pose proof (check_port_available_steps E0 p n w0) as S;
         rewrite (log_of _ _ _ _ Hm) in S
     | classify_codebase ?E0 ?c ?w0 = _ =>
         let S := fresh "S" in
         pose proof (classify_codebase_steps E0 c w0) as S;
         rewrite (log_of _ _ _ _ Hm) in S
     | ensure_cache ?E0 ?f ?w0 = _ =>
         let S := fresh "S" in
         pose proof (ensure_cache_steps E0 f w0) as S;
         rewrite (log_of _ _ _ _ Hm) in S
     | info _ _ = _ => apply info_log in Hm; subst
     | errexit (multipass _ _) _ = _ => apply errexit_multipass_log in Hm; subst
     | get_world _ = _ => inversion Hm; subst; clear Hm
     | transfer_deps ?E0 ?v ?f ?w0 = _ =>
         let S := fresh "S" in
         destruct (transfer_deps_steps E0 v f w0) as (? & S);
         rewrite (log_of _ _ _ _ Hm) in S
     | handle_codebase _ _ _ _ _ _ = _ =>
         let S := fresh "S" in
         destruct (handle_codebase_steps _ _ _ _ _ _ _ _ _ Hm) as (? & S)
     | save_instance_state ?E0 ?a1 ?a2 ?a3 ?a4 ?a5 ?a6 ?a7 ?a8 ?a9 ?a10 ?w0 = _ =>
         let S := fresh "S" in
         destruct (save_instance_state_steps E0 a1 a2 a3 a4 a5 a6 a7 a8 a9 a10 w0)
           as (S & _);
         rewrite (log_of _ _ _ _ Hm) in S
     end).
  match type of H with
  | finish_start ?E0 ?a1 ?a2 ?a3 ?a4 ?w0 = _ =>
      let S := fresh "S" in
      destruct (finish_start_steps E0 a1 a2 a3 a4 w0) as (? & S);
      rewrite (log_of _ _ _ _ H) in S
  end.
  rewrite !steps_app.
  repeat match goal with
  | S : steps ?l = _ |- _ => rewrite S; clear S
  end.
  match goal with
  | S : steps ?l = [] \/ steps ?l = [Resolve] |- _ =>
      destruct S as [S|S]; rewrite S; [exists []|exists [Resolve]]
  end;
    do 3 eexists; (split; [|unfold provision_shape; cbn; reflexivity]); auto.
Qed.

Lemma Forall_le_expand (k : nat) (blocks : list (nat * nat)) :
  Forall (le k) (map fst blocks) -> Forall (le k) (expand blocks).
Proof.
  induction blocks as [|[x c] blocks IH]; intros H; [constructor|].
  inversion H; subst. unfold expand. cbn [flat_map fst snd].
  apply Forall_app. split; [|apply IH; assumption].
  clear - H2. induction c; cbn; constructor; auto.
Qed.

Lemma ascending_expand (blocks : list (nat * nat)) :
  ascending (map fst blocks) -> ascending (expand blocks).
Proof.
  induction blocks as [|[x c] blocks IH]; intros H; [exact I|].
  destruct H as [Hle Hasc]. unfold expand. cbn [flat_map fst snd].
  fold (expand blocks).
  specialize (IH Hasc). pose proof (Forall_le_expand x blocks Hle) as Hx.
  clear - IH Hx. induction c as [|c IHc]; cbn [repeat app]; [exact IH|].
  split; [|exact IHc].
  apply Forall_app. split; [|exact Hx].
  clear. induction c; cbn; constructor; auto.
Qed.

Lemma provision_shape_ascending (d : list step) (n m p : nat) :
  d = [] \/ d = [Resolve] ->
  ascending (map code_order (provision_shape d n m p)).
Proof.
  intros Hd.
  assert (H : map code_order (provision_shape d n m p)
              = expand [(0, 1); (1, List.length d); (2, 1); (3, S n); (4, S m);
                        (5, 1); (6, 1); (7, S p)]).
  { unfold provision_shape, expand.
    destruct Hd as [-> | ->]; cbn [map app flat_map fst snd repeat List.length];
      repeat (progress (rewrite ?map_app, ?map_cons, ?map_repeat));
      cbn [map code_order app]; rewrite ?app_nil_r; reflexivity. }
  rewrite H. apply ascending_expand. cbn. repeat constructor; lia.
Qed.

Lemma provision_shape_complete (d : list step) (n m p : nat) (s : step) :
  In s pipeline_steps -> In s (provision_shape d n m p).
Proof.
  unfold pipeline_steps, provision_shape. cbn [In repeat].
  intros H. rewrite ?in_app_iff. cbn [In]. rewrite ?in_app_iff. cbn [In].
  intuition auto.
Qed.

(** C1 as stated fails: a fresh [start] of a repository that runs to its
    end saves the record before it probes, so its steps are not in the
    order the claim gives. *)
Lemma save_precedes_probe :
  has "x" (instances Scenario.fresh) = false
  /\ record_dir Scenario.env "x" Scenario.fresh = false
  /\ result (command_start Scenario.env ["x"; "https://github.com/user/repo.git"]
               Scenario.fresh) = Ret 1
  /\ steps (log (command_start Scenario.env ["x"; "https://github.com/user/repo.git"]
                   Scenario.fresh))
     = [PortCheck; CreateVM; TransferDeps; TransferDeps; TransferDeps;
        TransferCodebase; Install; Save; Probe; Probe; Probe; Probe; Probe; Probe]
  /\ ~ in_order spec_order
         (log (command_start Scenario.env ["x"; "https://github.com/user/repo.git"]
                 Scenario.fresh)).
Proof.
  split; [reflexivity|]. split; [reflexivity|]. split; [vm_compute; reflexivity|].
  assert (Hs : steps (log (command_start Scenario.env
                             ["x"; "https://github.com/user/repo.git"]
                             Scenario.fresh))
               = [PortCheck; CreateVM; TransferDeps; TransferDeps; TransferDeps;
                  TransferCodebase; Install; Save; Probe; Probe; Probe; Probe;
                  Probe; Probe]) by (vm_compute; reflexivity).
  split; [exact Hs|].
  unfold in_order. rewrite Hs. cbn [map spec_order ascending].
  intros H.
  repeat match goal with
  | H : _ /\ _ |- _ => destruct H
  | H : Forall _ (_ :: _) |- _ => inversion H; clear H; subst
  end; lia.
Qed.

(** C1, amended. Every [start] of a name without a record (the state
    directory has no directory of that name) that runs to its end performs
    the steps in this order: the port check, (the generation of
    the demo tree on the host, for the demo codebase,) the creation of the
    machine, the transfer of the cached dependencies, the transfer or clone
    of the codebase into the machine, the remote install, the save of the
    record, and only then the readiness probe.  Each of these steps is
    performed. *)
Theorem fresh_start_order (E : Env) (name : string) (rest : list string)
  (w w' : World) (st : nat) (l : list event)
  (Hname : Str.nonempty name = true)
  (Hfresh : record_dir E name w = false)
  (Hrun : command_start E (name :: rest) w = (Ret st, w', l)) :
  in_order code_order l
  /\ (forall s, In s pipeline_steps -> In s (steps l))
  /\ exists d n m p,
       (d = [] \/ d = [Resolve]) /\ steps l = provision_shape d n m p.
Proof.
  rewrite (command_start_named E name rest Hname) in Hrun.
  bind_inv Hrun.
  assert (Hopt : result (parse_options (snd (split_codebase rest)) default_options w)
                 = Ret a) by (rewrite Hm; reflexivity).
  rewrite (parse_options_ret _ _ _ _ Hopt) in Hm. inversion Hm; subst. clear Hm.
  bind_inv Hrun.
  rewrite (existing_instance_new E name _ _ w0 Hfresh) in Hm.
  inversion Hm; subst. clear Hm.
  cbn [app]. destruct (provision_steps _ _ _ _ _ _ _ _ _ Hrun)
    as (d & n & m & p & Hd & Hs).
  split; [|split].
  - unfold in_order. rewrite Hs. apply provision_shape_ascending. exact Hd.
  - intros s Hin. rewrite Hs. apply provision_shape_complete. exact Hin.
  - exists d, n, m, p. auto.
Qed.

Lemma fresh_start_order_witness :
  in_order code_order
    (log (command_start Scenario.env ["x"; "https://github.com/user/repo.git"]
            Scenario.fresh)).
Proof.
  assert (Hrun : command_start Scenario.env
                   ["x"; "https://github.com/user/repo.git"] Scenario.fresh
                 = (Ret 1,
                    world (command_start Scenario.env
                             ["x"; "https://github.com/user/repo.git"]
                             Scenario.fresh),
                    log (command_start Scenario.env
                           ["x"; "https://github.com/user/repo.git"]
                           Scenario.fresh)))
    by (vm_compute; reflexivity).
  exact (proj1 (fresh_start_order Scenario.env "x"
                  ["https://github.com/user/repo.git"] Scenario.fresh _ 1 _
                  eq_refl eq_refl Hrun)).
Defined.

(** ** Exit codes *)

Lemma classify_codebase_not_demo (E : Env) (codebase : string) (w w' : World)
  (cb : codebase_info) (l : list event) :
  Str.nonempty codebase = true ->
  classify_codebase E codebase w = (Ret cb, w', l) ->
  cb_type cb <> Demo.
Proof.
  intros Hne. unfold classify_codebase. rewrite Hne. cbn [negb].
  destruct (is_dir E codebase); [destruct (cd_pwd E codebase)|
                                 destruct (is_remote_url codebase)];
    intros H; inversion H; subst; cbn; discriminate.
Qed.

(** A run of [provision] for a codebase given on the command line returns
    the status of the failed test [[ "$codebase_type" = "demo" ]]. *)
Lemma provision_status (E : Env) (name vm_name codebase : string) (o : Opt.t)
  (w w' : World) (st : nat) (l : list event) :
  Str.nonempty codebase = true ->
  provision E name vm_name codebase o w = (Ret st, w', l) ->
  st = 1.
Proof.
  intros Hne. unfold provision. destruct o.
  assert (Hf : forall cb w1 w2 st' l',
             finish_start E name vm_name port cb w1 = (Ret st', w2, l') ->
             st' = last_status cb).
  { intros cb w1 w2 st' l' H.
    destruct (finish_start_outcome E name vm_name port cb w1) as [Hr _].
    rewrite H in Hr. inversion Hr. reflexivity. }
  revert Hf. generalize (finish_start E name vm_name port). intros f Hf H.
  bind_inv H. bind_inv H.
  pose proof (classify_codebase_not_demo _ _ _ _ _ _ Hne Hm0) as Hcb.
  do 15 bind_inv H.
  apply Hf in H. subst. unfold last_status. destruct (cb_type a0); congruence.
Qed.

(** Every [start] of a new instance with a codebase argument that runs to
    its end returns 1, and [main] then ends the shell with status 1. *)
Lemma start_with_codebase_returns_1 (E : Env) (name : string)
  (rest : list string) (w w' : World) (st : nat) (l : list event) :
  Str.nonempty name = true ->
  record_dir E name w = false ->
  Str.nonempty (fst (split_codebase rest)) = true ->
  command_start E (name :: rest) w = (Ret st, w', l) ->
  st = 1.
Proof.
  intros Hname Hfresh Hcb Hrun.
  rewrite (command_start_named E name rest Hname) in Hrun.
  bind_inv Hrun.
  assert (Hopt : result (parse_options (snd (split_codebase rest)) default_options w)
                 = Ret a) by (rewrite Hm; reflexivity).
  rewrite (parse_options_ret _ _ _ _ Hopt) in Hm. inversion Hm; subst. clear Hm.
  bind_inv Hrun.
  rewrite (existing_instance_new E name _ _ w0 Hfresh) in Hm.
  inversion Hm; subst. clear Hm.
  exact (provision_status _ _ _ _ _ _ _ _ _ Hcb Hrun).
Qed.

(** On a machine where every step succeeds and the service answers,
    [start x /src/proj] provisions the instance (no error message, the
    record stored, the machine running, the ready banner printed) and the
    process exits with code 1, the status of the failed last test; so does
    [start] with a repository URL.  The same [start] with the demo codebase
    exits with code 0, and [status] of a name never started prints
    [not found] and exits with code 1. *)
Example successful_start_exits_1 :
  exit_code Scenario.env ["start"; "x"; "/src/proj"] Scenario.fresh = 1
  /\ existsb (fun e => match e with Stderr _ => true | _ => false end)
       (log (main Scenario.env ["start"; "x"; "/src/proj"] Scenario.fresh)) = false
  /\ existsb (fun e => match e with
                       | Stdout s => String.eqb s "=== Instance 'x' Ready ==="
                       | _ => false
                       end)
       (log (main Scenario.env ["start"; "x"; "/src/proj"] Scenario.fresh)) = true
  /\ lookup "x" (instances (world (main Scenario.env ["start"; "x"; "/src/proj"]
                                     Scenario.fresh)))
     = Some (Some (Config.mk "x" "opengrok-test-x" Local "/src/proj" "8080"
                             "4G" "20G" "2" "22.04" "2026-01-01T00:00:00Z" "" ""))
  /\ lookup "opengrok-test-x"
       (vms (world (main Scenario.env ["start"; "x"; "/src/proj"] Scenario.fresh)))
     = Some (Scenario.machine Running "10.0.0.8")
  /\ exit_code Scenario.env ["start"; "x"; "https://github.com/user/repo.git"]
       Scenario.fresh = 1
  /\ exit_code Scenario.env ["start"; "x"] Scenario.fresh = 0
  /\ exit_code Scenario.env ["status"; "x"] Scenario.fresh = 1
  /\ log (main Scenario.env ["status"; "x"] Scenario.fresh) = [Stdout "not found"].
Proof.
  split; [vm_compute; reflexivity|].
  split; [vm_compute; reflexivity|].
  split; [vm_compute; reflexivity|].
  split; [vm_compute; reflexivity|].
  split; [vm_compute; reflexivity|].
  split; [vm_compute; reflexivity|].
  split; [vm_compute; reflexivity|].
  split; vm_compute; reflexivity.
Qed.

(** *** How a run can end *)

Section ExitStatus.
Context (E : Env).

Lemma fp_ret {A} (a : A) : fails_properly E (ret a).
Proof. intros w c w' l H. discriminate. Qed.

Lemma fp_emit (e : event) : fails_properly E (emit e).
Proof. intros w c w' l H. discriminate. Qed.

Lemma fp_get_world : fails_properly E get_world.
Proof. intros w c w' l H. discriminate. Qed.

Lemma fp_put_world (w0 : World) : fails_properly E (put_world w0).
Proof. intros w c w' l H. discriminate. Qed.

Lemma fp_exit_1 {A} : fails_properly E (@exit A 1).
Proof.
  intros w c w' l H. inversion H; subst. split; [discriminate|left; reflexivity].
Qed.

(** The cause of an exit stays its cause after what ran before. *)
Lemma exit_cause_app (c : nat) (w' : World) (l1 l2 : list event) :
  exit_cause E c w' l2 -> exit_cause E c w' (l1 ++ l2).
Proof.
  intros [H|[(pre & cmd & -> & H)|[(pre & ca & -> & H)|(pre & pr & u & -> & H)]]].
  - left. exact H.
  - right. left. exists (l1 ++ pre)%list, cmd. rewrite app_assoc. auto.
  - right. right. left. exists (l1 ++ pre)%list, ca. rewrite app_assoc. auto.
  - right. right. right. exists (l1 ++ pre)%list, pr, u. rewrite app_assoc. auto.
Qed.

Lemma fp_bind {A B} (m : Sh A) (k : A -> Sh B) :
  fails_properly E m -> (forall a, fails_properly E (k a)) ->
  fails_properly E (bind m k).
Proof.
  intros Hm Hk w c w' l H. unfold bind in H.
  destruct (m w) as [[[a|c1] w1] l1] eqn:Hmw.
  - destruct (k a w1) as [[r w2] l2] eqn:Hkw. inversion H; subst.
    destruct (Hk a w1 c w' l2 Hkw) as [Hc Hcause].
    split; [exact Hc|]. apply exit_cause_app. exact Hcause.
  - inversion H; subst. exact (Hm w c w' l Hmw).
Qed.

Lemma fp_die {A} (msg : string) : fails_properly E (@die A msg).
Proof. apply fp_bind; [apply fp_emit|intros; apply fp_exit_1]. Qed.

Lemma fp_unbound {A} (param : string) : fails_properly E (@unbound A param).
Proof. apply fp_bind; [apply fp_emit|intros; apply fp_exit_1]. Qed.

Lemma fp_info (msg : string) : fails_properly E (info msg).
Proof. apply fp_emit. Qed.

Lemma fp_warn (msg : string) : fails_properly E (warn msg).
Proof. apply fp_emit. Qed.

Lemma fp_multipass (c : mp_cmd) : fails_properly E (multipass E c).
Proof. intros w c0 w' l H. discriminate. Qed.

Lemma fp_errexit_multipass (c : mp_cmd) : fails_properly E (errexit (multipass E c)).
Proof.
  intros w c0 w' l H. cbv [errexit bind multipass ret exit] in H.
  destruct (Nat.eqb (mp_exit E (vms w) c) 0) eqn:Hst; inversion H; subst.
  apply Nat.eqb_neq in Hst. split; [exact Hst|].
  right. left. exists [], c. split; reflexivity.
Qed.

Lemma fp_opener (program url : string) : fails_properly E (opener E program url).
Proof.
  intros w c w' l H. cbv [opener errexit bind emit ret exit] in H.
  destruct (Nat.eqb (open_exit E program url) 0) eqn:Hst; inversion H; subst.
  apply Nat.eqb_neq in Hst. split; [exact Hst|].
  right. right. right. exists [], program, url. split; reflexivity.
Qed.

Lemma fp_errexit_status (m : Sh nat) :
  fails_properly E m -> returns_0_or_1 m -> fails_properly E (errexit m).
Proof.
  intros Hf Hr w c w' l H. unfold errexit, bind in H.
  destruct (m w) as [[[st|c1] w1] l1] eqn:Hm.
  - destruct (Hr w st w1 l1 Hm) as [-> | ->]; cbn in H; inversion H; subst.
    split; [discriminate|left; reflexivity].
  - inversion H; subst. exact (Hf w c w' l Hm).
Qed.

Lemma fp_multipass_info (vm_name : string) : fails_properly E (multipass_info vm_name).
Proof. intros w c w' l H. discriminate. Qed.

Lemma fp_capture {A} (m : Sh A) : fails_properly E (capture m).
Proof.
  intros w c w' l H. unfold capture in H.
  destruct (m w) as [[r w1] l1]. discriminate.
Qed.

End ExitStatus.

Create HintDb sh.

#[local] Hint Resolve fp_ret fp_emit fp_get_world fp_put_world fp_exit_1 fp_die
  fp_unbound fp_info fp_warn fp_multipass fp_errexit_multipass fp_opener
  fp_multipass_info fp_capture : sh.

(** Splits a computation along its binds and tests. *)
Ltac fp :=
  lazymatch goal with
  | |- fails_properly _ (bind _ _) => apply fp_bind; [fp|intros; fp]
  | |- fails_properly _ (if ?b then _ else _) => destruct b; fp
  | |- fails_properly _ (match ?x with _ => _ end) => destruct x; fp
  | |- _ => auto with sh
  end.

Section ExitStatusOfCommands.
Context (E : Env).

Lemma fp_info_grep (vm_name : string) (s : vm_state) :
  fails_properly E (info_grep E vm_name s).
Proof. unfold info_grep. fp. Qed.

Lemma fp_info_ok (vm_name : string) : fails_properly E (info_ok vm_name).
Proof. unfold info_ok. fp. Qed.

Lemma fp_get_vm_ip (vm_name : string) : fails_properly E (get_vm_ip vm_name).
Proof. unfold get_vm_ip. fp. Qed.

Lemma fp_check_multipass : fails_properly E (check_multipass E).
Proof. unfold check_multipass. fp. Qed.

Lemma fp_check_instance_exists (name : string) :
  fails_properly E (check_instance_exists E name).
Proof. unfold check_instance_exists. fp. Qed.

Lemma fp_parse_options (args : list string) (o : Opt.t) :
  fails_properly E (parse_options args o).
Proof.
  intros w c w' l H.
  destruct (parse_options_pure _ args o w (le_n _)) as [(o' & Ho)|(msg & Ho)];
    rewrite Ho in H; inversion H; subst.
  split; [discriminate|left; reflexivity].
Qed.

Lemma fp_port_scan (port name : string) l :
  fails_properly E (port_scan E port name l).
Proof.
  induction l as [|[dir [c|]] l IH]; cbn [port_scan]; [fp| |exact IH].
  pose proof (fp_info_grep (get_vm_name (jq E ".name" Config.name (Some c)))
                Running).
  fp.
Qed.

Lemma fp_check_port_available (port name : string) :
  fails_properly E (check_port_available E port name).
Proof. pose proof (fp_port_scan port name). unfold check_port_available. fp. Qed.

Lemma fp_wait_for_opengrok (url : string) :
  fails_properly E (wait_for_opengrok E url).
Proof.
  intros w c w' l H. rewrite wait_for_opengrok_eq in H.
  destruct (wait_loop_total E url max_attempts 0 w) as (n & _ & [[Hr _]|[Hr _]]);
    rewrite Hr in H; discriminate.
Qed.

Lemma fp_ensure_cache (force : string) : fails_properly E (ensure_cache E force).
Proof.
  unfold ensure_cache.
  apply fp_bind; [fp|intros _]. apply fp_bind; [fp|intros w0].
  destruct (String.eqb force "yes" || negb (cache_dir (deps w0))
            || negb (manifest (deps w0))); [|fp].
  do 2 (apply fp_bind; [fp|intros _]).
  intros w c w' l H. cbv [errexit bind emit put_world ret exit] in H.
  match type of H with
  | context [download E ?ca] =>
      destruct (Nat.eqb (fst (download E ca)) 0) eqn:Hst; inversion H; subst;
      apply Nat.eqb_neq in Hst; split; [exact Hst|];
      right; right; left; exists [], ca; repeat split; reflexivity
  end.
Qed.

Lemma fp_classify_codebase (codebase : string) :
  fails_properly E (classify_codebase E codebase).
Proof. unfold classify_codebase. fp. Qed.

Lemma fp_transfer_deps (vm_name : string) files :
  fails_properly E (transfer_deps E vm_name files).
Proof.
  induction files as [|[file regular] files IH]; cbn [transfer_deps]; fp.
Qed.

Lemma fp_handle_codebase (vm_name : string) (cb : codebase_info)
  (git_depth git_branch : string) :
  fails_properly E (handle_codebase E vm_name cb git_depth git_branch).
Proof. unfold handle_codebase. fp. Qed.

Lemma fp_save_instance_state (name : string) (t : codebase_type)
  (path port memory disk cpus ubuntu git_depth git_branch : string) :
  fails_properly E (save_instance_state E name t path port memory disk cpus
                                        ubuntu git_depth git_branch).
Proof. unfold save_instance_state. fp. Qed.

Lemma fp_load_instance_state (name : string) :
  fails_properly E (load_instance_state name).
Proof. unfold load_instance_state. fp. Qed.

End ExitStatusOfCommands.

#[local] Hint Resolve fp_info_grep fp_info_ok fp_get_vm_ip fp_check_multipass
  fp_check_instance_exists fp_parse_options fp_check_port_available
  fp_wait_for_opengrok fp_ensure_cache fp_classify_codebase fp_transfer_deps
  fp_handle_codebase fp_save_instance_state fp_load_instance_state : sh.

Section ReturnStatus.

Lemma r01_bind {A} (m : Sh A) (k : A -> Sh nat) :
  (forall a, returns_0_or_1 (k a)) -> returns_0_or_1 (bind m k).
Proof.
  intros Hk w st w' l H. apply bind_ret_inv in H.
  destruct H as (a & w1 & l1 & l2 & _ & H & _). exact (Hk a w1 st w' l2 H).
Qed.

Lemma r01_ret_0 : returns_0_or_1 (ret 0).
Proof. intros w st w' l H. inversion H. auto. Qed.

Lemma r01_ret_1 : returns_0_or_1 (ret 1).
Proof. intros w st w' l H. inversion H. auto. Qed.

Lemma r01_die (msg : string) : returns_0_or_1 (die msg).
Proof. intros w st w' l H. discriminate. Qed.

End ReturnStatus.

#[local] Hint Resolve r01_ret_0 r01_ret_1 r01_die : sh.

Ltac r01 :=
  lazymatch goal with
  | |- returns_0_or_1 (bind _ _) => apply r01_bind; intros; r01
  | |- returns_0_or_1 (if ?b then _ else _) => destruct b; r01
  | |- returns_0_or_1 (match ?x with _ => _ end) => destruct x; r01
  | |- _ => auto with sh
  end.

Section Commands.
Context (E : Env).

Lemma existing_instance_done (name vm_name port : string) (w w' : World)
  (done : option nat) (l : list event) :
  existing_instance E name vm_name port w = (Ret done, w', l) ->
  done = Some 0 \/ done = None.
Proof.
  unfold existing_instance. intros H. bind_inv H.
  destruct (record_dir E name a); [|inversion H; subst; auto].
  bind_inv H. bind_inv H.
  destruct a1.
  - repeat bind_inv H. inversion H; subst; auto.
  - bind_inv H. destruct a1.
    + repeat bind_inv H. inversion H; subst; auto.
    + inversion H; subst; auto.
Qed.

Lemma fp_existing_instance (name vm_name port : string) :
  fails_properly E (existing_instance E name vm_name port).
Proof. unfold existing_instance. fp. Qed.

Lemma fp_finish_start (name vm_name port : string) (cb : codebase_info) :
  fails_properly E (finish_start E name vm_name port cb).
Proof.
  intros w c w' l H.
  destruct (finish_start_outcome E name vm_name port cb w) as [Hr _].
  rewrite H in Hr. discriminate.
Qed.

Lemma r01_finish_start (name vm_name port : string) (cb : codebase_info) :
  returns_0_or_1 (finish_start E name vm_name port cb).
Proof.
  intros w st w' l H.
  destruct (finish_start_outcome E name vm_name port cb w) as [Hr _].
  rewrite H in Hr. inversion Hr. unfold last_status. destruct (cb_type cb); auto.
Qed.

Lemma fp_provision (name vm_name codebase : string) (o : Opt.t) :
  fails_properly E (provision E name vm_name codebase o).
Proof.
  pose proof fp_finish_start. unfold provision. destruct o. fp.
Qed.

Lemma r01_provision (name vm_name codebase : string) (o : Opt.t) :
  returns_0_or_1 (provision E name vm_name codebase o).
Proof.
  pose proof r01_finish_start. unfold provision. destruct o. r01.
Qed.

Lemma fp_command_start (args : list string) : fails_properly E (command_start E args).
Proof.
  pose proof fp_provision. pose proof fp_existing_instance.
  unfold command_start. fp.
Qed.

Lemma r01_command_start (args : list string) : returns_0_or_1 (command_start E args).
Proof.
  unfold command_start.
  destruct (negb (Str.nonempty match args with a :: _ => a | [] => "" end));
    [apply r01_die|].
  destruct (split_codebase (tl args)) as [codebase args'].
  apply r01_bind; intros o. intros w st w' l H.
  apply bind_ret_inv in H. destruct H as (done & w1 & l1 & l2 & Hm & H & _).
  destruct (existing_instance_done _ _ _ _ _ _ _ Hm) as [-> | ->].
  - inversion H. auto.
  - exact (r01_provision _ _ _ _ _ _ _ _ H).
Qed.

Lemma fp_command_stop (args : list string) : fails_properly E (command_stop E args).
Proof. unfold command_stop. fp. Qed.

Lemma r01_command_stop (args : list string) : returns_0_or_1 (command_stop E args).
Proof. unfold command_stop. r01. Qed.

Lemma fp_command_destroy (args : list string) : fails_properly E (command_destroy E args).
Proof. unfold command_destroy. fp. Qed.

Lemma r01_command_destroy (args : list string) : returns_0_or_1 (command_destroy E args).
Proof. unfold command_destroy. r01. Qed.

Lemma fp_command_status (args : list string) : fails_properly E (command_status E args).
Proof. unfold command_status. fp. Qed.

Lemma r01_command_status (args : list string) : returns_0_or_1 (command_status E args).
Proof. unfold command_status. r01. Qed.

Lemma fp_command_info (args : list string) : fails_properly E (command_info E args).
Proof. unfold command_info. fp. Qed.

Lemma r01_command_info (args : list string) : returns_0_or_1 (command_info E args).
Proof. unfold command_info. r01. Qed.

Lemma fp_command_open (args : list string) : fails_properly E (command_open E args).
Proof. unfold command_open. fp. Qed.

Lemma r01_command_open (args : list string) : returns_0_or_1 (command_open E args).
Proof. unfold command_open. r01. Qed.

Lemma fp_list_rows l : fails_properly E (list_rows E l).
Proof. induction l as [|[dir [c|]] l IH]; cbn [list_rows]; fp. Qed.

Lemma fp_command_list (args : list string) : fails_properly E (command_list E args).
Proof. pose proof fp_list_rows. unfold command_list. fp. Qed.

Lemma r01_command_list (args : list string) : returns_0_or_1 (command_list E args).
Proof. unfold command_list. r01. Qed.

Lemma fp_command_reindex (args : list string) : fails_properly E (command_reindex E args).
Proof. unfold command_reindex. fp. Qed.

Lemma r01_command_reindex (args : list string) : returns_0_or_1 (command_reindex E args).
Proof. unfold command_reindex. r01. Qed.

Lemma fp_command_shell (args : list string) : fails_properly E (command_shell E args).
Proof. unfold command_shell. fp. Qed.

Lemma r01_command_shell (args : list string) : returns_0_or_1 (command_shell E args).
Proof. unfold command_shell. r01. Qed.

Lemma fp_command_logs (args : list string) : fails_properly E (command_logs E args).
Proof. unfold command_logs. fp. Qed.

Lemma r01_command_logs (args : list string) : returns_0_or_1 (command_logs E args).
Proof. unfold command_logs. r01. Qed.

Lemma fp_command_help : fails_properly E command_help.
Proof. unfold command_help. fp. Qed.

Lemma r01_command_help : returns_0_or_1 command_help.
Proof. unfold command_help. r01. Qed.

End Commands.

#[local] Hint Resolve fp_errexit_status
  fp_command_start r01_command_start fp_command_stop r01_command_stop
  fp_command_destroy r01_command_destroy fp_command_status r01_command_status
  fp_command_info r01_command_info fp_command_open r01_command_open
  fp_command_list r01_command_list fp_command_reindex r01_command_reindex
  fp_command_shell r01_command_shell fp_command_logs r01_command_logs
  fp_command_help r01_command_help : sh.

Lemma fp_main (E : Env) (args : list string) : fails_properly E (main E args).
Proof. unfold main. fp. Qed.

Lemma r01_main (E : Env) (args : list string) : returns_0_or_1 (main E args).
Proof. unfold main. r01. Qed.

(** *** The exit code of the process *)

Lemma exit_code_exit (E : Env) (args : list string) (f : Sh nat) (w w1 : World)
  (c : nat) (l : list event) :
  have_multipass E = true ->
  main E args = (check_multipass E ;; errexit f ;; ret 0) ->
  f w = (Exit c, w1, l) ->
  exit_code E args w = c.
Proof.
  intros Hmp Hmain Hf. unfold exit_code. rewrite Hmain.
  cbv [check_multipass errexit bind ret]. rewrite Hmp, Hf. reflexivity.
Qed.

Lemma exit_code_ret (E : Env) (args : list string) (f : Sh nat) (w w1 : World)
  (st : nat) (l : list event) :
  have_multipass E = true ->
  main E args = (check_multipass E ;; errexit f ;; ret 0) ->
  f w = (Ret st, w1, l) ->
  exit_code E args w = st.
Proof.
  intros Hmp Hmain Hf. unfold exit_code. rewrite Hmain.
  cbv [check_multipass errexit bind ret exit]. rewrite Hmp, Hf.
  destruct st; reflexivity.
Qed.

Lemma check_instance_missing (E : Env) (name : string) (w : World) :
  record_dir E name w = false ->
  check_instance_exists E name w
  = (Exit 1, w,
     [Stderr ("ERROR: Instance '" ++ name ++ "' not found. Run: " ++ script E
              ++ " list")]).
Proof.
  intros H. cbv [check_instance_exists bind get_world]. rewrite H. reflexivity.
Qed.

(** The verbs that need the instance to exist end the shell with status 1
    when it does not. *)
Lemma missing_instance_exits_1 (E : Env) (verb name : string)
  (rest : list string) (w : World) :
  have_multipass E = true ->
  In verb ["stop"; "destroy"; "info"; "open"; "reindex"; "shell"; "logs"] ->
  Str.nonempty name = true ->
  record_dir E name w = false ->
  exit_code E (verb :: name :: rest) w = 1.
Proof.
  intros Hmp Hverb Hname Hrec.
  pose proof (check_instance_missing E name w Hrec) as Hc.
  cbn [In] in Hverb.
  destruct Hverb as [<-|[<-|[<-|[<-|[<-|[<-|[<-|[]]]]]]]].
  - eapply (exit_code_exit E ("stop" :: name :: rest) (command_stop E (name :: rest)) w w 1);
      [exact Hmp|reflexivity|].
    unfold command_stop. rewrite Hname. cbn [negb].
    apply (bind_exit _ _ _ _ _ _ Hc).
  - eapply (exit_code_exit E ("destroy" :: name :: rest) (command_destroy E (name :: rest)) w w 1);
      [exact Hmp|reflexivity|].
    unfold command_destroy. rewrite Hname. cbn [negb].
    apply (bind_exit _ _ _ _ _ _ Hc).
  - eapply (exit_code_exit E ("info" :: name :: rest) (command_info E (name :: rest)) w w 1);
      [exact Hmp|reflexivity|].
    unfold command_info. rewrite Hname. cbn [negb].
    apply (bind_exit _ _ _ _ _ _ Hc).
  - eapply (exit_code_exit E ("open" :: name :: rest) (command_open E (name :: rest)) w w 1);
      [exact Hmp|reflexivity|].
    unfold command_open. rewrite Hname. cbn [negb].
    apply (bind_exit _ _ _ _ _ _ Hc).
  - eapply (exit_code_exit E ("reindex" :: name :: rest) (command_reindex E (name :: rest)) w w 1);
      [exact Hmp|reflexivity|].
    unfold command_reindex. rewrite Hname. cbn [negb].
    apply (bind_exit _ _ _ _ _ _ Hc).
  - eapply (exit_code_exit E ("shell" :: name :: rest) (command_shell E (name :: rest)) w w 1);
      [exact Hmp|reflexivity|].
    unfold command_shell. rewrite Hname. cbn [negb].
    apply (bind_exit _ _ _ _ _ _ Hc).
  - eapply (exit_code_exit E ("logs" :: name :: rest) (command_logs E (name :: rest)) w w 1);
      [exact Hmp|reflexivity|].
    unfold command_logs. rewrite Hname. cbn [negb].
    apply (bind_exit _ _ _ _ _ _ Hc).
Qed.

(** A verb without its name ends the shell with status 1. *)
Lemma missing_name_exits_1 (E : Env) (verb : string) (w : World) :
  have_multipass E = true ->
  In verb ["start"; "stop"; "destroy"; "status"; "info"; "open"; "reindex";
           "shell"; "logs"] ->
  exit_code E [verb] w = 1.
Proof.
  intros Hmp Hverb. cbn [In] in Hverb.
  destruct Hverb as [<-|[<-|[<-|[<-|[<-|[<-|[<-|[<-|[<-|[]]]]]]]]]];
    unfold exit_code, main, check_multipass; rewrite Hmp; reflexivity.
Qed.

(** A new instance on a port that a running instance holds: status 1. *)
Lemma port_conflict_exits_1 (E : Env) (name : string) (rest : list string)
  (w : World) (o : Opt.t) (c : config) :
  have_multipass E = true ->
  Str.nonempty name = true ->
  record_dir E name w = false ->
  result (parse_options (snd (split_codebase rest)) default_options w) = Ret o ->
  conflict E w (Opt.port o) name c ->
  exit_code E ("start" :: name :: rest) w = 1.
Proof.
  intros Hmp Hname Hfresh Hopt Hcf.
  assert (Hscan : result (check_port_available E (Opt.port o) name w) = Exit 1).
  { apply (proj1 (check_port_available_spec E (Opt.port o) name w)).
    exists c. exact Hcf. }
  apply (exit_code_exit E ("start" :: name :: rest) (command_start E (name :: rest)) w
           (world (check_port_available E (Opt.port o) name w)) 1
           (log (check_port_available E (Opt.port o) name w))
           Hmp eq_refl).
  rewrite (command_start_named E name rest Hname).
  rewrite (bind_eq _ _ _ _ _ _ (parse_options_ret _ _ _ _ Hopt)).
  rewrite (bind_eq _ _ _ _ _ _ (existing_instance_new E name _ _ w Hfresh)).
  cbn [app]. unfold provision. destruct o. cbn [Opt.port] in *.
  rewrite (run_eta (check_port_available E port name w)) at 1.
  rewrite Hscan. unfold result at 1, world at 1, log at 1. cbn [fst snd].
  erewrite bind_exit; [reflexivity|].
  rewrite (run_eta (check_port_available E port name w)) at 1.
  rewrite Hscan. reflexivity.
Qed.

Lemma classify_codebase_demo (E : Env) (w w' : World) (cb : codebase_info)
  (l : list event) :
  classify_codebase E "" w = (Ret cb, w', l) -> cb_type cb = Demo.
Proof.
  unfold classify_codebase. cbn [Str.nonempty negb]. intros H.
  bind_inv H. bind_inv H. inversion H. reflexivity.
Qed.

(** Provisioning the demo codebase to its end returns 0. *)
Lemma provision_status_demo (E : Env) (name vm_name : string) (o : Opt.t)
  (w w' : World) (st : nat) (l : list event) :
  provision E name vm_name "" o w = (Ret st, w', l) -> st = 0.
Proof.
  unfold provision. destruct o.
  assert (Hf : forall cb w1 w2 st' l',
             finish_start E name vm_name port cb w1 = (Ret st', w2, l') ->
             st' = last_status cb).
  { intros cb w1 w2 st' l' H.
    destruct (finish_start_outcome E name vm_name port cb w1) as [Hr _].
    rewrite H in Hr. inversion Hr. reflexivity. }
  revert Hf. generalize (finish_start E name vm_name port). intros f Hf H.
  bind_inv H. bind_inv H.
  pose proof (classify_codebase_demo _ _ _ _ _ Hm0) as Hcb.
  do 15 bind_inv H.
  apply Hf in H. subst. unfold last_status. rewrite Hcb. reflexivity.
Qed.

Lemma demo_start_exits_0 (E : Env) (name : string) (rest : list string)
  (w w' : World) (st : nat) (l : list event) :
  have_multipass E = true ->
  Str.nonempty name = true ->
  record_dir E name w = false ->
  fst (split_codebase rest) = "" ->
  command_start E (name :: rest) w = (Ret st, w', l) ->
  exit_code E ("start" :: name :: rest) w = 0.
Proof.
  intros Hmp Hname Hfresh Hdemo Hrun.
  rewrite (exit_code_ret E ("start" :: name :: rest) _ w w' st l Hmp eq_refl Hrun).
  rewrite (command_start_named E name rest Hname) in Hrun.
  bind_inv Hrun.
  assert (Hopt : result (parse_options (snd (split_codebase rest)) default_options w)
                 = Ret a) by (rewrite Hm; reflexivity).
  rewrite (parse_options_ret _ _ _ _ Hopt) in Hm. inversion Hm; subst. clear Hm.
  bind_inv Hrun.
  rewrite (existing_instance_new E name _ _ w0 Hfresh) in Hm.
  inversion Hm; subst. clear Hm.
  rewrite Hdemo in Hrun.
  exact (provision_status_demo _ _ _ _ _ _ _ _ Hrun).
Qed.

Lemma status_not_found (E : Env) (name : string) (w : World) :
  have_multipass E = true ->
  Str.nonempty name = true ->
  record_dir E name w = false ->
  main E ["status"; name] w = (Exit 1, w, [Stdout "not found"])
  /\ exit_code E ["status"; name] w = 1.
Proof.
  intros Hmp Hname Hrec.
  assert (H : main E ["status"; name] w = (Exit 1, w, [Stdout "not found"])).
  { change (main E ["status"; name])
      with (check_multipass E ;; errexit (command_status E [name]) ;; ret 0).
    cbv [check_multipass command_status errexit bind get_world info emit ret exit].
    rewrite Hmp. cbv beta iota. rewrite Hname. cbn [negb]. cbv beta iota.
    rewrite Hrec. reflexivity. }
  split; [exact H|]. unfold exit_code, errexit, bind. rewrite H. reflexivity.
Qed.

Lemma bad_option_exits_1 (E : Env) (name : string) (rest : list string)
  (w : World) (c : nat) :
  have_multipass E = true ->
  Str.nonempty name = true ->
  result (parse_options (snd (split_codebase rest)) default_options w) = Exit c ->
  exit_code E ("start" :: name :: rest) w = 1.
Proof.
  intros Hmp Hname Hopt.
  destruct (parse_options_pure _ (snd (split_codebase rest)) default_options w
              (le_n _)) as [(o & Ho)|(msg & Ho)];
    rewrite Ho in Hopt; [discriminate|].
  eapply (exit_code_exit E ("start" :: name :: rest)
            (command_start E (name :: rest)) w w 1);
    [exact Hmp|reflexivity|].
  rewrite (command_start_named E name rest Hname).
  apply (bind_exit _ _ _ _ _ _ Ho).
Qed.

Lemma invalid_codebase_exits_1 (E : Env) (name : string) (rest : list string)
  (w : World) (o : Opt.t) :
  have_multipass E = true ->
  Str.nonempty name = true ->
  record_dir E name w = false ->
  result (parse_options (snd (split_codebase rest)) default_options w) = Ret o ->
  (forall c, ~ conflict E w (Opt.port o) name c) ->
  Str.nonempty (fst (split_codebase rest)) = true ->
  is_dir E (fst (split_codebase rest)) = false ->
  is_remote_url (fst (split_codebase rest)) = false ->
  exit_code E ("start" :: name :: rest) w = 1.
Proof.
  intros Hmp Hname Hfresh Hopt Hfree Hne Hdir Hurl.
  set (p := Opt.port o) in *.
  assert (Hscan : check_port_available E p name w
                  = (Ret tt, w, log (check_port_available E p name w))).
  { rewrite (run_eta (check_port_available E p name w)) at 1.
    destruct (check_port_available_spec E p name w) as (_ & _ & Hret & Hw).
    rewrite (Hret Hfree), Hw. reflexivity. }
  eapply (exit_code_exit E ("start" :: name :: rest)
            (command_start E (name :: rest)) w w 1
            (log (check_port_available E p name w)
             ++ [invalid_codebase (fst (split_codebase rest))])%list);
    [exact Hmp|reflexivity|].
  rewrite (command_start_named E name rest Hname).
  rewrite (bind_eq _ _ _ _ _ _ (parse_options_ret _ _ _ _ Hopt)).
  rewrite (bind_eq _ _ _ _ _ _ (existing_instance_new E name _ _ w Hfresh)).
  cbn [app]. unfold provision. subst p. destruct o. cbn [Opt.port] in *.
  rewrite (bind_eq _ _ _ _ _ _ Hscan).
  cbn [result world log fst snd].
  assert (Hcl : classify_codebase E (fst (split_codebase rest)) w
                = (Exit 1, w, [invalid_codebase (fst (split_codebase rest))])).
  { unfold classify_codebase. rewrite Hne, Hdir, Hurl. reflexivity. }
  rewrite (bind_exit _ _ _ _ _ _ Hcl). reflexivity.
Qed.

Lemma exit_code_cases (E : Env) (args : list string) (w : World) :
  (exit_code E args w = 0 <-> result (errexit (main E args) w) = Ret tt)
  /\ (exit_code E args w <> 0 ->
      exit_cause E (exit_code E args w) (world (errexit (main E args) w))
                 (log (errexit (main E args) w))).
Proof.
  pose proof (fp_errexit_status E (main E args) (fp_main E args) (r01_main E args))
    as Hfp.
  unfold exit_code.
  destruct (errexit (main E args) w) as [[[u|c] w'] l] eqn:H;
    cbn [result world log fst snd].
  - destruct u. split; [split; reflexivity|intros Hc; congruence].
  - destruct (Hfp w c w' l H) as [Hc Hst]. split; [|intros _; exact Hst].
    split; [intros H0; congruence|discriminate].
Qed.

(** C2 as stated fails: the clone inside the machine fails with status 128
    and the process exits with 128, not 1. *)
Lemma backend_status_is_exit_code :
  exit_code Scenario.env_clone_fails
    ["start"; "x"; "https://example.org/missing.git"] Scenario.fresh = 128
  /\ hd_error (rev (log (main Scenario.env_clone_fails
                           ["start"; "x"; "https://example.org/missing.git"]
                           Scenario.fresh)))
     = Some (Multipass (MpExec "opengrok-test-x"
               ["bash"; "-c";
                "git clone https://example.org/missing.git /tmp/source-code"])).
Proof. split; vm_compute; reflexivity. Qed.

(** C2, amended. With the backend installed, the exit code of every
    invocation is 0 exactly when no command of the script failed.
    Otherwise it is 1, or it is the status that the last action of the run
    returned, this action being a backend command, the downloader or the
    opener of the browser.  It is 1 for a verb without its name, for a bad
    option or an invalid codebase of [start], for a missing instance (the
    state directory has no directory of that name), and for a port conflict.
    A [start] of a new instance with the demo codebase that runs to its end
    exits with 0.  [status] of a name without a directory in the state
    directory prints [not found] and exits with 1; that is so for every
    name never started that can be the name of a directory entry. *)
Theorem exit_codes (E : Env) (Hmp : have_multipass E = true) :
  (forall args w,
     exit_code E args w = 0 <-> result (errexit (main E args) w) = Ret tt)
  /\ (forall args w,
        exit_code E args w <> 0 ->
        exit_cause E (exit_code E args w) (world (errexit (main E args) w))
                   (log (errexit (main E args) w)))
  /\ (forall verb w,
        In verb ["start"; "stop"; "destroy"; "status"; "info"; "open";
                 "reindex"; "shell"; "logs"] ->
        exit_code E [verb] w = 1)
  /\ (forall name rest w c,
        Str.nonempty name = true ->
        result (parse_options (snd (split_codebase rest)) default_options w)
        = Exit c ->
        exit_code E ("start" :: name :: rest) w = 1)
  /\ (forall name rest w o,
        Str.nonempty name = true ->
        record_dir E name w = false ->
        result (parse_options (snd (split_codebase rest)) default_options w)
        = Ret o ->
        (forall c, ~ conflict E w (Opt.port o) name c) ->
        Str.nonempty (fst (split_codebase rest)) = true ->
        is_dir E (fst (split_codebase rest)) = false ->
        is_remote_url (fst (split_codebase rest)) = false ->
        exit_code E ("start" :: name :: rest) w = 1)
  /\ (forall verb name rest w,
        In verb ["stop"; "destroy"; "info"; "open"; "reindex"; "shell"; "logs"] ->
        Str.nonempty name = true ->
        record_dir E name w = false ->
        exit_code E (verb :: name :: rest) w = 1)
  /\ (forall name rest w o c,
        Str.nonempty name = true ->
        record_dir E name w = false ->
        result (parse_options (snd (split_codebase rest)) default_options w)
        = Ret o ->
        conflict E w (Opt.port o) name c ->
        exit_code E ("start" :: name :: rest) w = 1)
  /\ (forall name rest w w' st l,
        Str.nonempty name = true ->
        record_dir E name w = false ->
        fst (split_codebase rest) = "" ->
        command_start E (name :: rest) w = (Ret st, w', l) ->
        exit_code E ("start" :: name :: rest) w = 0)
  /\ (forall name w,
        Str.nonempty name = true ->
        record_dir E name w = false ->
        main E ["status"; name] w = (Exit 1, w, [Stdout "not found"])
        /\ exit_code E ["status"; name] w = 1)
  /\ (forall name w,
        plain name = true ->
        has name (instances w) = false ->
        main E ["status"; name] w = (Exit 1, w, [Stdout "not found"])
        /\ exit_code E ["status"; name] w = 1).
Proof.
  split; [intros args w; apply exit_code_cases|].
  split; [intros args w; apply exit_code_cases|].
  split; [intros verb w; apply missing_name_exits_1; exact Hmp|].
  split; [intros name rest w c; apply bad_option_exits_1; exact Hmp|].
  split; [intros name rest w o; apply invalid_codebase_exits_1; exact Hmp|].
  split; [intros verb name rest w; apply missing_instance_exits_1; exact Hmp|].
  split; [intros name rest w o c; apply port_conflict_exits_1; exact Hmp|].
  split; [intros name rest w w' st l; apply demo_start_exits_0; exact Hmp|].
  split; [intros name w; apply status_not_found; exact Hmp|].
  intros name w Hplain Hrec. apply status_not_found; [exact Hmp| |].
  - unfold plain in Hplain. destruct (Str.nonempty name); [reflexivity|discriminate].
  - rewrite record_dir_plain; assumption.
Qed.

Lemma exit_codes_witness :
  main Scenario.env ["status"; "x"] Scenario.fresh
    = (Exit 1, Scenario.fresh, [Stdout "not found"])
  /\ exit_code Scenario.env ["status"; "x"] Scenario.fresh = 1.
Proof.
  apply (exit_codes Scenario.env eq_refl); reflexivity.
Defined.

(** * Further properties of the script *)

(** ** The store as a map *)

Lemma lookup_upsert_other {V} (k k' : string) (v : V) (l : list (string * V)) :
  k' <> k -> lookup k' (upsert k v l) = lookup k' l.
Proof.
  intros Hne. apply String.eqb_neq in Hne.
  induction l as [|[k0 v0] l IH]; cbn.
  - rewrite Hne. reflexivity.
  - destruct (String.eqb k k0) eqn:Hk; cbn.
    + apply String.eqb_eq in Hk. subst k0. rewrite Hne. reflexivity.
    + destruct (String.ltb k k0); cbn.
      * rewrite Hne. reflexivity.
      * destruct (String.eqb k' k0); [reflexivity|exact IH].
Qed.

Lemma lookup_remove {V} (k : string) (l : list (string * V)) :
  lookup k (remove k l) = None.
Proof.
  induction l as [|[k0 v0] l IH]; cbn; [reflexivity|].
  destruct (String.eqb k k0) eqn:Hk; [exact IH|].
  cbn. rewrite Hk. exact IH.
Qed.

Lemma lookup_remove_other {V} (k k' : string) (l : list (string * V)) :
  k' <> k -> lookup k' (remove k l) = lookup k' l.
Proof.
  intros Hne. apply String.eqb_neq in Hne.
  induction l as [|[k0 v0] l IH]; cbn; [reflexivity|].
  destruct (String.eqb k k0) eqn:Hk.
  - apply String.eqb_eq in Hk. subst k0. rewrite Hne. exact IH.
  - cbn. destruct (String.eqb k' k0); [reflexivity|exact IH].
Qed.

Lemma get_vm_name_inj (a b : string) : get_vm_name a = get_vm_name b -> a = b.
Proof. unfold get_vm_name. cbn. intros H. inversion H. reflexivity. Qed.

Lemma get_vm_name_neq (a b : string) : a <> b -> get_vm_name a <> get_vm_name b.
Proof. intros Hne H. apply Hne. exact (get_vm_name_inj a b H). Qed.

(** ** status *)

Lemma command_status_run (E : Env) (name : string) (w : World) :
  Str.nonempty name = true ->
  record_dir E name w = true ->
  result (command_status E [name] w) = Ret 0
  /\ world (command_status E [name] w) = w
  /\ stdout_of (log (command_status E [name] w))
     = [status_word E w (get_vm_name name)]
  /\ existsb effectful (log (command_status E [name] w)) = false.
Proof.
  intros Hname Hrec. unfold status_word.
  cbv [command_status bind get_world info emit ret]. rewrite Hname. cbn [negb].
  cbv beta iota. rewrite Hrec. cbn [negb]. rewrite info_grep_run.
  destruct (observed E Running w (get_vm_name name));
    [repeat split; reflexivity|].
  cbv beta iota. rewrite info_grep_run.
  destruct (observed E Stopped w (get_vm_name name));
    repeat split; reflexivity.
Qed.

Lemma status_is_missing (E : Env) (name : string) (w : World) :
  Str.nonempty name = true ->
  record_dir E name w = false ->
  command_status E [name] w = (Ret 1, w, [Stdout "not found"]).
Proof.
  intros Hname Hrec. cbv [command_status bind get_world info emit ret].
  rewrite Hname. cbn [negb]. cbv beta iota. rewrite Hrec. reflexivity.
Qed.

Lemma status_word_running (E : Env) (w : World) (vm_name : string) :
  String.eqb (status_word E w vm_name) "running" = observed_running E w vm_name.
Proof.
  unfold status_word, observed_running.
  destruct (observed E Running w vm_name);
    [|destruct (observed E Stopped w vm_name)]; reflexivity.
Qed.

Lemma observed_spec (E : Env) (s : vm_state) (w : World) (vm_name : string) :
  observed E s w vm_name
  = match lookup vm_name (vms w) with
    | Some m => vm_state_eqb (state m) s || stray E s vm_name
    | None => false
    end.
Proof.
  unfold observed. destruct (lookup vm_name (vms w)); [apply seen_spec|reflexivity].
Qed.

(** X21. The port check never changes the world and either returns or ends
    the script with status 1.  It ends the script exactly when the glob
    visits a record in which [jq] reads the requested port and another
    name, and whose machine is observed running (it exists and the word
    [Running] occurs in what the backend reports on it); the message then
    names such a record.  For a record whose document is a safe one and
    whose machine name and report hold the word [Running] nowhere but in
    the state, that is: the stored port is the requested one, the stored
    name is another one, and the state of the machine is [Running]. *)
Theorem port_check_characterised (E : Env) (port name : string) (w : World) :
  (result (check_port_available E port name w) = Exit 1
     <-> exists c, conflict E w port name c)
  /\ (result (check_port_available E port name w) = Exit 1 ->
      exists c pre,
        conflict E w port name c
        /\ log (check_port_available E port name w)
           = (pre ++ [port_conflict port (read_name E c)])%list)
  /\ (result (check_port_available E port name w) = Ret tt
      \/ result (check_port_available E port name w) = Exit 1)
  /\ world (check_port_available E port name w) = w
  /\ (forall c,
        stored w c -> json_safe c = true ->
        stray E Running (get_vm_name (Config.name c)) = false ->
        (conflict E w port name c <-> owner_runs w port name c)).
Proof.
  destruct (check_port_available_spec E port name w) as (Hiff & Hmsg & Hret & Hw).
  split; [exact Hiff|]. split; [exact Hmsg|]. split; [|split; [exact Hw|]].
  - destruct (blocker_dec E w port name (instances w)) as [Hn|(d & c & Hin & Hb)].
    + left. apply Hret. intros c Hc.
      apply (conflict_blocks E w port name) in Hc.
      destruct Hc as (d & Hin & Hb). rewrite (Hn d c Hin) in Hb. discriminate.
    + right. apply Hiff. exists c. apply (conflict_blocks E w port name). eauto.
  - intros c Hst Hsafe Hstray. unfold conflict, owner_runs.
    unfold read_port, read_name. rewrite !jq_safe by exact Hsafe.
    unfold observed_running. rewrite observed_spec, Hstray.
    destruct Hst as (dir & Hin & Hg). split.
    + intros (_ & Hp & Hn & Hobs). split; [eauto|]. split; [exact Hp|].
      split; [exact Hn|].
      destruct (lookup (get_vm_name (Config.name c)) (vms w)) as [m|];
        [|discriminate].
      exists m. split; [reflexivity|]. rewrite orb_false_r in Hobs.
      apply vm_state_eqb_eq. exact Hobs.
    + intros (_ & Hp & Hn & m & Hm & Hs). split; [exists dir; auto|].
      split; [exact Hp|]. split; [exact Hn|]. rewrite Hm, orb_false_r.
      apply vm_state_eqb_eq. exact Hs.
Qed.

(** Where no word strays, the word printed is the state of the machine. *)
Lemma status_word_state (E : Env) (w : World) (vm_name : string) (m : vm) :
  lookup vm_name (vms w) = Some m ->
  stray E Running vm_name = false ->
  stray E Stopped vm_name = false ->
  status_word E w vm_name = state_word (state m).
Proof.
  intros Hvm Hr Hs. unfold status_word. rewrite !observed_spec, Hvm, Hr, Hs.
  destruct (state m); reflexivity.
Qed.

(** X1. [status <name>] only reads: it changes neither the records nor the
    machines and runs no command but [multipass info].  When the state
    directory has no directory [<name>] it prints [not found] and returns
    1; for a plain name that is when there is no record.  Otherwise it
    returns 0 and prints one word: [running] when the word [Running]
    occurs in what the backend reports on the machine, else [stopped] when
    [Stopped] occurs there, else [unknown], also when there is no machine.
    The word is that of the state of the machine when neither word occurs
    in the name of the machine or in the other lines of the report; a
    stopped machine with [Running] in its name is reported as running. *)
Theorem status_is_read_only (E : Env) (name : string) (w : World)
  (Hname : Str.nonempty name = true) :
  world (command_status E [name] w) = w
  /\ existsb effectful (log (command_status E [name] w)) = false
  /\ (record_dir E name w = false ->
      command_status E [name] w = (Ret 1, w, [Stdout "not found"]))
  /\ (plain name = true ->
      record_dir E name w = has name (instances w))
  /\ (record_dir E name w = true ->
      result (command_status E [name] w) = Ret 0
      /\ stdout_of (log (command_status E [name] w))
         = [if observed E Running w (get_vm_name name) then "running"
            else if observed E Stopped w (get_vm_name name) then "stopped"
            else "unknown"]
      /\ (lookup (get_vm_name name) (vms w) = None ->
          stdout_of (log (command_status E [name] w)) = ["unknown"])
      /\ (forall m,
            lookup (get_vm_name name) (vms w) = Some m ->
            stray E Running (get_vm_name name) = false ->
            stray E Stopped (get_vm_name name) = false ->
            stdout_of (log (command_status E [name] w))
            = [state_word (state m)])
      /\ (forall m,
            lookup (get_vm_name name) (vms w) = Some m ->
            Str.contains "Running" name = true ->
            stdout_of (log (command_status E [name] w)) = ["running"])).
Proof.
  pose proof (status_is_missing E name w Hname) as Hmiss.
  destruct (record_dir E name w) eqn:Hrec.
  - destruct (command_status_run E name w Hname Hrec) as (Hr & Hw & Hout & Heff).
    split; [exact Hw|]. split; [exact Heff|]. split; [discriminate|].
    split; [intros Hp; rewrite <- Hrec; apply record_dir_plain; exact Hp|].
    intros _. split; [exact Hr|]. split; [exact Hout|]. split; [|split].
    + intros Hvm. rewrite Hout. unfold status_word, observed. rewrite Hvm.
      reflexivity.
    + intros m Hvm H1 H2. rewrite Hout.
      rewrite (status_word_state E w _ m Hvm H1 H2). reflexivity.
    + intros m Hvm Hc. rewrite Hout. unfold status_word.
      rewrite observed_spec, Hvm. unfold stray, get_vm_name. cbn [state_text].
      rewrite (contains_skip "Running" "opengrok-test-" name), Hc.
      * rewrite Bool.orb_true_r. reflexivity.
      * intros a w' Hw'. inversion Hw'. reflexivity.
      * discriminate.
  - rewrite (Hmiss eq_refl). split; [reflexivity|]. split; [reflexivity|].
    split; [auto|].
    split; [intros Hp; rewrite <- Hrec; apply record_dir_plain; exact Hp|].
    discriminate.
Qed.

Lemma status_is_read_only_witness :
  stdout_of (log (command_status Scenario.env ["a"] (Scenario.with_a Stopped)))
  = ["stopped"].
Proof.
  destruct (status_is_read_only Scenario.env "a" (Scenario.with_a Stopped) eq_refl)
    as (_ & _ & _ & _ & H).
  destruct (H eq_refl) as (_ & Hout & _). rewrite Hout. reflexivity.
Defined.

(** The directory test at a name that is no entry name: [status .] in a
    state directory that exists prints [unknown] and returns 0. *)
Example status_of_dot :
  has "." (instances (Scenario.with_a Running)) = false
  /\ command_status Scenario.env ["."] (Scenario.with_a Running)
     = (Ret 0, Scenario.with_a Running,
        [Multipass (MpInfo "opengrok-test-."); Multipass (MpInfo "opengrok-test-.");
         Stdout "unknown"]).
Proof. split; reflexivity. Qed.

(** ** destroy *)

Lemma has_lookup {V} (k : string) (l : list (string * V)) :
  has k l = false <-> lookup k l = None.
Proof. unfold has. destruct (lookup k l); split; congruence. Qed.

(** X2. [destroy <name>] of an instance with a record returns 0 and removes
    the record whether or not the backend could delete the machine (a
    failure only gives a warning); the records and machines of every other
    instance are left as they were, and [status <name>] then prints
    [not found] and returns 1 (the name being the plain name of a directory
    entry). *)
Theorem destroy_removes_record (E : Env) (name : string) (rest : list string)
  (w : World)
  (Hname : Str.nonempty name = true)
  (Hrec : has name (instances w) = true) :
  result (command_destroy E (name :: rest) w) = Ret 0
  /\ lookup name (instances (world (command_destroy E (name :: rest) w))) = None
  /\ (forall other, other <> name ->
        lookup other (instances (world (command_destroy E (name :: rest) w)))
        = lookup other (instances w)
        /\ lookup (get_vm_name other)
             (vms (world (command_destroy E (name :: rest) w)))
           = lookup (get_vm_name other) (vms w))
  /\ (mp_exit E (vms w) (MpDeletePurge (get_vm_name name)) <> 0 ->
      In (Stderr "WARNING: VM may not exist")
         (log (command_destroy E (name :: rest) w))
      /\ vms (world (command_destroy E (name :: rest) w)) = vms w)
  /\ (plain name = true ->
      command_status E [name] (world (command_destroy E (name :: rest) w))
      = (Ret 1, world (command_destroy E (name :: rest) w), [Stdout "not found"])).
Proof.
  assert (Hrun : command_destroy E (name :: rest) w
                 = (Ret 0,
                    set_instances
                      (if Nat.eqb (mp_exit E (vms w) (MpDeletePurge (get_vm_name name))) 0
                       then set_vms w (remove (get_vm_name name) (vms w)) else w)
                      (remove name (instances w)),
                    ([Stdout ("Destroying instance '" ++ name ++ "'...");
                      Multipass (MpDeletePurge (get_vm_name name))]
                     ++ (if Nat.eqb (mp_exit E (vms w)
                                       (MpDeletePurge (get_vm_name name))) 0
                         then [] else [Stderr "WARNING: VM may not exist"])
                     ++ [RmRf (STATE_DIR E ++ "/" ++ name);
                         Stdout "Instance destroyed"])%list)).
  { cbv [command_destroy check_instance_exists bind get_world put_world info
         warn emit multipass ret].
    rewrite Hname. cbn [negb]. cbv beta iota.
    rewrite (record_dir_has E name w Hrec). cbv beta iota.
    destruct (Nat.eqb (mp_exit E (vms w) (MpDeletePurge (get_vm_name name))) 0);
      reflexivity. }
  rewrite Hrun. cbn [result world log fst snd]. clear Hrun.
  assert (Hgone : lookup name (remove name (instances w)) = None)
    by apply lookup_remove.
  split; [reflexivity|].
  split; [destruct (Nat.eqb _ 0); exact Hgone|].
  split; [|split].
  - intros other Hne. split.
    + destruct (Nat.eqb _ 0); cbn [instances set_instances];
        apply lookup_remove_other; exact Hne.
    + destruct (Nat.eqb _ 0); cbn [vms set_instances set_vms]; [|reflexivity].
      apply lookup_remove_other. apply get_vm_name_neq. exact Hne.
  - intros Hst. apply Nat.eqb_neq in Hst. rewrite Hst. split; [|reflexivity].
    cbn. auto.
  - intros Hplain. apply (status_is_missing E name _ Hname).
    rewrite (record_dir_plain E name _ Hplain).
    apply has_lookup. destruct (Nat.eqb _ 0); exact Hgone.
Qed.

Lemma destroy_removes_record_witness :
  lookup "b" (instances (world (command_destroy Scenario.env ["b"]
                                  (Scenario.with_a_b Stopped)))) = None
  /\ lookup "a" (instances (world (command_destroy Scenario.env ["b"]
                                     (Scenario.with_a_b Stopped))))
     = lookup "a" (instances (Scenario.with_a_b Stopped)).
Proof.
  destruct (destroy_removes_record Scenario.env "b" [] (Scenario.with_a_b Stopped)
              eq_refl eq_refl) as (_ & Hgone & Hframe & _).
  split; [exact Hgone|].
  apply (Hframe "a"). discriminate.
Defined.

(** ** stop *)

(** X3. [stop <name>] of an instance with a record: when the backend's
    [stop] fails, whatever its status, the script prints
    [Failed to stop VM] and ends with status 1, leaving records and machines
    as they were; when it succeeds the command returns 0, the records are
    unchanged, no other machine is touched, and a machine that exists is
    then stopped.  [status <name>] then prints [stopped], unless the word
    [Running] occurs in the name of the machine or in the other lines the
    backend reports on it: then it still prints [running]. *)
Theorem stop_outcome (E : Env) (name : string) (rest : list string) (w : World)
  (Hname : Str.nonempty name = true)
  (Hrec : has name (instances w) = true) :
  (mp_exit E (vms w) (MpStop (get_vm_name name)) <> 0 ->
   command_stop E (name :: rest) w
   = (Exit 1, w,
      [Stdout ("Stopping instance '" ++ name ++ "'...");
       Multipass (MpStop (get_vm_name name));
       Stderr "ERROR: Failed to stop VM"]))
  /\ (mp_exit E (vms w) (MpStop (get_vm_name name)) = 0 ->
      result (command_stop E (name :: rest) w) = Ret 0
      /\ instances (world (command_stop E (name :: rest) w)) = instances w
      /\ (forall other, other <> name ->
            lookup (get_vm_name other) (vms (world (command_stop E (name :: rest) w)))
            = lookup (get_vm_name other) (vms w))
      /\ (forall m, lookup (get_vm_name name) (vms w) = Some m ->
            lookup (get_vm_name name) (vms (world (command_stop E (name :: rest) w)))
            = Some {| state := Stopped; ipv4 := ipv4 m |}
            /\ stdout_of (log (command_status E [name]
                                 (world (command_stop E (name :: rest) w))))
               = [if stray E Running (get_vm_name name) then "running"
                  else "stopped"])).
Proof.
  pose proof (record_dir_has E name w Hrec) as Hdir.
  split.
  - intros Hst. apply Nat.eqb_neq in Hst.
    cbv [command_stop check_instance_exists bind get_world info emit multipass
         die exit ret].
    rewrite Hname. cbn [negb]. cbv beta iota. rewrite Hdir. cbv beta iota.
    rewrite Hst. reflexivity.
  - intros Hst.
    assert (Hrun : command_stop E (name :: rest) w
                   = (Ret 0,
                      set_vms w (mp_effect E (MpStop (get_vm_name name)) (vms w)),
                      [Stdout ("Stopping instance '" ++ name ++ "'...");
                       Multipass (MpStop (get_vm_name name));
                       Stdout "Instance stopped (VM preserved for quick restart)"])).
    { cbv [command_stop check_instance_exists bind get_world info emit multipass
           die exit ret].
      rewrite Hname. cbn [negb]. cbv beta iota. rewrite Hdir. cbv beta iota.
      rewrite Hst. reflexivity. }
    rewrite Hrun. cbn [result world fst snd instances vms set_vms mp_effect].
    split; [reflexivity|]. split; [reflexivity|]. split.
    + intros other Hne.
      destruct (lookup (get_vm_name name) (vms w)); [|reflexivity].
      apply lookup_upsert_other. apply get_vm_name_neq. exact Hne.
    + intros m Hvm. rewrite Hvm.
      assert (Hl : lookup (get_vm_name name)
                     (upsert (get_vm_name name)
                        {| state := Stopped; ipv4 := ipv4 m |} (vms w))
                   = Some {| state := Stopped; ipv4 := ipv4 m |})
        by apply lookup_upsert.
      split; [exact Hl|].
      destruct (command_status_run E name
                  (set_vms w (upsert (get_vm_name name)
                                {| state := Stopped; ipv4 := ipv4 m |} (vms w)))
                  Hname Hdir) as (_ & _ & Hout & _).
      rewrite Hout. unfold status_word. rewrite !observed_spec.
      cbn [vms set_vms]. rewrite Hl. cbn [state vm_state_eqb orb].
      destruct (stray E Running (get_vm_name name)); reflexivity.
Qed.

Lemma stop_outcome_witness :
  stdout_of (log (command_status Scenario.env ["a"]
                    (world (command_stop Scenario.env ["a"]
                              (Scenario.with_a Running)))))
  = ["stopped"].
Proof.
  destruct (stop_outcome Scenario.env "a" [] (Scenario.with_a Running)
              eq_refl eq_refl) as [_ H].
  destruct (H eq_refl) as (_ & _ & _ & Hm).
  exact (proj2 (Hm (Scenario.machine Running "10.0.0.7") eq_refl)).
Defined.

(** ** The state store *)

(** X4. [save_instance_state] always returns and then [load_instance_state]
    gives back the record with exactly the fields that were passed, the
    machine name derived from the instance name and the date of the save; a
    record saved before under the same name is replaced, the records of all
    other names, the machines and the cache are untouched. *)
Theorem save_then_load (E : Env) (name : string) (t : codebase_type)
  (path port memory disk cpus ubuntu git_depth git_branch : string) (w : World) :
  result (save_instance_state E name t path port memory disk cpus ubuntu
                              git_depth git_branch w) = Ret tt
  /\ load_instance_state name
       (world (save_instance_state E name t path port memory disk cpus ubuntu
                                   git_depth git_branch w))
     = (Ret (Some (Config.mk name (get_vm_name name) t path port memory disk
                             cpus ubuntu (date E) git_depth git_branch)),
        world (save_instance_state E name t path port memory disk cpus ubuntu
                                   git_depth git_branch w), [])
  /\ (forall other, other <> name ->
        lookup other
          (instances (world (save_instance_state E name t path port memory disk
                                                 cpus ubuntu git_depth git_branch w)))
        = lookup other (instances w))
  /\ vms (world (save_instance_state E name t path port memory disk cpus ubuntu
                                     git_depth git_branch w)) = vms w
  /\ deps (world (save_instance_state E name t path port memory disk cpus ubuntu
                                      git_depth git_branch w)) = deps w.
Proof.
  cbv [save_instance_state bind emit get_world put_world ret].
  unfold set_instances. cbn [result world fst snd instances vms deps].
  split; [reflexivity|]. split; [|split; [|split; reflexivity]].
  - cbv [load_instance_state bind get_world ret]. cbn [instances].
    rewrite lookup_upsert. reflexivity.
  - intros other Hne. apply lookup_upsert_other. exact Hne.
Qed.

(** ** Options *)

Lemma parse_app_n (n : nat) :
  forall (l1 l2 : list string) (o o1 : Opt.t) (w : World),
    List.length l1 <= n ->
    parse_options l1 o w = (Ret o1, w, []) ->
    parse_options (l1 ++ l2) o w = parse_options l2 o1 w.
Proof.
  induction n as [|n IH]; intros l1 l2 o o1 w Hlen Hp.
  - destruct l1; [|cbn in Hlen; lia]. cbn in Hp. inversion Hp. reflexivity.
  - destruct l1 as [|a rest]; [cbn in Hp; inversion Hp; reflexivity|].
    cbn in Hlen. cbn [app]. cbn [parse_options] in Hp |- *. destruct o.
    repeat match goal with
    | |- context [if String.eqb a ?b then _ else _] =>
        destruct (String.eqb a b)
    end;
    try (destruct rest as [|v rest'];
         [discriminate Hp|cbn [app]; apply (IH rest'); [cbn in Hlen; lia|exact Hp]]);
    try (apply (IH rest); [lia|exact Hp]).
    discriminate Hp.
Qed.

(** X5. Options are parsed left to right and compose: when a list of
    arguments parses to some options, parsing it followed by more arguments
    is parsing the additional arguments from those options.  In particular
    a later occurrence of an option replaces an earlier one, and the
    arguments of a value option are taken as they are, whatever they look
    like. *)
Theorem parse_options_app (l1 l2 : list string) (o o1 : Opt.t) (w : World)
  (Hp : result (parse_options l1 o w) = Ret o1) :
  parse_options (l1 ++ l2) o w = parse_options l2 o1 w.
Proof.
  apply (parse_app_n (List.length l1) l1 l2 o o1 w (le_n _)).
  apply parse_options_ret. exact Hp.
Qed.

Lemma parse_options_app_witness :
  parse_options (["--port"; "9000"; "--memory"; "8G"] ++ ["--port"; "--no-cache"])
                default_options Scenario.fresh
  = (Ret (Opt.mk "8G" "20G" "2" "--no-cache" "22.04" "no" "" ""),
     Scenario.fresh, []).
Proof.
  rewrite (parse_options_app ["--port"; "9000"; "--memory"; "8G"]
             ["--port"; "--no-cache"] default_options
             (Opt.mk "8G" "20G" "2" "9000" "22.04" "no" "" "") Scenario.fresh
             eq_refl).
  reflexivity.
Defined.

(** ** What a run leaves behind *)

Section Invariants.
Context (E : Env).

Lemma ks_ret {A} (a : A) : keeps_store (ret a).
Proof. intros w. reflexivity. Qed.

Lemma ks_emit (e : event) : keeps_store (emit e).
Proof. intros w. reflexivity. Qed.

Lemma ks_exit {A} (c : nat) : keeps_store (@exit A c).
Proof. intros w. reflexivity. Qed.

Lemma ks_get_world : keeps_store get_world.
Proof. intros w. reflexivity. Qed.

Lemma ks_bind {A B} (m : Sh A) (k : A -> Sh B) :
  keeps_store m -> (forall a, keeps_store (k a)) -> keeps_store (bind m k).
Proof.
  intros Hm Hk w. unfold bind. specialize (Hm w).
  destruct (m w) as [[[a|c] w1] l1]; cbn [world fst snd] in *; [|exact Hm].
  specialize (Hk a w1). destruct (k a w1) as [[r w2] l2].
  cbn [world fst snd] in *. congruence.
Qed.

Lemma ks_die {A} (msg : string) : keeps_store (@die A msg).
Proof. intros w. reflexivity. Qed.

Lemma ks_unbound {A} (param : string) : keeps_store (@unbound A param).
Proof. intros w. reflexivity. Qed.

Lemma ks_info (msg : string) : keeps_store (info msg).
Proof. intros w. reflexivity. Qed.

Lemma ks_warn (msg : string) : keeps_store (warn msg).
Proof. intros w. reflexivity. Qed.

Lemma ks_multipass (c : mp_cmd) : keeps_store (multipass E c).
Proof.
  intros w. unfold multipass. cbn [world fst snd].
  destruct (Nat.eqb (mp_exit E (vms w) c) 0); reflexivity.
Qed.

Lemma ks_multipass_info (vm_name : string) : keeps_store (multipass_info vm_name).
Proof. intros w. reflexivity. Qed.

Lemma ks_errexit (m : Sh nat) : keeps_store m -> keeps_store (errexit m).
Proof.
  intros Hm. unfold errexit. apply ks_bind; [exact Hm|].
  intros st. destruct (Nat.eqb st 0); [apply ks_ret|apply ks_exit].
Qed.

Lemma ks_capture {A} (m : Sh A) : keeps_store m -> keeps_store (capture m).
Proof.
  intros Hm w. unfold capture. specialize (Hm w).
  destruct (m w) as [[r w1] l1]. exact Hm.
Qed.

Lemma eks_bind {A B} (m : Sh A) (k : A -> Sh B) :
  keeps_store m -> (forall a, exit_keeps_store (k a)) ->
  exit_keeps_store (bind m k).
Proof.
  intros Hm Hk w c w' l H. unfold bind in H. specialize (Hm w).
  destruct (m w) as [[[a|c1] w1] l1]; cbn [world fst snd] in Hm.
  - destruct (k a w1) as [[r w2] l2] eqn:Hkw. inversion H; subst.
    rewrite <- Hm. exact (Hk a w1 c w' l2 Hkw).
  - inversion H; subst. exact Hm.
Qed.

Lemma eks_of_ks {A} (m : Sh A) : keeps_store m -> exit_keeps_store m.
Proof. intros Hm w c w' l H. specialize (Hm w). rewrite H in Hm. exact Hm. Qed.

Section Logs.
Context (P : event -> bool).

Lemma al_ret {A} (a : A) : always P (ret a).
Proof. intros w. reflexivity. Qed.

Lemma al_exit {A} (c : nat) : always P (@exit A c).
Proof. intros w. reflexivity. Qed.

Lemma al_get_world : always P get_world.
Proof. intros w. reflexivity. Qed.

Lemma al_put_world (w0 : World) : always P (put_world w0).
Proof. intros w. reflexivity. Qed.

Lemma al_emit (e : event) : P e = true -> always P (emit e).
Proof. intros H w. cbn. rewrite H. reflexivity. Qed.

Lemma al_bind {A B} (m : Sh A) (k : A -> Sh B) :
  always P m -> (forall a, always P (k a)) -> always P (bind m k).
Proof.
  intros Hm Hk w. unfold bind. specialize (Hm w).
  destruct (m w) as [[[a|c] w1] l1]; cbn [log snd] in *; [|exact Hm].
  specialize (Hk a w1). destruct (k a w1) as [[r w2] l2].
  cbn [log snd] in *. rewrite forallb_app, Hm, Hk. reflexivity.
Qed.

Lemma al_die {A} (msg : string) :
  P (Stderr ("ERROR: " ++ msg)) = true -> always P (@die A msg).
Proof. intros H. apply al_bind; [apply al_emit; exact H|intros; apply al_exit]. Qed.

Lemma al_multipass (c : mp_cmd) :
  P (Multipass c) = true -> always P (multipass E c).
Proof. intros H w. cbn. rewrite H. reflexivity. Qed.

Lemma al_multipass_info (vm_name : string) :
  P (Multipass (MpInfo vm_name)) = true -> always P (multipass_info vm_name).
Proof. intros H w. cbn. rewrite H. reflexivity. Qed.

Lemma al_errexit (m : Sh nat) : always P m -> always P (errexit m).
Proof.
  intros Hm. unfold errexit. apply al_bind; [exact Hm|].
  intros st. destruct (Nat.eqb st 0); [apply al_ret|apply al_exit].
Qed.

Lemma al_capture {A} (m : Sh A) : always P m -> always P (capture m).
Proof.
  intros Hm w. unfold capture. specialize (Hm w).
  destruct (m w) as [[r w1] l1]. cbn [log snd] in *.
  rewrite forallb_forall in Hm |- *. intros e He.
  apply filter_In in He. apply Hm. tauto.
Qed.

Lemma eal_bind {A B} (m : Sh A) (k : A -> Sh B) :
  always P m -> (forall a, exit_always P (k a)) -> exit_always P (bind m k).
Proof.
  intros Hm Hk w c w' l H. unfold bind in H. specialize (Hm w).
  destruct (m w) as [[[a|c1] w1] l1]; cbn [log snd] in Hm.
  - destruct (k a w1) as [[r w2] l2] eqn:Hkw. inversion H; subst.
    rewrite forallb_app, Hm. exact (Hk a w1 c w' l2 Hkw).
  - inversion H; subst. exact Hm.
Qed.

End Logs.
End Invariants.

Create HintDb ks.
Create HintDb al.

#[local] Hint Resolve ks_ret ks_emit ks_exit ks_get_world ks_die ks_unbound
  ks_info ks_warn ks_multipass ks_multipass_info : ks.

#[local] Hint Resolve al_ret al_exit al_get_world al_put_world : al.

Ltac ks :=
  lazymatch goal with
  | |- keeps_store (bind _ _) => apply ks_bind; [ks|intros; ks]
  | |- keeps_store (errexit _) => apply ks_errexit; ks
  | |- keeps_store (capture _) => apply ks_capture; ks
  | |- keeps_store (if ?b then _ else _) => destruct b; ks
  | |- keeps_store (match ?x with _ => _ end) => destruct x; ks
  | |- _ => auto with ks
  end.

Ltac al_side :=
  first
    [ reflexivity
    | match goal with
      | H : forall e, destructive e = false -> _ = true |- _ =>
          apply H; reflexivity
      end ].

Ltac al :=
  lazymatch goal with
  | |- always _ (bind _ _) => apply al_bind; [al|intros; al]
  | |- always _ (errexit _) => apply al_errexit; al
  | |- always _ (capture _) => apply al_capture; al
  | |- always _ (emit _) => apply al_emit; al_side
  | |- always _ (info _) => apply al_emit; al_side
  | |- always _ (warn _) => apply al_emit; al_side
  | |- always _ (die _) => apply al_die; al_side
  | |- always _ (unbound _) => apply al_bind; [apply al_emit; al_side|intros; apply al_exit]
  | |- always _ (multipass _ _) => apply al_multipass; al_side
  | |- always _ (multipass_info _) => apply al_multipass_info; al_side
  | |- always _ (if ?b then _ else _) => destruct b; al
  | |- always _ (match ?x with _ => _ end) => destruct x; al
  | |- _ => auto with al
  end.

Section InvariantsOfStart.
Context (E : Env) (P : event -> bool).
Hypothesis benign : forall e, destructive e = false -> P e = true.

Lemma ks_parse_options (args : list string) (o : Opt.t) :
  keeps_store (parse_options args o).
Proof. intros w. rewrite parse_options_world. reflexivity. Qed.

Lemma al_parse_options (args : list string) (o : Opt.t) :
  always P (parse_options args o).
Proof.
  intros w.
  destruct (parse_options_pure _ args o w (le_n _)) as [(o' & Ho)|(msg & Ho)];
    rewrite Ho; cbn; [reflexivity|].
  rewrite benign; reflexivity.
Qed.

Lemma ks_info_grep (vm_name : string) (s : vm_state) :
  keeps_store (info_grep E vm_name s).
Proof. unfold info_grep. ks. Qed.

Lemma al_info_grep (vm_name : string) (s : vm_state) :
  always P (info_grep E vm_name s).
Proof. unfold info_grep. al. Qed.

Lemma ks_info_ok (vm_name : string) : keeps_store (info_ok vm_name).
Proof. unfold info_ok. ks. Qed.

Lemma al_info_ok (vm_name : string) : always P (info_ok vm_name).
Proof. unfold info_ok. al. Qed.

Lemma ks_get_vm_ip (vm_name : string) : keeps_store (get_vm_ip vm_name).
Proof. unfold get_vm_ip. ks. Qed.

Lemma al_get_vm_ip (vm_name : string) : always P (get_vm_ip vm_name).
Proof. unfold get_vm_ip. al. Qed.

Lemma ks_check_port_available (port name : string) :
  keeps_store (check_port_available E port name).
Proof.
  intros w. rewrite check_port_available_eq. cbn [world fst snd].
  rewrite port_scan_world. reflexivity.
Qed.

Lemma al_port_scan (port name : string) l : always P (port_scan E port name l).
Proof.
  induction l as [|[dir [c|]] l IH]; cbn [port_scan]; [al| |exact IH].
  pose proof al_info_grep. al.
Qed.

Lemma al_check_port_available (port name : string) :
  always P (check_port_available E port name).
Proof. pose proof (al_port_scan port name). unfold check_port_available. al. Qed.

Lemma ks_create_demo_codebase : keeps_store (create_demo_codebase E).
Proof. unfold create_demo_codebase. ks. Qed.

Lemma al_create_demo_codebase : always P (create_demo_codebase E).
Proof. unfold create_demo_codebase. al. Qed.

Lemma ks_classify_codebase (codebase : string) :
  keeps_store (classify_codebase E codebase).
Proof. pose proof ks_create_demo_codebase. unfold classify_codebase. ks. Qed.

Lemma al_classify_codebase (codebase : string) :
  always P (classify_codebase E codebase).
Proof. pose proof al_create_demo_codebase. unfold classify_codebase. al. Qed.

Lemma ks_ensure_cache (force : string) : keeps_store (ensure_cache E force).
Proof.
  intros w. cbv [ensure_cache bind emit get_world info put_world errexit ret exit].
  destruct (String.eqb force "yes" || negb (cache_dir (deps w))
            || negb (manifest (deps w))); [|reflexivity].
  cbv beta iota.
  match goal with |- context [download E ?c] => destruct (download E c) as [st c'] end.
  cbn [fst snd]. destruct (Nat.eqb st 0); reflexivity.
Qed.

Lemma al_ensure_cache (force : string) : always P (ensure_cache E force).
Proof. unfold ensure_cache. al. Qed.

Lemma ks_transfer_deps (vm_name : string) files :
  keeps_store (transfer_deps E vm_name files).
Proof. induction files as [|[file regular] files IH]; cbn [transfer_deps]; ks. Qed.

Lemma al_transfer_deps (vm_name : string) files :
  always P (transfer_deps E vm_name files).
Proof. induction files as [|[file regular] files IH]; cbn [transfer_deps]; al. Qed.

Lemma ks_handle_codebase (vm_name : string) (cb : codebase_info)
  (git_depth git_branch : string) :
  keeps_store (handle_codebase E vm_name cb git_depth git_branch).
Proof. unfold handle_codebase. ks. Qed.

Lemma al_handle_codebase (vm_name : string) (cb : codebase_info)
  (git_depth git_branch : string) :
  always P (handle_codebase E vm_name cb git_depth git_branch).
Proof. unfold handle_codebase. al. Qed.

Lemma al_save_instance_state (name : string) (t : codebase_type)
  (path port memory disk cpus ubuntu git_depth git_branch : string) :
  always P (save_instance_state E name t path port memory disk cpus ubuntu
                                git_depth git_branch).
Proof. unfold save_instance_state. al. Qed.

Lemma ks_existing_instance (name vm_name port : string) :
  keeps_store (existing_instance E name vm_name port).
Proof.
  pose proof ks_info_grep. pose proof ks_info_ok. pose proof ks_get_vm_ip.
  unfold existing_instance. ks.
Qed.

Lemma al_existing_instance (name vm_name port : string) :
  always P (existing_instance E name vm_name port).
Proof.
  pose proof al_info_grep. pose proof al_info_ok. pose proof al_get_vm_ip.
  unfold existing_instance. al.
Qed.

(** From the save on, [provision] does not end the shell. *)
Lemma save_finish_returns (name vm_name port : string) (cb : codebase_info)
  (memory disk cpus ubuntu git_depth git_branch : string) (w : World) :
  exists st w' l,
    (save_instance_state E name (cb_type cb) (source_path cb) port memory disk
                         cpus ubuntu git_depth git_branch ;;
     finish_start E name vm_name port cb) w = (Ret st, w', l).
Proof.
  unfold bind.
  destruct (save_instance_state E name (cb_type cb) (source_path cb) port memory
              disk cpus ubuntu git_depth git_branch w) as [[[u|c] w1] l1] eqn:Hs.
  - destruct (finish_start_outcome E name vm_name port cb w1) as [Hr Hw].
    destruct (finish_start E name vm_name port cb w1) as [[r w2] l2].
    cbn [result fst] in Hr. subst r. eauto.
  - cbv [save_instance_state bind emit get_world put_world] in Hs. discriminate.
Qed.

Lemma eks_provision (name vm_name codebase : string) (o : Opt.t) :
  exit_keeps_store (provision E name vm_name codebase o).
Proof.
  pose proof ks_check_port_available. pose proof ks_classify_codebase.
  pose proof ks_ensure_cache. pose proof ks_transfer_deps.
  pose proof ks_handle_codebase.
  unfold provision. destruct o.
  do 16 (apply eks_bind; [ks|intros]).
  intros w c w' l Hrun.
  destruct (save_finish_returns name vm_name port a0 memory disk cpus ubuntu
              git_depth git_branch w) as (st & w1 & l1 & Hr).
  rewrite Hr in Hrun. discriminate.
Qed.

Lemma eal_provision (name vm_name codebase : string) (o : Opt.t) :
  exit_always P (provision E name vm_name codebase o).
Proof.
  pose proof al_check_port_available. pose proof al_classify_codebase.
  pose proof al_ensure_cache. pose proof al_transfer_deps.
  pose proof al_handle_codebase.
  unfold provision. destruct o.
  do 16 (apply eal_bind; [al|intros]).
  intros w c w' l Hrun.
  destruct (save_finish_returns name vm_name port a0 memory disk cpus ubuntu
              git_depth git_branch w) as (st & w1 & l1 & Hr).
  rewrite Hr in Hrun. discriminate.
Qed.

Lemma eks_command_start (args : list string) :
  exit_keeps_store (command_start E args).
Proof.
  pose proof ks_parse_options. pose proof ks_existing_instance.
  unfold command_start.
  destruct (negb (Str.nonempty match args with a :: _ => a | [] => "" end));
    [apply eks_of_ks; ks|].
  destruct (split_codebase (tl args)) as [codebase args'].
  apply eks_bind; [ks|intros o]. apply eks_bind; [ks|intros done].
  destruct done; [apply eks_of_ks; ks|apply eks_provision].
Qed.

Lemma eal_command_start (args : list string) :
  exit_always P (command_start E args).
Proof.
  pose proof al_parse_options. pose proof al_existing_instance.
  unfold command_start.
  destruct (negb (Str.nonempty match args with a :: _ => a | [] => "" end)).
  - intros w c w' l Hrun.
    assert (Ha : always P (@die nat ("Usage: " ++ script E
                                    ++ " start <name> [codebase] [options]")))
      by al.
    specialize (Ha w). rewrite Hrun in Ha. exact Ha.
  - destruct (split_codebase (tl args)) as [codebase args'].
    apply eal_bind; [al|intros o]. apply eal_bind; [al|intros done].
    destruct done; [|apply eal_provision].
    intros w c w' l Hrun. discriminate.
Qed.

Lemma al_wait_loop_benign (url : string) (left : nat) :
  forall attempt, always P (wait_loop E url left attempt).
Proof.
  induction left as [|left IH]; intros attempt; cbn [wait_loop]; [al|].
  pose proof (IH (S attempt)). al.
Qed.

(** Without a demo directory to remove, the end of [start] undoes
    nothing. *)
Lemma al_finish_start_kept (name vm_name port : string) (cb : codebase_info) :
  cb_type cb <> Demo -> always P (finish_start E name vm_name port cb).
Proof.
  intros Hcb. pose proof al_wait_loop_benign. pose proof al_get_vm_ip.
  unfold finish_start, wait_for_opengrok.
  destruct (cb_type cb) eqn:Ht; try congruence; cbv beta iota; al.
Qed.

Lemma ral_bind {A} (m : Sh A) (k : A -> Sh nat) :
  always P m -> (forall a, fail_always P (k a)) -> fail_always P (bind m k).
Proof.
  intros Hm Hk w st w' l H Hne. unfold bind in H. specialize (Hm w).
  destruct (m w) as [[[a|c1] w1] l1]; cbn [log snd] in Hm; [|discriminate].
  destruct (k a w1) as [[r w2] l2] eqn:Hkw. inversion H; subst.
  rewrite forallb_app, Hm. exact (Hk a w1 st w' l2 Hkw Hne).
Qed.

Lemma ral_provision (name vm_name codebase : string) (o : Opt.t) :
  fail_always P (provision E name vm_name codebase o).
Proof.
  pose proof al_check_port_available. pose proof al_classify_codebase.
  pose proof al_ensure_cache. pose proof al_transfer_deps.
  pose proof al_handle_codebase. pose proof al_save_instance_state.
  unfold provision. destruct o.
  do 17 (apply ral_bind; [al|intros]).
  intros w st w' l Hrun Hne.
  match type of Hrun with
  | finish_start _ _ _ _ ?cb _ = _ =>
      destruct (finish_start_outcome E name vm_name port cb w) as [Hr _];
      assert (Hcb : cb_type cb <> Demo);
      [intros Hd; rewrite Hrun in Hr; cbn [result fst] in Hr;
       unfold last_status in Hr; rewrite Hd in Hr; inversion Hr; congruence
      |pose proof (al_finish_start_kept name vm_name port cb Hcb w) as Hal;
       rewrite Hrun in Hal; exact Hal]
  end.
Qed.

Lemma ral_command_start (args : list string) :
  fail_always P (command_start E args).
Proof.
  pose proof al_parse_options. pose proof al_existing_instance.
  unfold command_start.
  destruct (negb (Str.nonempty match args with a :: _ => a | [] => "" end)).
  - intros w st w' l Hrun. cbv [die bind emit exit] in Hrun. discriminate.
  - destruct (split_codebase (tl args)) as [codebase args'].
    apply ral_bind; [al|intros o]. apply ral_bind; [al|intros done].
    destruct done; [|apply ral_provision].
    intros w st w' l Hrun _. inversion Hrun. reflexivity.
Qed.

End InvariantsOfStart.

Lemma benign_not_destructive (e : event) :
  destructive e = false -> not_destructive e = true.
Proof. unfold not_destructive. intros ->. reflexivity. Qed.

Lemma benign_keeps_machines (e : event) :
  destructive e = false -> keeps_machines e = true.
Proof. destruct e as [| | |c| | | | | | | |]; try reflexivity. destruct c; cbn; congruence. Qed.

Lemma save_instance_state_run (E : Env) (name : string) (t : codebase_type)
  (path port memory disk cpus ubuntu git_depth git_branch : string) (w : World) :
  save_instance_state E name t path port memory disk cpus ubuntu git_depth
                      git_branch w
  = (Ret tt,
     set_instances w
       (upsert name
          (Some (Config.mk name (get_vm_name name) t path port memory disk cpus
                           ubuntu (date E) git_depth git_branch))
          (instances w)),
     [Call "save_instance_state"
        [name; codebase_type_text t; path; port; memory; disk; cpus; ubuntu;
         git_depth; git_branch];
      Mkdir (STATE_DIR E ++ "/" ++ name);
      WriteFile (config_file E name)
        (render_config (Config.mk name (get_vm_name name) t path port memory
                                  disk cpus ubuntu (date E) git_depth
                                  git_branch))]).
Proof. reflexivity. Qed.

Section StartFrame.
Context (E : Env).

Lemma al_wait_loop (url : string) (left : nat) :
  forall attempt, always keeps_machines (wait_loop E url left attempt).
Proof.
  induction left as [|left IH]; intros attempt; cbn [wait_loop]; [al|].
  pose proof (IH (S attempt)). al.
Qed.

Lemma al_finish_start (name vm_name port : string) (cb : codebase_info) :
  always keeps_machines (finish_start E name vm_name port cb).
Proof.
  pose proof al_wait_loop.
  pose proof (al_get_vm_ip keeps_machines benign_keeps_machines).
  unfold finish_start, wait_for_opengrok. al.
Qed.

Lemma al_provision (name vm_name codebase : string) (o : Opt.t) :
  always keeps_machines (provision E name vm_name codebase o).
Proof.
  pose proof (al_check_port_available E keeps_machines benign_keeps_machines).
  pose proof (al_classify_codebase E keeps_machines benign_keeps_machines).
  pose proof (al_ensure_cache E keeps_machines benign_keeps_machines).
  pose proof (al_transfer_deps E keeps_machines benign_keeps_machines).
  pose proof (al_handle_codebase E keeps_machines benign_keeps_machines).
  pose proof (al_save_instance_state E keeps_machines benign_keeps_machines).
  pose proof al_finish_start.
  unfold provision. destruct o. al.
Qed.

Lemma al_command_start (args : list string) :
  always keeps_machines (command_start E args).
Proof.
  pose proof (al_parse_options keeps_machines benign_keeps_machines).
  pose proof (al_existing_instance E keeps_machines benign_keeps_machines).
  pose proof al_provision.
  unfold command_start. al.
Qed.

Lemma ow_of_ks {A} (name : string) (m : Sh A) :
  keeps_store m -> only_writes name m.
Proof. intros Hm w other _. rewrite (Hm w). reflexivity. Qed.

Lemma ow_bind {A B} (name : string) (m : Sh A) (k : A -> Sh B) :
  keeps_store m -> (forall a, only_writes name (k a)) ->
  only_writes name (bind m k).
Proof.
  intros Hm Hk w other Hne. unfold bind. specialize (Hm w).
  destruct (m w) as [[[a|c] w1] l1]; cbn [world fst snd] in *.
  - specialize (Hk a w1 other Hne). destruct (k a w1) as [[r w2] l2].
    cbn [world fst snd] in *. congruence.
  - rewrite Hm. reflexivity.
Qed.

Lemma ow_save_finish (name vm_name port : string) (cb : codebase_info)
  (memory disk cpus ubuntu git_depth git_branch : string) :
  only_writes name
    (save_instance_state E name (cb_type cb) (source_path cb) port memory disk
                         cpus ubuntu git_depth git_branch ;;
     finish_start E name vm_name port cb).
Proof.
  intros w other Hne. unfold bind.
  rewrite (save_instance_state_run E name (cb_type cb) (source_path cb) port
             memory disk cpus ubuntu git_depth git_branch w).
  match goal with
  | |- context [finish_start E name vm_name port cb ?w1] =>
      destruct (finish_start_outcome E name vm_name port cb w1) as [_ Hw];
      destruct (finish_start E name vm_name port cb w1) as [[r w2] l2]
  end.
  cbn [world fst snd] in *. subst w2. cbn [instances set_instances].
  apply lookup_upsert_other. exact Hne.
Qed.

Lemma ow_provision (name codebase : string) (o : Opt.t) :
  only_writes name (provision E name (get_vm_name name) codebase o).
Proof.
  pose proof (ks_check_port_available E). pose proof (ks_classify_codebase E).
  pose proof (ks_ensure_cache E). pose proof (ks_transfer_deps E).
  pose proof (ks_handle_codebase E).
  unfold provision. destruct o.
  do 16 (apply ow_bind; [ks|intros]).
  apply ow_save_finish.
Qed.

Lemma ow_command_start (name : string) (rest : list string) :
  only_writes name (command_start E (name :: rest)).
Proof.
  pose proof ks_parse_options. pose proof (ks_existing_instance E).
  unfold command_start. cbn [tl].
  destruct (negb (Str.nonempty name)); [apply ow_of_ks; ks|].
  destruct (split_codebase rest) as [codebase args'].
  apply ow_bind; [ks|intros o]. apply ow_bind; [ks|intros done].
  destruct done; [apply ow_of_ks; ks|apply ow_provision].
Qed.

End StartFrame.

(** X7. [start <name>] touches no other instance: whatever its arguments
    and however it ends, it never stops or deletes a machine, and the
    record of every other name is what it was. *)
Theorem start_touches_no_other_instance (E : Env) (name : string)
  (rest : list string) (w : World) :
  forallb keeps_machines (log (command_start E (name :: rest) w)) = true
  /\ (forall other, other <> name ->
        lookup other (instances (world (command_start E (name :: rest) w)))
        = lookup other (instances w)).
Proof.
  split.
  - apply al_command_start.
  - intros other Hne. apply ow_command_start. exact Hne.
Qed.

(** ** The record a start writes *)

Lemma nonempty_false (s : string) : Str.nonempty s = false -> s = "".
Proof. destruct s; [reflexivity|discriminate]. Qed.

Lemma classify_codebase_inv (E : Env) (codebase : string) (w w' : World)
  (cb : codebase_info) (l : list event) :
  classify_codebase E codebase w = (Ret cb, w', l) ->
  (codebase = "" /\ cb_type cb = Demo /\ source_path cb = mktemp E)
  \/ (is_dir E codebase = true /\ cb_type cb = Local
      /\ cd_pwd E codebase = Some (source_path cb))
  \/ (is_dir E codebase = false /\ is_remote_url codebase = true
      /\ cb_type cb = Git /\ source_path cb = codebase).
Proof.
  unfold classify_codebase.
  destruct (Str.nonempty codebase) eqn:Hne; cbn [negb].
  - destruct (is_dir E codebase); [destruct (cd_pwd E codebase) eqn:Hcd|
                                   destruct (is_remote_url codebase)];
      intros H; inversion H; subst; cbn; auto 10.
  - intros H. left. split; [exact (nonempty_false _ Hne)|].
    cbv [bind info emit capture] in H. rewrite create_demo_codebase_run in H.
    inversion H. subst. split; reflexivity.
Qed.

Lemma provision_saves (E : Env) (name vm_name codebase : string) (o : Opt.t)
  (w w' : World) (st : nat) (l : list event) :
  provision E name vm_name codebase o w = (Ret st, w', l) ->
  exists cb w0 w1 l0,
    classify_codebase E codebase w0 = (Ret cb, w1, l0)
    /\ st = last_status cb
    /\ lookup name (instances w')
       = Some (Some (record_of E name (cb_type cb) (source_path cb) o))
    /\ (cb_type cb = Demo -> In (RmRf (source_path cb)) l).
Proof.
  unfold provision. destruct o. intros H.
  repeat (bind_inv H;
          lazymatch goal with
          | Hs : save_instance_state _ _ _ _ _ _ _ _ _ _ _ _ = _ |- _ => fail
          | _ => idtac
          end).
  bind_inv H.
  match goal with
  | Hs : save_instance_state _ _ _ _ _ _ _ _ _ _ _ _ = _ |- _ =>
      rewrite save_instance_state_run in Hs; inversion Hs; subst; clear Hs
  end.
  match goal with
  | Hc : classify_codebase E codebase ?w0 = (Ret ?cb, ?w1, ?l0) |- _ =>
      exists cb, w0, w1, l0; split; [exact Hc|]
  end.
  match type of H with
  | finish_start E name vm_name port ?cb ?ws = _ =>
      destruct (finish_start_outcome E name vm_name port cb ws) as [Hr Hw]
  end.
  pose proof H as Hfin.
  rewrite H in Hr, Hw. cbn [result world fst snd] in Hr, Hw. inversion Hr. subst.
  split; [reflexivity|]. split.
  - cbn [instances set_instances]. apply lookup_upsert.
  - intros Hdemo. unfold finish_start in Hfin. rewrite Hdemo in Hfin.
    repeat bind_inv Hfin. inversion Hfin; subst.
    repeat match goal with
    | Hm : emit _ _ = _ |- _ => inversion Hm; subst; clear Hm
    end.
    rewrite !in_app_iff. cbn [In]. intuition auto.
Qed.

(** ** A probe that times out *)

Lemma ends_app {A} (l1 l2 t : list A) :
  (exists pre, l2 = (pre ++ t)%list) -> exists pre, (l1 ++ l2)%list = (pre ++ t)%list.
Proof. intros (pre & ->). exists (l1 ++ pre)%list. apply app_assoc. Qed.

Lemma ends_cons {A} (e : A) (l2 t : list A) :
  (exists pre, l2 = (pre ++ t)%list) -> exists pre, e :: l2 = (pre ++ t)%list.
Proof. intros (pre & ->). exists (e :: pre). reflexivity. Qed.

(** A run of [provision] that reaches its end although the service never
    answered has saved the record, and ends with the warning and the
    cleanup. *)
Lemma provision_times_out (E : Env) (name vm_name codebase : string) (o : Opt.t)
  (w w' : World) (st : nat) (l : list event) :
  (forall url j, j < max_attempts -> curl_sf (curl E url j) = false) ->
  provision E name vm_name codebase o w = (Ret st, w', l) ->
  exists cb pre,
    lookup name (instances w')
    = Some (Some (record_of E name (cb_type cb) (source_path cb) o))
    /\ st = last_status cb
    /\ l = (pre ++ readiness_warning E name :: cleanup_log cb)%list.
Proof.
  intros Hfail. unfold provision. destruct o. intros H.
  repeat (bind_inv H;
          lazymatch goal with
          | Hs : save_instance_state _ _ _ _ _ _ _ _ _ _ _ _ = _ |- _ => fail
          | _ => idtac
          end).
  bind_inv H.
  match goal with
  | Hs : save_instance_state _ _ _ _ _ _ _ _ _ _ _ _ = _ |- _ =>
      rewrite save_instance_state_run in Hs; inversion Hs; subst; clear Hs
  end.
  match type of H with
  | finish_start E name vm_name port ?cb ?ws = _ =>
      rewrite (finish_start_timeout E name vm_name port cb ws _ eq_refl
                 (Hfail _)) in H;
      inversion H; subst; clear H; exists cb;
      match goal with
      | |- exists pre, _ /\ _ /\ ?l = _ =>
          assert (Hl : exists pre,
                     l = (pre ++ readiness_warning E name :: cleanup_log cb)%list)
            by (repeat first [ now (exists []) | apply ends_app | apply ends_cons ])
      end
  end.
  destruct Hl as (pre & Hl). exists pre.
  split; [cbn [instances set_instances]; apply lookup_upsert|].
  split; [reflexivity|exact Hl].
Qed.

(** The probe succeeds on a redirection: the service of this host answers
    every request with status 302, never with a 2xx status, and the probe
    reports it ready at the first attempt. *)
Lemma ready_on_redirect :
  (forall url j, curl Scenario.env_redirect url j = Http 302)
  /\ (forall url j, is_2xx (curl Scenario.env_redirect url j) = false)
  /\ wait_for_opengrok Scenario.env_redirect "http://10.0.0.7:8080/source"
                       Scenario.fresh
     = (Ret 0, Scenario.fresh,
        (probe_header "http://10.0.0.7:8080/source"
         ++ [Curl "http://10.0.0.7:8080/source"])%list).
Proof.
  split; [intros; reflexivity|]. split; [intros; reflexivity|].
  vm_compute. reflexivity.
Qed.

(** C7. The probe makes at most 60 attempts.  It returns 0 (ready) at the
    first attempt that [curl -sf] reports as a success, which is a response
    with a status below 400 (every 2xx response is one); each failed attempt
    is followed by two seconds of sleep.  When none of 60 attempts succeeds
    it returns 1 (timed out) after exactly 60 attempts.  A timeout does not
    fail the run: from the save on, the run stores the record, probes,
    prints the warning that points to the logs, removes the demo directory
    if there is one and returns as it does when the service is ready; a
    [start] that provisions and returns although the service never answered
    has the record in the store and a log that ends with the warning and
    the cleanup; and the status and final world of [start] are the same
    whatever the probe gets. *)
Theorem readiness_timeout_not_fatal (E : Env) :
  max_attempts = 60
  /\ (forall url w k,
        k < max_attempts -> curl_sf (curl E url k) = true ->
        (forall j, j < k -> curl_sf (curl E url j) = false) ->
        wait_for_opengrok E url w
        = (Ret 0, w,
           (probe_header url ++ failed_attempts url k ++ [Curl url])%list))
  /\ (forall o, curl_sf o = true <-> exists s, o = Http s /\ s < 400)
  /\ (forall o, is_2xx o = true -> curl_sf o = true)
  /\ (forall url w,
        (forall j, j < max_attempts -> curl_sf (curl E url j) = false) ->
        wait_for_opengrok E url w
        = (Ret 1, w, (probe_header url ++ failed_attempts url max_attempts)%list))
  /\ (forall name vm_name port cb memory disk cpus ubuntu git_depth git_branch w,
        (forall url j, j < max_attempts -> curl_sf (curl E url j) = false) ->
        exists w' pre,
          (save_instance_state E name (cb_type cb) (source_path cb) port memory
                               disk cpus ubuntu git_depth git_branch ;;
           finish_start E name vm_name port cb) w
          = (Ret (last_status cb), w',
             (pre ++ readiness_warning E name :: cleanup_log cb)%list)
          /\ lookup name (instances w')
             = Some (Some (Config.mk name (get_vm_name name) (cb_type cb)
                                     (source_path cb) port memory disk cpus
                                     ubuntu (date E) git_depth git_branch))
          /\ Forall (fun e => match e with Stderr _ => False | _ => True end) pre)
  /\ (forall name rest w w' st l o,
        Str.nonempty name = true ->
        record_dir E name w = false
        \/ lookup (get_vm_name name) (vms w) = None ->
        result (parse_options (snd (split_codebase rest)) default_options w)
        = Ret o ->
        (forall url j, j < max_attempts -> curl_sf (curl E url j) = false) ->
        command_start E (name :: rest) w = (Ret st, w', l) ->
        exists t path pre,
          lookup name (instances w')
          = Some (Some (record_of E name t path o))
          /\ l = (pre ++ readiness_warning E name
                      :: match t with Demo => [RmRf path] | _ => [] end)%list)
  /\ (forall name vm_name port cb w,
        result (finish_start E name vm_name port cb w) = Ret (last_status cb)
        /\ world (finish_start E name vm_name port cb w) = w)
  /\ (forall c args w,
        result (command_start (with_curl E c) args w)
        = result (command_start E args w)
        /\ world (command_start (with_curl E c) args w)
           = world (command_start E args w)).
Proof.
  split; [reflexivity|].
  split; [|split; [|split; [|split; [|split; [|split; [|split]]]]]].
  - intros url w k Hk Hok Hfail. rewrite wait_for_opengrok_eq.
    rewrite (wait_loop_ready E url k max_attempts 0 w); [reflexivity|lia| |].
    + intros j Hj. cbn [Nat.add]. apply Hfail. exact Hj.
    + cbn [Nat.add]. exact Hok.
  - intros [|s]; cbn [curl_sf]; split.
    + discriminate.
    + intros (s & Hs & _). discriminate.
    + intros H. apply Nat.ltb_lt in H. exists s. split; [reflexivity|exact H].
    + intros (s' & Hs & Hlt). injection Hs as ->. apply Nat.ltb_lt. exact Hlt.
  - exact is_2xx_curl_sf.
  - intros url w Hfail. rewrite wait_for_opengrok_eq.
    rewrite (wait_loop_timeout E url max_attempts 0 w Hfail). reflexivity.
  - intros name vm_name port cb memory disk cpus ubuntu git_depth git_branch w
           Hfail.
    unfold bind at 1. rewrite save_instance_state_run.
    match goal with
    | |- context [finish_start E name vm_name port cb ?ws] =>
        rewrite (finish_start_timeout E name vm_name port cb ws _ eq_refl
                   (Hfail _))
    end.
    eexists. eexists. split; [|split].
    + cbn [app]. rewrite !app_comm_cons.
      rewrite (app_assoc _ (failed_attempts _ _)). reflexivity.
    + cbn [instances set_instances]. apply lookup_upsert.
    + repeat (apply Forall_app; split); repeat constructor.
  - intros name rest w w' st l o Hname Hprov Hopt Hfail Hrun.
    rewrite (command_start_named E name rest Hname) in Hrun.
    rewrite (bind_eq _ _ _ _ _ _ (parse_options_ret _ _ _ _ Hopt)) in Hrun.
    destruct (existing_instance_goes_on E name (Opt.port o) w Hprov)
      as (l0 & Hex).
    rewrite (bind_eq _ _ _ _ _ _ Hex) in Hrun. cbn [app] in Hrun.
    destruct (provision E name (get_vm_name name) (fst (split_codebase rest))
                o w) as [[r w1] l1] eqn:Hp.
    cbn [result world log fst snd] in Hrun. inversion Hrun; subst. clear Hrun.
    destruct (provision_times_out _ _ _ _ _ _ _ _ _ Hfail Hp)
      as (cb & pre & Hrec & _ & Hl).
    exists (cb_type cb), (source_path cb), (l0 ++ pre)%list.
    split; [exact Hrec|]. rewrite Hl, <- app_assoc. unfold cleanup_log.
    destruct (cb_type cb); reflexivity.
  - intros. apply finish_start_outcome.
  - intros c args w. apply command_start_with_curl.
Qed.

(** A demo instance started on a machine whose service never answers: the
    run returns 0, the record is stored, and the log ends with the warning
    and the removal of the demo directory. *)
Example start_demo_times_out :
  result (command_start Scenario.env_silent ["x"] Scenario.fresh) = Ret 0
  /\ lookup "x" (instances (world (command_start Scenario.env_silent ["x"]
                                     Scenario.fresh)))
     = Some (Some (Config.mk "x" "opengrok-test-x" Demo "/tmp/tmp.k3Hq9" "8080"
                             "4G" "20G" "2" "22.04" "2026-01-01T00:00:00Z" "" ""))
  /\ firstn 2 (rev (log (command_start Scenario.env_silent ["x"] Scenario.fresh)))
     = [RmRf "/tmp/tmp.k3Hq9"; readiness_warning Scenario.env_silent "x"].
Proof. repeat split; vm_compute; reflexivity. Qed.

(** ** A start that ends the script *)

(** A [start] that returns a status other than 0 has provisioned a codebase
    that is not the demo and has written its record. *)
Lemma command_start_returns_1 (E : Env) (args : list string) (w w' : World)
  (st : nat) (l : list event) :
  command_start E args w = (Ret st, w', l) -> st <> 0 ->
  st = 1
  /\ exists name rest o t path,
       args = name :: rest /\ t <> Demo
       /\ lookup name (instances w')
          = Some (Some (record_of E name t path o)).
Proof.
  intros Hrun Hne. split.
  { destruct (r01_command_start E args w st w' l Hrun); [contradiction|assumption]. }
  destruct args as [|name rest].
  { cbv [command_start Str.nonempty negb die bind emit exit] in Hrun.
    discriminate. }
  destruct (Str.nonempty name) eqn:Hname.
  2:{ unfold command_start in Hrun. rewrite Hname in Hrun.
      cbv [negb die bind emit exit] in Hrun. discriminate. }
  rewrite (command_start_named E name rest Hname) in Hrun.
  bind_inv Hrun. bind_inv Hrun.
  match goal with
  | Hm : existing_instance _ _ _ _ _ = _ |- _ =>
      destruct (existing_instance_done _ _ _ _ _ _ _ _ Hm) as [-> | ->]
  end.
  - inversion Hrun; subst. contradiction.
  - destruct (provision_saves _ _ _ _ _ _ _ _ _ Hrun)
      as (cb & wa & wb & lb & _ & Hst & Hrec & _).
    exists name, rest, a, (cb_type cb), (source_path cb).
    split; [reflexivity|]. split; [|exact Hrec].
    intros Hd. unfold last_status in Hst. rewrite Hd in Hst. contradiction.
Qed.

Lemma main_start_eq (E : Env) (args : list string) :
  main E ("start" :: args)
  = (check_multipass E ;; errexit (command_start E args) ;; ret 0).
Proof. reflexivity. Qed.

(** X6. When [start] ends the script with a status other than 0, it has
    undone nothing: it has removed no file or directory and stopped or
    deleted no machine, so the machine it created, what it transferred and
    the demo directory stay.  Either a step of [start] ended the script, at
    whatever step and with whatever status: then the instance records are
    exactly as they were (the record is written only after the install
    succeeded).  Or [start] ran to its end and returned 1, which it does
    after provisioning a codebase that is not the demo: then the exit status
    is 1 and the record of the instance has been written.  Without the
    backend the world is as it was. *)
Theorem failed_start_leaves_store (E : Env) (args : list string) (w w' : World)
  (c : nat) (l : list event)
  (Hrun : main E ("start" :: args) w = (Exit c, w', l)) :
  forallb not_destructive l = true
  /\ (have_multipass E = false -> w' = w)
  /\ (have_multipass E = true ->
      (exists l0, command_start E args w = (Exit c, w', l0)
                  /\ instances w' = instances w)
      \/ (c = 1
          /\ exists name rest o t path l0,
               args = name :: rest /\ t <> Demo
               /\ command_start E args w = (Ret 1, w', l0)
               /\ lookup name (instances w')
                  = Some (Some (record_of E name t path o)))).
Proof.
  rewrite main_start_eq in Hrun. unfold check_multipass in Hrun.
  destruct (have_multipass E) eqn:Hmp.
  - destruct (command_start E args w) as [[[st|c0] w0] l0] eqn:Hstart;
      cbv [bind ret errexit exit] in Hrun; rewrite Hstart in Hrun.
    + destruct (Nat.eqb st 0) eqn:Hst; cbv beta iota in Hrun;
        [discriminate|]. inversion Hrun; subst; clear Hrun.
      apply Nat.eqb_neq in Hst.
      destruct (command_start_returns_1 E args w w' c l0 Hstart Hst)
        as (Hc & name & rest & o & t & path & Hargs & Ht & Hrec).
      cbn [app]. rewrite app_nil_r. split; [|split; [discriminate|]].
      * exact (ral_command_start E not_destructive benign_not_destructive
                 args w c w' l0 Hstart Hst).
      * intros _. right. split; [exact Hc|].
        exists name, rest, o, t, path, l0. subst c. auto.
    + inversion Hrun; subst; clear Hrun. cbn [app].
      split; [|split; [discriminate|]].
      * exact (eal_command_start E not_destructive benign_not_destructive
                 args w c w' l Hstart).
      * intros _. left. exists l. split; [reflexivity|].
        exact (eks_command_start E args w c w' l Hstart).
  - cbv [die bind emit exit] in Hrun. inversion Hrun; subst.
    split; [reflexivity|]. split; [reflexivity|discriminate].
Qed.

Lemma failed_start_leaves_store_witness :
  instances (world (main Scenario.env_clone_fails
                      ["start"; "x"; "https://example.org/missing.git"]
                      Scenario.fresh))
  = instances Scenario.fresh.
Proof.
  assert (Hrun : main Scenario.env_clone_fails
                   ["start"; "x"; "https://example.org/missing.git"]
                   Scenario.fresh
                 = (Exit 128,
                    world (main Scenario.env_clone_fails
                             ["start"; "x"; "https://example.org/missing.git"]
                             Scenario.fresh),
                    log (main Scenario.env_clone_fails
                           ["start"; "x"; "https://example.org/missing.git"]
                           Scenario.fresh)))
    by (vm_compute; reflexivity).
  destruct (failed_start_leaves_store _ _ _ _ _ _ Hrun) as (_ & _ & H).
  destruct (H eq_refl) as [(l0 & _ & Hi)|(Hc & _)]; [exact Hi|discriminate Hc].
Defined.

(** A local codebase provisioned without a failure: the script ends with
    status 1 and the record is in the store. *)
Example start_local_ends_with_1 :
  result (main Scenario.env ["start"; "x"; "/src/proj"] Scenario.fresh) = Exit 1
  /\ result (command_start Scenario.env ["x"; "/src/proj"] Scenario.fresh) = Ret 1
  /\ has "x" (instances (world (main Scenario.env ["start"; "x"; "/src/proj"]
                                  Scenario.fresh))) = true
  /\ has "x" (instances Scenario.fresh) = false.
Proof. repeat split; vm_compute; reflexivity. Qed.

(** ** The record a start writes, continued *)

(** X8. When [start <name>] provisions (the state directory has no
    directory of that name, or the machine is gone) and runs to its end, the stored record holds the
    name, the derived machine name, the options as parsed (defaults where
    none was given), the date of the save, and the codebase as classified:
    [demo] with the temporary directory (which the same run removes),
    [local] with the path [pwd] gave, or [git] with the URL as typed. *)
Theorem start_saves_record (E : Env) (name : string) (rest : list string)
  (w w' : World) (st : nat) (l : list event) (o : Opt.t)
  (Hname : Str.nonempty name = true)
  (Hprov : record_dir E name w = false
           \/ lookup (get_vm_name name) (vms w) = None)
  (Hopt : result (parse_options (snd (split_codebase rest)) default_options w)
          = Ret o)
  (Hrun : command_start E (name :: rest) w = (Ret st, w', l)) :
  exists t path,
    lookup name (instances w') = Some (Some (record_of E name t path o))
    /\ ((fst (split_codebase rest) = "" /\ t = Demo /\ path = mktemp E
         /\ In (RmRf path) l)
        \/ (t = Local /\ cd_pwd E (fst (split_codebase rest)) = Some path)
        \/ (t = Git /\ path = fst (split_codebase rest))).
Proof.
  rewrite (command_start_named E name rest Hname) in Hrun.
  rewrite (bind_eq _ _ _ _ _ _ (parse_options_ret _ _ _ _ Hopt)) in Hrun.
  destruct (existing_instance_goes_on E name (Opt.port o) w Hprov) as (l0 & Hex).
  rewrite (bind_eq _ _ _ _ _ _ Hex) in Hrun. cbn [app] in Hrun.
  destruct (provision E name (get_vm_name name) (fst (split_codebase rest)) o w)
    as [[r w1] l1] eqn:Hp.
  cbn [result world log fst snd] in Hrun. inversion Hrun; subst.
  destruct (provision_saves _ _ _ _ _ _ _ _ _ Hp)
    as (cb & w0 & w2 & l2 & Hcl & _ & Hrec & Hrm).
  exists (cb_type cb), (source_path cb). split; [exact Hrec|].
  destruct (classify_codebase_inv _ _ _ _ _ _ Hcl)
    as [(Hc & Ht & Hpath)|[(Hd & Ht & Hpath)|(Hd & Hu & Ht & Hpath)]].
  - left. split; [exact Hc|]. split; [exact Ht|]. split; [exact Hpath|].
    apply in_or_app. right. exact (Hrm Ht).
  - right. left. auto.
  - right. right. auto.
Qed.

Lemma start_saves_record_witness :
  exists t path,
    lookup "x" (instances (world (command_start Scenario.env
                                    ["x"; "proj"; "--port"; "9100"] Scenario.fresh)))
    = Some (Some (record_of Scenario.env "x" t path
                    (Opt.mk "4G" "20G" "2" "9100" "22.04" "no" "" "")))
    /\ ((fst (split_codebase ["proj"; "--port"; "9100"]) = "" /\ t = Demo
         /\ path = mktemp Scenario.env
         /\ In (RmRf path)
              (log (command_start Scenario.env ["x"; "proj"; "--port"; "9100"]
                      Scenario.fresh)))
        \/ (t = Local
            /\ cd_pwd Scenario.env (fst (split_codebase ["proj"; "--port"; "9100"]))
               = Some path)
        \/ (t = Git /\ path = fst (split_codebase ["proj"; "--port"; "9100"]))).
Proof.
  assert (Hrun : command_start Scenario.env ["x"; "proj"; "--port"; "9100"]
                   Scenario.fresh
                 = (Ret 1,
                    world (command_start Scenario.env
                             ["x"; "proj"; "--port"; "9100"] Scenario.fresh),
                    log (command_start Scenario.env
                           ["x"; "proj"; "--port"; "9100"] Scenario.fresh)))
    by (vm_compute; reflexivity).
  exact (start_saves_record Scenario.env "x" ["proj"; "--port"; "9100"]
           Scenario.fresh _ 1 _ (Opt.mk "4G" "20G" "2" "9100" "22.04" "no" "" "")
           eq_refl (or_introl eq_refl) eq_refl Hrun).
Defined.

(** ** Dispatch *)

(** X9. Without the [multipass] command nothing runs: every invocation,
    [help] and an unknown word included, prints the installation hint on
    standard error and ends with status 1, the world untouched. *)
Theorem main_needs_multipass (E : Env) (args : list string) (w : World)
  (Hmp : have_multipass E = false) :
  main E args w
  = (Exit 1, w,
     [Stderr "ERROR: Multipass not installed. Run: brew install --cask multipass"]).
Proof.
  cbv [main check_multipass bind die emit exit]. rewrite Hmp. reflexivity.
Qed.

Lemma main_needs_multipass_witness :
  main (without_multipass Scenario.env) ["help"] Scenario.fresh
  = (Exit 1, Scenario.fresh,
     [Stderr "ERROR: Multipass not installed. Run: brew install --cask multipass"]).
Proof.
  exact (main_needs_multipass (without_multipass Scenario.env) ["help"]
           Scenario.fresh eq_refl).
Defined.

Lemma not_a_command (cmd : string) :
  existsb (String.eqb cmd) commands = false ->
  forall c, In c commands -> String.eqb cmd c = false.
Proof.
  intros H c Hc. destruct (String.eqb cmd c) eqn:Heq; [|reflexivity].
  apply String.eqb_eq in Heq. subst c.
  assert (Ht : existsb (String.eqb cmd) commands = true).
  { apply existsb_exists. exists cmd. split; [exact Hc|apply String.eqb_refl]. }
  congruence.
Qed.

(** X10. With the backend installed: no argument, an empty first argument,
    [help], [--help] and [-h] print the help text and return 0; a first
    argument that is none of the thirteen words ends the script with status 1
    and the message [Unknown command].  Neither changes the world. *)
Theorem main_help_or_unknown (E : Env) (rest : list string) (w : World)
  (Hmp : have_multipass E = true) :
  main E [] w = (Ret 0, w, [Stdout help_text])
  /\ main E ("" :: rest) w = (Ret 0, w, [Stdout help_text])
  /\ main E ("help" :: rest) w = (Ret 0, w, [Stdout help_text])
  /\ main E ("--help" :: rest) w = (Ret 0, w, [Stdout help_text])
  /\ main E ("-h" :: rest) w = (Ret 0, w, [Stdout help_text])
  /\ (forall cmd,
        Str.nonempty cmd = true ->
        existsb (String.eqb cmd) commands = false ->
        main E (cmd :: rest) w
        = (Exit 1, w,
           [Stderr ("ERROR: Unknown command: " ++ cmd ++ ". Run: " ++ script E
                    ++ " help")])).
Proof.
  assert (Hchk : check_multipass E w = (Ret tt, w, []))
    by (unfold check_multipass; rewrite Hmp; reflexivity).
  repeat (split; [unfold main; rewrite (bind_eq _ _ _ _ _ _ Hchk); reflexivity|]).
  intros cmd Hne Hunk. pose proof (not_a_command cmd Hunk) as Hc.
  unfold main. rewrite (bind_eq _ _ _ _ _ _ Hchk). rewrite Hne.
  repeat match goal with
         | |- context [String.eqb cmd ?c] =>
             rewrite (Hc c) by (cbv [commands In]; tauto)
         end.
  reflexivity.
Qed.

Lemma main_help_or_unknown_witness :
  main Scenario.env ["restart"; "a"] (Scenario.with_a Running)
  = (Exit 1, Scenario.with_a Running,
     [Stderr "ERROR: Unknown command: restart. Run: manage-opengrok-test.sh help"]).
Proof.
  destruct (main_help_or_unknown Scenario.env ["a"] (Scenario.with_a Running)
              eq_refl) as (_ & _ & _ & _ & _ & H).
  exact (H "restart" eq_refl eq_refl).
Defined.

(** ** Commands on a missing instance *)

(** X11. [stop], [destroy], [info], [open], [reindex], [shell] and [logs]
    refuse a name when the state directory has no directory of that name:
    the script prints [Instance '<name>' not found] on standard error and
    ends with status 1 before the backend is called, and the world is as it
    was.  For a plain name that is when the name has no record; a name such
    as [.] or one with a slash is a path, and it is the file system that
    says whether it is a directory.  Every command that takes a name ends
    with status 1 and its usage line when the name is missing or empty. *)
Theorem missing_instance_is_refused (E : Env) (cmd : string)
  (f : Env -> list string -> Sh nat) (name : string) (rest : list string)
  (w : World)
  (Hname : Str.nonempty name = true)
  (Hrec : record_dir E name w = false) :
  (In (cmd, f) needs_instance ->
   f E (name :: rest) w
   = (Exit 1, w,
      [Stderr ("ERROR: Instance '" ++ name ++ "' not found. Run: " ++ script E
               ++ " list")]))
  /\ (forall other,
        plain other = true ->
        record_dir E other w = has other (instances w))
  /\ (forall other,
        plain other = false ->
        has other (instances w) = false ->
        record_dir E other w = is_dir E (STATE_DIR E ++ "/" ++ other))
  /\ (In (cmd, f) takes_name ->
      f E [] w = f E ("" :: rest) w
      /\ exists tail,
           f E [] w
           = (Exit 1, w,
              [Stderr ("ERROR: Usage: " ++ script E ++ " " ++ cmd ++ " <name>"
                       ++ tail)])).
Proof.
  split.
  - intros Hin. cbv [needs_instance In] in Hin.
    repeat (destruct Hin as [Hin|Hin];
            [inversion Hin; subst;
             cbv [command_stop command_destroy command_info command_open
                  command_reindex command_shell command_logs
                  check_instance_exists bind get_world die emit exit];
             rewrite Hname; cbn [negb]; cbv beta iota; rewrite Hrec; reflexivity|]).
    destruct Hin.
  - split; [intros other; apply record_dir_plain|]. split.
    { intros other Hp Hh. unfold record_dir. rewrite Hp, Hh. reflexivity. }
    intros Hin. cbv [takes_name needs_instance In] in Hin.
    repeat (destruct Hin as [Hin|Hin];
            [injection Hin as Hc Hf; subst cmd f; split; [reflexivity|];
             first [ exists ""; reflexivity
                   | exists " [codebase] [options]"; reflexivity
                   | exists " [--follow]"; reflexivity ]|]).
    destruct Hin.
Qed.

Lemma missing_instance_is_refused_witness :
  command_reindex Scenario.env ["b"] (Scenario.with_a Running)
  = (Exit 1, Scenario.with_a Running,
     [Stderr "ERROR: Instance 'b' not found. Run: manage-opengrok-test.sh list"]).
Proof.
  destruct (missing_instance_is_refused Scenario.env "reindex" command_reindex
              "b" [] (Scenario.with_a Running) eq_refl eq_refl) as [H _].
  apply H. cbv [needs_instance In]. tauto.
Defined.

(** ** Commands that ask for the status first *)

(** [$(command_status "$name")] for a name whose directory exists: the
    word, and one or two queries of the backend. *)
Lemma capture_status (E : Env) (name : string) (w : World) :
  Str.nonempty name = true ->
  record_dir E name w = true ->
  capture (command_status E [name]) w
  = (Ret (status_word E w (get_vm_name name)), w,
     if observed_running E w (get_vm_name name)
     then [Multipass (MpInfo (get_vm_name name))]
     else [Multipass (MpInfo (get_vm_name name));
           Multipass (MpInfo (get_vm_name name))]).
Proof.
  intros Hname Hrec. unfold status_word, observed_running.
  cbv [capture command_status bind get_world info emit ret].
  rewrite Hname. cbn [negb]. cbv beta iota. rewrite Hrec. cbn [negb].
  rewrite info_grep_run.
  destruct (observed E Running w (get_vm_name name)); [reflexivity|].
  cbv beta iota. rewrite info_grep_run.
  destruct (observed E Stopped w (get_vm_name name)); reflexivity.
Qed.

Lemma check_instance_found (E : Env) (name : string) (w : World) :
  record_dir E name w = true ->
  check_instance_exists E name w = (Ret tt, w, []).
Proof.
  intros Hrec. cbv [check_instance_exists bind get_world ret]. rewrite Hrec.
  reflexivity.
Qed.

(** X12. [reindex <name>] for a name whose directory exists never changes
    the records.  It goes by what [status] prints: unless the machine is
    observed running (it exists and the word [Running] occurs in what the
    backend reports on it, be it as its state, in its name or elsewhere)
    the script ends with status 1 and the message [is not running], without
    running anything in the machine and with the world as it was.  When the
    machine is observed running the indexer is run in it once; the command
    returns 0 when the indexer succeeds, and the script ends with the
    indexer's status when it fails (and [Reindexing complete] is not
    printed). *)
Theorem reindex_needs_running (E : Env) (name : string) (rest : list string)
  (w : World)
  (Hname : Str.nonempty name = true)
  (Hrec : record_dir E name w = true) :
  instances (world (command_reindex E (name :: rest) w)) = instances w
  /\ observed_running E w (get_vm_name name)
     = match lookup (get_vm_name name) (vms w) with
       | Some m =>
           vm_state_eqb (state m) Running || stray E Running (get_vm_name name)
       | None => false
       end
  /\ (observed_running E w (get_vm_name name) = false ->
      result (command_reindex E (name :: rest) w) = Exit 1
      /\ world (command_reindex E (name :: rest) w) = w
      /\ existsb effectful (log (command_reindex E (name :: rest) w)) = false
      /\ In (Stderr ("ERROR: Instance '" ++ name ++ "' is not running"))
            (log (command_reindex E (name :: rest) w)))
  /\ (observed_running E w (get_vm_name name) = true ->
      filter effectful (log (command_reindex E (name :: rest) w))
      = [Multipass (MpExec (get_vm_name name) reindex_argv)]
      /\ vms (world (command_reindex E (name :: rest) w)) = vms w
      /\ (mp_exit E (vms w) (MpExec (get_vm_name name) reindex_argv) = 0 ->
          result (command_reindex E (name :: rest) w) = Ret 0
          /\ In (Stdout "Reindexing complete")
                (log (command_reindex E (name :: rest) w)))
      /\ (mp_exit E (vms w) (MpExec (get_vm_name name) reindex_argv) <> 0 ->
          result (command_reindex E (name :: rest) w)
          = Exit (mp_exit E (vms w) (MpExec (get_vm_name name) reindex_argv))
          /\ ~ In (Stdout "Reindexing complete")
                  (log (command_reindex E (name :: rest) w)))).
Proof.
  pose proof (check_instance_found E name w Hrec) as Hchk.
  pose proof (capture_status E name w Hname Hrec) as Hcap.
  pose proof (observed_spec E Running w (get_vm_name name)) as Hobs.
  fold (observed_running E w (get_vm_name name)) in Hobs.
  unfold command_reindex. cbn [tl]. rewrite Hname. cbn [negb].
  rewrite (bind_eq _ _ _ _ _ _ Hchk), (bind_eq _ _ _ _ _ _ Hcap).
  rewrite status_word_running.
  destruct (observed_running E w (get_vm_name name)) eqn:Hrun.
  - cbv [bind ret info emit errexit multipass exit].
    destruct (Nat.eqb (mp_exit E (vms w) (MpExec (get_vm_name name) reindex_argv)) 0)
      eqn:Hst; cbn [result world log fst snd app filter effectful existsb orb].
    + apply Nat.eqb_eq in Hst. rewrite Hst. cbn.
      split; [reflexivity|]. split; [exact Hobs|]. split; [discriminate|].
      intros _.
      split; [reflexivity|]. split; [reflexivity|]. split.
      * intros _. split; [reflexivity|]. auto.
      * intros H. congruence.
    + pose proof Hst as Hne. apply Nat.eqb_neq in Hne.
      destruct (mp_exit E (vms w) (MpExec (get_vm_name name) reindex_argv))
        as [|n] eqn:Hex; [congruence|]. cbn.
      split; [reflexivity|]. split; [exact Hobs|]. split; [discriminate|].
      intros _.
      split; [reflexivity|]. split; [reflexivity|]. split.
      * intros H. discriminate.
      * intros _. split; [reflexivity|].
        intros [H|[H|[H|[]]]]; discriminate.
  - cbv [bind ret info emit die exit].
    cbn [result world log fst snd app filter effectful existsb orb In].
    split; [reflexivity|]. split; [exact Hobs|]. split; [|discriminate].
    intros _.
    split; [reflexivity|]. split; [reflexivity|]. split; [reflexivity|]. auto.
Qed.

Lemma reindex_needs_running_witness :
  result (command_reindex Scenario.env ["a"] (Scenario.with_a Stopped)) = Exit 1
  /\ world (command_reindex Scenario.env ["a"] (Scenario.with_a Stopped))
     = Scenario.with_a Stopped.
Proof.
  destruct (reindex_needs_running Scenario.env "a" [] (Scenario.with_a Stopped)
              eq_refl eq_refl) as (_ & _ & H & _).
  destruct (H eq_refl) as (Hr & Hw & _). split; assumption.
Defined.

Lemma load_instance_state_run (name : string) (w : World) :
  load_instance_state name w
  = (Ret (saved_config w name), w,
     match saved_config w name with
     | Some _ => []
     | None => [Stderr ("ERROR: State file not found for '" ++ name ++ "'")]
     end).
Proof.
  cbv [load_instance_state saved_config bind get_world ret emit].
  destruct (lookup name (instances w)) as [[c|]|]; reflexivity.
Qed.

(** X13. [open <name>] for a name whose directory exists never changes the
    world.  Unless the machine is observed running the script ends with
    status 1 and the message [is not running], without opening anything.
    When it is observed running, the address is built from the machine's
    address and the port [jq] reads in the stored record (the stored port,
    when the document of the record is a safe one; nothing, when there is no
    record); it is handed to [open] when that command exists, else to
    [xdg-open] when that one exists, and only printed otherwise.  The
    command returns 0 when nothing is run or the program succeeds; when the
    program fails, the script ends with its status. *)
Theorem open_needs_running (E : Env) (name : string) (rest : list string)
  (w : World)
  (Hname : Str.nonempty name = true)
  (Hrec : record_dir E name w = true) :
  world (command_open E (name :: rest) w) = w
  /\ (observed_running E w (get_vm_name name) = false ->
      result (command_open E (name :: rest) w) = Exit 1
      /\ existsb effectful (log (command_open E (name :: rest) w)) = false
      /\ In (Stderr ("ERROR: Instance '" ++ name
                     ++ "' is not running. Start it with: " ++ script E
                     ++ " start " ++ name))
            (log (command_open E (name :: rest) w)))
  /\ (observed_running E w (get_vm_name name) = true ->
      filter effectful (log (command_open E (name :: rest) w))
      = match handed E with
        | Some program => [OpenUrl program (open_url E w name)]
        | None => []
        end
      /\ result (command_open E (name :: rest) w)
         = match handed E with
           | Some program =>
               if Nat.eqb (open_exit E program (open_url E w name)) 0 then Ret 0
               else Exit (open_exit E program (open_url E w name))
           | None => Ret 0
           end
      /\ (handed E = None ->
          In (Stdout ("Please open this URL manually: " ++ open_url E w name))
             (log (command_open E (name :: rest) w))))
  /\ (forall c,
        lookup name (instances w) = Some (Some c) ->
        open_url E w name
        = source_url (reported_ip w (get_vm_name name)) (read_port E c)
        /\ (json_safe c = true -> read_port E c = Config.port c))
  /\ (saved_config w name = None ->
      open_url E w name = source_url (reported_ip w (get_vm_name name)) "").
Proof.
  pose proof (check_instance_found E name w Hrec) as Hchk.
  pose proof (capture_status E name w Hname Hrec) as Hcap.
  pose proof (load_instance_state_run name w) as Hld.
  unfold command_open. rewrite Hname. cbn [negb].
  rewrite (bind_eq _ _ _ _ _ _ Hchk), (bind_eq _ _ _ _ _ _ Hld),
          (bind_eq _ _ _ _ _ _ Hcap).
  rewrite status_word_running.
  assert (Hrest :
    (forall c,
        lookup name (instances w) = Some (Some c) ->
        open_url E w name
        = source_url (reported_ip w (get_vm_name name)) (read_port E c)
        /\ (json_safe c = true -> read_port E c = Config.port c))
    /\ (saved_config w name = None ->
        open_url E w name = source_url (reported_ip w (get_vm_name name)) "")).
  { split.
    - intros c Hc. unfold open_url, saved_config, read_port. rewrite Hc.
      split; [reflexivity|]. apply jq_safe.
    - intros Hn. unfold open_url. rewrite Hn. reflexivity. }
  destruct (observed_running E w (get_vm_name name)) eqn:Hrun.
  - cbv [bind ret info emit get_vm_ip multipass_info opener errexit exit].
    fold (reported_ip w (get_vm_name name)). fold (open_url E w name).
    unfold handed.
    destruct (have_open E); [|destruct (have_xdg_open E)];
      try destruct (Nat.eqb (open_exit E _ (open_url E w name)) 0);
      cbn [result world log fst snd];
      (split; [reflexivity|]); (split; [discriminate|]);
      (split; [|exact Hrest]); intros _;
      rewrite ?filter_app; destruct (saved_config w name);
      cbn [app filter effectful];
      (split; [reflexivity|]); (split; [reflexivity|]);
      intros H; try discriminate; cbn [In app]; auto 10.
  - cbv [bind ret info emit die exit].
    cbn [result world log fst snd app].
    split; [reflexivity|]. split; [|split; [discriminate|exact Hrest]].
    intros _. split; [reflexivity|].
    destruct (saved_config w name);
      cbn [app existsb effectful orb In]; split; auto 10.
Qed.

Lemma open_needs_running_witness :
  filter effectful (log (command_open Scenario.env ["a"] (Scenario.with_a Running)))
  = [OpenUrl "xdg-open" "http://10.0.0.7:9000/source"].
Proof.
  destruct (open_needs_running Scenario.env "a" [] (Scenario.with_a Running)
              eq_refl eq_refl) as (_ & _ & H & _).
  destruct (H eq_refl) as (Hl & _). exact Hl.
Defined.

(** ** list and info *)

Lemma list_rows_run (E : Env) (w : World) (l : list (string * option config)) :
  result (list_rows E l w) = Ret tt
  /\ world (list_rows E l w) = w
  /\ stdout_of (log (list_rows E l w)) = map (row_of E w) (listed l)
  /\ existsb effectful (log (list_rows E l w)) = false.
Proof.
  induction l as [|[k [c|]] l IH]; cbn [list_rows listed map].
  - repeat split; reflexivity.
  - destruct (globbed k); [|exact IH].
    destruct IH as (Hr & Hw & Hout & Heff).
    fold (read_name E c) (read_port E c) (read_codebase E c).
    cbn [map]. unfold row_of, status_word, listed_ip, observed.
    destruct (list_rows E l w) as [[r1 w1] l1] eqn:Hrows.
    cbn [result world log fst snd] in Hr, Hw, Hout, Heff. subst r1 w1.
    destruct (lookup (get_vm_name (read_name E c)) (vms w)) as [m|] eqn:Hvm;
      [destruct (seen E Running (get_vm_name (read_name E c)) m) eqn:Hrun;
       [|destruct (seen E Stopped (get_vm_name (read_name E c)) m) eqn:Hstop]|];
      cbv [bind get_world info emit info_grep get_vm_ip multipass_info ret];
      repeat (progress (cbv beta iota; rewrite ?Hvm, ?Hrun, ?Hstop, ?Hrows));
      cbn [result world log fst snd app stdout_of existsb effectful orb];
      rewrite Hout, Heff; repeat split; reflexivity.
  - exact IH.
Qed.

Lemma listed_spec (l : list (string * option config)) (c : config) :
  In c (listed l) <-> exists dir, In (dir, Some c) l /\ globbed dir = true.
Proof.
  induction l as [|[k [c'|]] l IH]; cbn [listed In].
  - split; [tauto|]. intros (dir & [] & _).
  - destruct (globbed k) eqn:Hk; cbn [In]; rewrite IH; split.
    + intros [->|(dir & Hin & Hg)]; [exists k; auto|exists dir; auto].
    + intros (dir & [Heq|Hin] & Hg);
        [injection Heq as -> ->; auto|right; exists dir; auto].
    + intros (dir & Hin & Hg). exists dir; auto.
    + intros (dir & [Heq|Hin] & Hg);
        [injection Heq as -> ->; congruence|exists dir; auto].
  - rewrite IH. split.
    + intros (dir & Hin & Hg). exists dir; auto.
    + intros (dir & [Heq|Hin] & Hg); [discriminate|exists dir; auto].
Qed.

(** X14. [list] returns 0, changes nothing and only queries the backend.
    It prints the two header lines and then one row for every entry of the
    state directory that the glob [*/config.json] visits (a directory whose
    name does not begin with a dot and that has a [config.json]), in the
    order of the directory.  The row shows the name, port and codebase that
    [jq] reads in the record (the stored ones, when the document of the
    record is a safe one), the status word for the machine of the name read
    ([running] when the word [Running] occurs in what the backend reports
    on it, else [stopped] when [Stopped] occurs there, else [unknown]), and
    the machine's address when that word is [running], [N/A] otherwise.
    The arguments of [list] are ignored. *)
Theorem list_prints_the_records (E : Env) (args : list string) (w : World) :
  result (command_list E args w) = Ret 0
  /\ world (command_list E args w) = w
  /\ existsb effectful (log (command_list E args w)) = false
  /\ stdout_of (log (command_list E args w))
     = (list_row "NAME" "STATUS" "PORT" "IP" "CODEBASE"
        :: list_row "----" "------" "----" "--" "--------"
        :: map (row_of E w) (listed (instances w)))%list
  /\ command_list E args w = command_list E [] w
  /\ (forall c, In c (listed (instances w))
                <-> exists dir, In (dir, Some c) (instances w)
                                /\ globbed dir = true)
  /\ (forall c,
        row_of E w c
        = list_row (read_name E c)
                   (status_word E w (get_vm_name (read_name E c)))
                   (read_port E c)
                   (if observed_running E w (get_vm_name (read_name E c))
                    then reported_ip w (get_vm_name (read_name E c))
                    else "N/A")
                   (read_codebase E c))
  /\ (forall c, json_safe c = true ->
                read_name E c = Config.name c
                /\ read_port E c = Config.port c
                /\ read_codebase E c = Config.codebase_path c).
Proof.
  destruct (list_rows_run E w (instances w)) as (Hr & Hw & Hout & Heff).
  unfold command_list. cbv [bind info emit get_world ret].
  destruct (list_rows E (instances w) w) as [[r1 w1] l1].
  cbn [result world log fst snd] in Hr, Hw, Hout, Heff. subst r1 w1.
  cbn [result world log fst snd app stdout_of existsb effectful orb].
  rewrite app_nil_r, Hout, Heff.
  do 5 (split; [reflexivity|]).
  split; [intros c; apply listed_spec|]. split.
  - intros c. unfold row_of, listed_ip, observed_running, observed, reported_ip.
    destruct (lookup (get_vm_name (read_name E c)) (vms w)); reflexivity.
  - intros c Hc. unfold read_name, read_port, read_codebase.
    rewrite !jq_safe by exact Hc. repeat split; reflexivity.
Qed.

(** X15. [info <name>] of an instance whose record can be read returns 0,
    changes nothing and only queries the backend.  It prints nine lines; the
    status is the word [status] prints, the address is that of the machine
    (empty when there is none), and the port, codebase, resources and date
    are what [jq] reads in the stored record, not values of the machine;
    when the document of the record is a safe one they are the stored
    fields. *)
Theorem info_reports_the_record (E : Env) (name : string) (rest : list string)
  (w : World) (c : config)
  (Hname : Str.nonempty name = true)
  (Hc : lookup name (instances w) = Some (Some c)) :
  result (command_info E (name :: rest) w) = Ret 0
  /\ world (command_info E (name :: rest) w) = w
  /\ existsb effectful (log (command_info E (name :: rest) w)) = false
  /\ stdout_of (log (command_info E (name :: rest) w))
     = [ "Instance: " ++ name;
         "Status: " ++ String.concat Str.nl
                         (stdout_of (log (command_status E [name] w)));
         "VM Name: " ++ get_vm_name name;
         "URL: " ++ source_url (reported_ip w (get_vm_name name))
                               (jq E ".port" Config.port (Some c));
         "IP: " ++ reported_ip w (get_vm_name name);
         "Port: " ++ jq E ".port" Config.port (Some c);
         "Codebase: " ++ jq E ".codebase_path" Config.codebase_path (Some c);
         "Resources: " ++ jq E ".memory" Config.memory (Some c) ++ " RAM, "
                       ++ jq E ".cpus" Config.cpus (Some c) ++ " CPUs";
         "Created: " ++ jq E ".created" Config.created (Some c) ]
  /\ (json_safe c = true ->
      stdout_of (log (command_info E (name :: rest) w))
      = [ "Instance: " ++ name;
          "Status: " ++ status_word E w (get_vm_name name);
          "VM Name: " ++ get_vm_name name;
          "URL: " ++ source_url (reported_ip w (get_vm_name name)) (Config.port c);
          "IP: " ++ reported_ip w (get_vm_name name);
          "Port: " ++ Config.port c;
          "Codebase: " ++ Config.codebase_path c;
          "Resources: " ++ Config.memory c ++ " RAM, " ++ Config.cpus c ++ " CPUs";
          "Created: " ++ Config.created c ]).
Proof.
  assert (Hrec : record_dir E name w = true)
    by (apply record_dir_has; unfold has; rewrite Hc; reflexivity).
  pose proof (check_instance_found E name w Hrec) as Hchk.
  pose proof (capture_status E name w Hname Hrec) as Hcap.
  destruct (command_status_run E name w Hname Hrec) as (_ & _ & Hout & _).
  pose proof (load_instance_state_run name w) as Hld.
  unfold saved_config in Hld. rewrite Hc in Hld.
  rewrite Hout. cbn [String.concat].
  unfold command_info. rewrite Hname. cbn [negb].
  rewrite (bind_eq _ _ _ _ _ _ Hchk), (bind_eq _ _ _ _ _ _ Hld),
          (bind_eq _ _ _ _ _ _ Hcap).
  cbv [bind ret info emit get_vm_ip multipass_info].
  fold (reported_ip w (get_vm_name name)).
  destruct (observed_running E w (get_vm_name name));
    cbn [result world log fst snd app existsb effectful orb stdout_of];
    (do 4 (split; [reflexivity|])); intros Hs;
    rewrite !jq_safe by exact Hs; reflexivity.
Qed.

Lemma info_reports_the_record_witness :
  nth 3 (stdout_of (log (command_info Scenario.env ["a"] (Scenario.with_a Stopped))))
      "" = "URL: http://10.0.0.7:9000/source".
Proof.
  destruct (info_reports_the_record Scenario.env "a" [] (Scenario.with_a Stopped)
              _ eq_refl eq_refl) as (_ & _ & _ & H & _).
  rewrite H. reflexivity.
Defined.

(** ** Words that are not options *)

Lemma not_an_option (a : string) :
  existsb (String.eqb a) known_options = false ->
  forall c, In c known_options -> String.eqb a c = false.
Proof.
  intros H c Hc. destruct (String.eqb a c) eqn:Heq; [|reflexivity].
  apply String.eqb_eq in Heq. subst c.
  assert (Ht : existsb (String.eqb a) known_options = true).
  { apply existsb_exists. exists a. split; [exact Hc|apply String.eqb_refl]. }
  congruence.
Qed.

Lemma parse_options_unknown (a : string) (rest : list string) (o : Opt.t)
  (w : World) :
  existsb (String.eqb a) known_options = false ->
  parse_options (a :: rest) o w
  = (Exit 1, w, [Stderr ("ERROR: Unknown option: " ++ a)]).
Proof.
  intros Hunk. pose proof (not_an_option a Hunk) as Hc.
  destruct o. cbn [parse_options].
  repeat match goal with
         | |- context [String.eqb a ?c] =>
             rewrite (Hc c) by (cbv [known_options In]; tauto)
         end.
  reflexivity.
Qed.

(** X16. [start] takes at most one codebase: after the name and the
    optional codebase every word must be one of the eight options (or the
    value of one).  The first word that is not ends the script with status 1
    and [Unknown option: <word>] as its only output, before the backend is
    asked anything and with the world as it was.  A first word that starts
    with two dashes is never the codebase, so it must be an option too. *)
Theorem start_rejects_unknown_option (E : Env) (name a : string)
  (args l1 rest : list string) (o1 : Opt.t) (w : World)
  (Hname : Str.nonempty name = true)
  (Hargs : snd (split_codebase args) = (l1 ++ a :: rest)%list)
  (Hopt : result (parse_options l1 default_options w) = Ret o1)
  (Hunk : existsb (String.eqb a) known_options = false) :
  command_start E (name :: args) w
  = (Exit 1, w, [Stderr ("ERROR: Unknown option: " ++ a)])
  /\ (Str.first2 a = "--" ->
      command_start E (name :: a :: rest) w
      = (Exit 1, w, [Stderr ("ERROR: Unknown option: " ++ a)])).
Proof.
  split.
  - rewrite (command_start_named E name args Hname). rewrite Hargs.
    apply bind_exit.
    rewrite (parse_app_n (List.length l1) l1 (a :: rest) default_options
               o1 w (Nat.le_refl _) (parse_options_ret _ _ _ _ Hopt)).
    apply parse_options_unknown. exact Hunk.
  - intros Hd. rewrite (command_start_named E name (a :: rest) Hname).
    unfold split_codebase. rewrite Hd. cbn [String.eqb negb andb snd].
    rewrite Bool.andb_false_r. cbn [snd].
    apply bind_exit. apply parse_options_unknown. exact Hunk.
Qed.

Lemma start_rejects_unknown_option_witness :
  command_start Scenario.env ["x"; "proj"; "--port"; "9100"; "/src/proj"]
                Scenario.fresh
  = (Exit 1, Scenario.fresh, [Stderr "ERROR: Unknown option: /src/proj"]).
Proof.
  exact (proj1 (start_rejects_unknown_option Scenario.env "x" "/src/proj"
                  ["proj"; "--port"; "9100"; "/src/proj"] ["--port"; "9100"] []
                  (Opt.mk "4G" "20G" "2" "9100" "22.04" "no" "" "")
                  Scenario.fresh eq_refl eq_refl eq_refl eq_refl)).
Defined.

(** ** The dependency cache *)

Section Cache.
Context (E : Env) (d : cache).

Lemma cu_ret {A} (a : A) : cache_untouched d (ret a).
Proof. intros w Hd. split; [exact Hd|reflexivity]. Qed.

Lemma cu_exit {A} (c : nat) : cache_untouched d (@exit A c).
Proof. intros w Hd. split; [exact Hd|reflexivity]. Qed.

Lemma cu_get_world : cache_untouched d get_world.
Proof. intros w Hd. split; [exact Hd|reflexivity]. Qed.

Lemma cu_emit (e : event) : is_download e = false -> cache_untouched d (emit e).
Proof. intros He w Hd. split; [exact Hd|]. cbn. rewrite He. reflexivity. Qed.

Lemma cu_bind {A B} (m : Sh A) (k : A -> Sh B) :
  cache_untouched d m -> (forall a, cache_untouched d (k a)) ->
  cache_untouched d (bind m k).
Proof.
  intros Hm Hk w Hd. unfold bind. destruct (Hm w Hd) as [Hw Hl].
  destruct (m w) as [[[a|c] w1] l1]; cbn [world log fst snd] in *;
    [|split; assumption].
  destruct (Hk a w1 Hw) as [Hw2 Hl2]. destruct (k a w1) as [[r w2] l2].
  cbn [world log fst snd] in *. split; [exact Hw2|].
  rewrite existsb_app, Hl, Hl2. reflexivity.
Qed.

Lemma cu_bind_res {A B} (m : Sh A) (k : A -> Sh B) :
  cache_untouched d m ->
  (forall a w w1 l, m w = (Ret a, w1, l) -> cache_untouched d (k a)) ->
  cache_untouched d (bind m k).
Proof.
  intros Hm Hk w Hd. unfold bind. destruct (Hm w Hd) as [Hw Hl].
  destruct (m w) as [[[a|c] w1] l1] eqn:Hrun; cbn [world log fst snd] in *;
    [|split; assumption].
  destruct (Hk a w w1 l1 Hrun w1 Hw) as [Hw2 Hl2].
  destruct (k a w1) as [[r w2] l2].
  cbn [world log fst snd] in *. split; [exact Hw2|].
  rewrite existsb_app, Hl, Hl2. reflexivity.
Qed.

Lemma cu_die {A} (msg : string) : cache_untouched d (@die A msg).
Proof. intros w Hd. split; [exact Hd|reflexivity]. Qed.

Lemma cu_unbound {A} (param : string) : cache_untouched d (@unbound A param).
Proof. intros w Hd. split; [exact Hd|reflexivity]. Qed.

Lemma cu_multipass (c : mp_cmd) : cache_untouched d (multipass E c).
Proof.
  intros w Hd. unfold multipass. cbn [world log fst snd].
  split; [|reflexivity].
  destruct (Nat.eqb (mp_exit E (vms w) c) 0); exact Hd.
Qed.

Lemma cu_multipass_info (vm_name : string) :
  cache_untouched d (multipass_info vm_name).
Proof. intros w Hd. split; [exact Hd|reflexivity]. Qed.

Lemma cu_errexit (m : Sh nat) :
  cache_untouched d m -> cache_untouched d (errexit m).
Proof.
  intros Hm. unfold errexit. apply cu_bind; [exact Hm|].
  intros st. destruct (Nat.eqb st 0); [apply cu_ret|apply cu_exit].
Qed.

Lemma cu_capture {A} (m : Sh A) :
  cache_untouched d m -> cache_untouched d (capture m).
Proof.
  intros Hm w Hd. unfold capture. destruct (Hm w Hd) as [Hw Hl].
  destruct (m w) as [[r w1] l1]. cbn [world log fst snd] in *.
  split; [exact Hw|].
  destruct (existsb is_download (filter not_stdout l1)) eqn:Hf; [|reflexivity].
  apply existsb_exists in Hf. destruct Hf as (e & He & Hdl).
  apply filter_In in He. destruct He as [He _].
  assert (Ht : existsb is_download l1 = true)
    by (apply existsb_exists; exists e; auto).
  congruence.
Qed.

End Cache.

Create HintDb cu.

#[local] Hint Resolve cu_ret cu_exit cu_get_world cu_die cu_unbound cu_multipass
  cu_multipass_info : cu.

Ltac cu :=
  lazymatch goal with
  | |- cache_untouched _ (bind _ _) => apply cu_bind; [cu|intros; cu]
  | |- cache_untouched _ (errexit _) => apply cu_errexit; cu
  | |- cache_untouched _ (capture _) => apply cu_capture; cu
  | |- cache_untouched _ (emit _) => apply cu_emit; reflexivity
  | |- cache_untouched _ (info _) => apply cu_emit; reflexivity
  | |- cache_untouched _ (warn _) => apply cu_emit; reflexivity
  | |- cache_untouched _ (if ?b then _ else _) => destruct b; cu
  | |- cache_untouched _ (match ?x with _ => _ end) => destruct x; cu
  | |- _ => auto with cu
  end.

Section CacheOfStart.
Context (E : Env) (d : cache).

Lemma cu_parse_options (args : list string) (o : Opt.t) :
  cache_untouched d (parse_options args o).
Proof.
  intros w Hd.
  destruct (parse_options_pure _ args o w (le_n _)) as [(o' & Ho)|(msg & Ho)];
    rewrite Ho; split; solve [exact Hd|reflexivity].
Qed.

Lemma cu_info_grep (vm_name : string) (s : vm_state) :
  cache_untouched d (info_grep E vm_name s).
Proof. unfold info_grep. cu. Qed.

Lemma cu_info_ok (vm_name : string) : cache_untouched d (info_ok vm_name).
Proof. unfold info_ok. cu. Qed.

Lemma cu_get_vm_ip (vm_name : string) : cache_untouched d (get_vm_ip vm_name).
Proof. unfold get_vm_ip. cu. Qed.

Lemma cu_port_scan (port name : string) l :
  cache_untouched d (port_scan E port name l).
Proof.
  induction l as [|[dir [c|]] l IH]; cbn [port_scan]; [cu| |exact IH].
  pose proof cu_info_grep. cu.
Qed.

Lemma cu_check_port_available (port name : string) :
  cache_untouched d (check_port_available E port name).
Proof. pose proof (cu_port_scan port name). unfold check_port_available. cu. Qed.

Lemma cu_create_demo_codebase : cache_untouched d (create_demo_codebase E).
Proof. unfold create_demo_codebase. cu. Qed.

Lemma cu_classify_codebase (codebase : string) :
  cache_untouched d (classify_codebase E codebase).
Proof. pose proof cu_create_demo_codebase. unfold classify_codebase. cu. Qed.

Lemma cu_transfer_deps (vm_name : string) files :
  cache_untouched d (transfer_deps E vm_name files).
Proof. induction files as [|[file regular] files IH]; cbn [transfer_deps]; cu. Qed.

Lemma cu_handle_codebase (vm_name : string) (cb : codebase_info)
  (git_depth git_branch : string) :
  cache_untouched d (handle_codebase E vm_name cb git_depth git_branch).
Proof. unfold handle_codebase. cu. Qed.

Lemma cu_save_instance_state (name : string) (t : codebase_type)
  (path port memory disk cpus ubuntu git_depth git_branch : string) :
  cache_untouched d (save_instance_state E name t path port memory disk cpus
                                         ubuntu git_depth git_branch).
Proof.
  intros w Hd. rewrite save_instance_state_run. split; [exact Hd|reflexivity].
Qed.

Lemma cu_existing_instance (name vm_name port : string) :
  cache_untouched d (existing_instance E name vm_name port).
Proof.
  pose proof cu_info_grep. pose proof cu_info_ok. pose proof cu_get_vm_ip.
  unfold existing_instance. cu.
Qed.

Lemma cu_wait_loop (url : string) (left : nat) :
  forall attempt, cache_untouched d (wait_loop E url left attempt).
Proof.
  induction left as [|left IH]; intros attempt; cbn [wait_loop]; [cu|].
  pose proof (IH (S attempt)). cu.
Qed.

Lemma cu_finish_start (name vm_name port : string) (cb : codebase_info) :
  cache_untouched d (finish_start E name vm_name port cb).
Proof.
  pose proof cu_wait_loop. pose proof cu_get_vm_ip.
  unfold finish_start, wait_for_opengrok. cu.
Qed.

(** With a complete cache and no request for a fresh download the cache is
    only announced. *)
Lemma cu_ensure_cache :
  cache_dir d = true -> manifest d = true ->
  cache_untouched d (ensure_cache E "no").
Proof.
  intros Hdir Hman w Hd.
  cbv [ensure_cache bind emit get_world info]. rewrite Hd, Hdir, Hman.
  split; [exact Hd|reflexivity].
Qed.

Lemma cu_provision (name vm_name codebase : string) (o : Opt.t) :
  cache_dir d = true -> manifest d = true -> Opt.no_cache o = "no" ->
  cache_untouched d (provision E name vm_name codebase o).
Proof.
  intros Hdir Hman Hnc.
  pose proof cu_check_port_available. pose proof cu_classify_codebase.
  pose proof (cu_ensure_cache Hdir Hman). pose proof cu_transfer_deps.
  pose proof cu_handle_codebase. pose proof cu_save_instance_state.
  pose proof cu_finish_start.
  unfold provision. destruct o. cbn [Opt.no_cache] in Hnc. subst no_cache. cu.
Qed.

End CacheOfStart.

(** Only [--no-cache] sets [no_cache]. *)
Lemma parse_options_no_cache (n : nat) :
  forall (args : list string) (o o' : Opt.t) (w : World),
    List.length args <= n ->
    existsb (String.eqb "--no-cache") args = false ->
    parse_options args o w = (Ret o', w, []) ->
    Opt.no_cache o' = Opt.no_cache o.
Proof.
  induction n as [|n IH]; intros args o o' w Hlen Hno Hp.
  - destruct args; [|cbn in Hlen; lia]. cbn in Hp. inversion Hp. reflexivity.
  - destruct args as [|a rest]; [cbn in Hp; inversion Hp; reflexivity|].
    cbn in Hlen. cbn [existsb] in Hno. apply Bool.orb_false_elim in Hno.
    destruct Hno as [Ha Hrest]. rewrite String.eqb_sym in Ha.
    cbn [parse_options] in Hp. destruct o. rewrite Ha in Hp.
    repeat match type of Hp with
    | context [if String.eqb a ?b then _ else _] => destruct (String.eqb a b)
    end;
    try (destruct rest as [|v rest'];
         [discriminate Hp
         |cbn [existsb] in Hrest; apply Bool.orb_false_elim in Hrest;
          rewrite (IH rest' _ o' w ltac:(cbn in Hlen; lia) (proj2 Hrest) Hp);
          reflexivity]).
    discriminate Hp.
Qed.

Lemma split_codebase_no_cache (args : list string) :
  existsb (String.eqb "--no-cache") args = false ->
  existsb (String.eqb "--no-cache") (snd (split_codebase args)) = false.
Proof.
  intros H. unfold split_codebase.
  destruct (Str.nonempty _ && negb _); cbn [snd]; [|exact H].
  destruct args as [|a rest]; [reflexivity|].
  cbn [existsb tl] in *. apply Bool.orb_false_elim in H. tauto.
Qed.

(** X17. With a complete dependency cache (the directory and its manifest
    exist) and no [--no-cache] among the arguments, [start] never runs the
    downloader and leaves the cache as it is, whichever way it ends. *)
Theorem start_uses_complete_cache (E : Env) (args : list string) (w : World)
  (Hdir : cache_dir (deps w) = true)
  (Hman : manifest (deps w) = true)
  (Hno : existsb (String.eqb "--no-cache") args = false) :
  deps (world (command_start E args w)) = deps w
  /\ existsb is_download (log (command_start E args w)) = false.
Proof.
  assert (Hcu : cache_untouched (deps w) (command_start E args));
    [|exact (Hcu w eq_refl)].
  unfold command_start.
  destruct (negb (Str.nonempty match args with a :: _ => a | [] => "" end));
    [cu|].
  assert (Hno' : existsb (String.eqb "--no-cache") (snd (split_codebase (tl args)))
                 = false).
  { apply split_codebase_no_cache. destruct args as [|a rest]; [reflexivity|].
    cbn [existsb tl] in *. apply Bool.orb_false_elim in Hno. tauto. }
  destruct (split_codebase (tl args)) as [codebase args']. cbn [snd] in Hno'.
  apply cu_bind_res; [apply cu_parse_options|].
  intros o w0 w1 l Ho.
  assert (Hr : result (parse_options args' default_options w0) = Ret o)
    by (rewrite Ho; reflexivity).
  pose proof (parse_options_no_cache _ args' default_options o w0 (le_n _) Hno'
                (parse_options_ret _ _ _ _ Hr)) as Hnc.
  cbn [Opt.no_cache default_options] in Hnc.
  pose proof (cu_existing_instance E (deps w)).
  pose proof (fun name vm_name =>
                cu_provision E (deps w) name vm_name codebase o Hdir Hman Hnc).
  cu.
Qed.

Lemma start_uses_complete_cache_witness :
  existsb is_download
    (log (command_start Scenario.env ["x"; "proj"; "--port"; "9100"]
            (Scenario.with_a Running))) = false.
Proof.
  exact (proj2 (start_uses_complete_cache Scenario.env
                  ["x"; "proj"; "--port"; "9100"] (Scenario.with_a Running)
                  eq_refl eq_refl eq_refl)).
Defined.

(** X18. When [start] provisions and runs to its end although the cache had
    to be filled (because [--no-cache] was given, or the cache directory or
    its manifest was missing), then the downloader was run on the cache
    directory, it returned 0, and the cache at the end is the one the
    downloader left: nothing after it touches the cache.  So a failing
    download never lets [start] return. *)
Theorem start_fills_the_cache (E : Env) (name : string) (rest : list string)
  (w w' : World) (st : nat) (l : list event) (o : Opt.t)
  (Hname : Str.nonempty name = true)
  (Hprov : record_dir E name w = false
           \/ lookup (get_vm_name name) (vms w) = None)
  (Hopt : result (parse_options (snd (split_codebase rest)) default_options w)
          = Ret o)
  (Hneed : Opt.no_cache o = "yes" \/ cache_dir (deps w) = false
           \/ manifest (deps w) = false)
  (Hrun : command_start E (name :: rest) w = (Ret st, w', l)) :
  In (Download (CACHE_DIR E)) l
  /\ fst (download E (cache_made (deps w))) = 0
  /\ deps w' = snd (download E (cache_made (deps w))).
Proof.
  rewrite (command_start_named E name rest Hname) in Hrun.
  rewrite (bind_eq _ _ _ _ _ _ (parse_options_ret _ _ _ _ Hopt)) in Hrun.
  destruct (existing_instance_goes_on E name (Opt.port o) w Hprov) as (l0 & Hex).
  rewrite (bind_eq _ _ _ _ _ _ Hex) in Hrun. cbn [app] in Hrun.
  destruct (provision E name (get_vm_name name) (fst (split_codebase rest)) o w)
    as [[r w1] l1] eqn:Hp.
  cbn [result world log fst snd] in Hrun. inversion Hrun; subst. clear Hrun.
  unfold provision in Hp. destruct o. cbn [Opt.no_cache] in Hneed.
  bind_inv Hp.
  match goal with
  | Hm : check_port_available _ ?p ?n w = (_, ?wa, _) |- _ =>
      destruct (cu_check_port_available E (deps w) p n w eq_refl) as [Hd1 _];
      rewrite Hm in Hd1; cbn [world fst snd] in Hd1; clear Hm
  end.
  bind_inv Hp.
  match goal with
  | Hm : classify_codebase E ?c ?wa = (_, ?wb, _) |- _ =>
      destruct (cu_classify_codebase E (deps wa) c wa eq_refl) as [Hd2 _];
      rewrite Hm in Hd2; cbn [world fst snd] in Hd2; clear Hm
  end.
  bind_inv Hp.
  match type of Hp with
  | ?m ?wc = _ =>
      assert (Hk : cache_untouched (deps wc) m);
      [pose proof (cu_transfer_deps E (deps wc));
       pose proof (cu_handle_codebase E (deps wc));
       pose proof (cu_save_instance_state E (deps wc));
       pose proof (cu_finish_start E (deps wc)); cu
      |destruct (Hk wc eq_refl) as [Hd3 _]; rewrite Hp in Hd3;
       cbn [world fst snd] in Hd3; clear Hk]
  end.
  match goal with
  | Hm : ensure_cache E _ ?wb = _ |- _ =>
      cbv [ensure_cache bind emit get_world info put_world errexit ret exit] in Hm;
      assert (Hc : String.eqb no_cache "yes" || negb (cache_dir (deps wb))
                   || negb (manifest (deps wb)) = true)
        by (rewrite Hd2, Hd1;
            destruct Hneed as [->|[->| ->]]; cbn;
            rewrite ?Bool.orb_true_r; reflexivity);
      rewrite Hc in Hm; cbv beta iota in Hm;
      unfold cache_made; rewrite <- Hd1, <- Hd2;
      destruct (download E _) as [dst c'] eqn:Hdl; cbn [fst snd] in Hm |- *;
      destruct (Nat.eqb dst 0) eqn:Hst; inversion Hm; subst; clear Hm
  end.
  apply Nat.eqb_eq in Hst. cbn [deps set_deps] in Hd3.
  split; [|split; [exact Hst|exact Hd3]].
  rewrite !in_app_iff. cbn [In]. auto 10.
Qed.

Lemma start_fills_the_cache_witness :
  In (Download (CACHE_DIR Scenario.env))
     (log (command_start Scenario.env ["x"; "proj"] Scenario.fresh))
  /\ deps (world (command_start Scenario.env ["x"; "proj"] Scenario.fresh))
     = Scenario.cache_full.
Proof.
  assert (Hrun : command_start Scenario.env ["x"; "proj"] Scenario.fresh
                 = (Ret 1,
                    world (command_start Scenario.env ["x"; "proj"] Scenario.fresh),
                    log (command_start Scenario.env ["x"; "proj"] Scenario.fresh)))
    by (vm_compute; reflexivity).
  destruct (start_fills_the_cache Scenario.env "x" ["proj"] Scenario.fresh _ 1 _
              default_options eq_refl (or_introl eq_refl) eq_refl
              (or_intror (or_introl eq_refl)) Hrun) as (Hin & _ & Hd).
  split; [exact Hin|exact Hd].
Defined.

(** ** Arguments that are not read *)

(** X19. [stop], [destroy], [status], [info], [open], [reindex] and [shell]
    read their first argument only: whatever follows the name is ignored
    without a message.  [logs] reads one more word, and only to see whether
    it is [--follow] or [-f], which mean the same; any other word is ignored
    as well.  (Only [start] rejects words it does not know.) *)
Theorem extra_arguments_are_ignored (E : Env) (name a : string)
  (rest : list string) (w : World) :
  (forall cmd f, In (cmd, f) name_only -> f E (name :: rest) w = f E [name] w)
  /\ command_logs E (name :: a :: rest) w = command_logs E [name; a] w
  /\ (is_follow a = false ->
      command_logs E (name :: a :: rest) w = command_logs E [name] w)
  /\ (is_follow a = true ->
      command_logs E (name :: a :: rest) w = command_logs E [name; "-f"] w).
Proof.
  split; [|split; [reflexivity|split]].
  - intros cmd f Hin. cbv [name_only In] in Hin.
    repeat (destruct Hin as [Hin|Hin];
            [injection Hin as Hc Hf; subst cmd f; reflexivity|]).
    destruct Hin.
  - unfold is_follow, command_logs. cbn [tl]. intros Hf. rewrite Hf. reflexivity.
  - unfold is_follow, command_logs. cbn [tl]. intros Hf. rewrite Hf. reflexivity.
Qed.

(** ** The transfer of the cache *)

Lemma set_vms_same (w : World) : set_vms w (vms w) = w.
Proof. destruct w. reflexivity. Qed.

Lemma transfer_deps_stops (E : Env) (vm_name : string) (w : World)
  (f : string) (rest : list string) (c : nat) :
  mp_exit E (vms w) (dep_transfer vm_name f) = c -> c <> 0 ->
  forall (files : list (string * bool)) (done : list string),
    regular_files files = (done ++ f :: rest)%list ->
    (forall g, In g done -> mp_exit E (vms w) (dep_transfer vm_name g) = 0) ->
    transfer_deps E vm_name files w
    = (Exit c, w,
       (map (fun g => Multipass (dep_transfer vm_name g)) done
        ++ [Multipass (dep_transfer vm_name f)])%list).
Proof.
  intros Hc Hne. unfold regular_files, dep_transfer in *.
  induction files as [|[file regular] files IH]; intros done Hsplit Hdone.
  - destruct done; discriminate.
  - cbn [transfer_deps filter snd map fst] in Hsplit |- *.
    destruct regular; cbn [map fst] in Hsplit.
    + destruct done as [|g done]; cbn [app map] in Hsplit |- *;
        injection Hsplit as Hfile Hrest; subst file.
      * cbv [bind errexit multipass ret exit]. rewrite Hc.
        apply Nat.eqb_neq in Hne. rewrite Hne. reflexivity.
      * cbv [bind errexit multipass ret exit].
        rewrite (Hdone g) by (left; reflexivity). cbn [Nat.eqb mp_effect].
        rewrite set_vms_same.
        rewrite (IH done Hrest) by (intros g' Hg'; apply Hdone; right; exact Hg').
        reflexivity.
    + cbv [bind ret]. rewrite (IH done Hsplit Hdone). reflexivity.
Qed.

(** X20. The loop that copies the cache into the machine transfers the
    regular files of the cache directory, each once and in the order of the
    directory listing, and skips every other entry.  When every transfer
    succeeds it goes through the whole list and changes nothing on the host;
    the first transfer that fails ends the script with the status of that
    transfer, after the transfers before it and before any after it. *)
Theorem transfer_deps_regular_files (E : Env) (vm_name : string)
  (files : list (string * bool)) (w : World) :
  ((forall f v, In f (regular_files files) ->
                mp_exit E v (dep_transfer vm_name f) = 0) ->
   transfer_deps E vm_name files w
   = (Ret tt, w,
      map (fun f => Multipass (dep_transfer vm_name f)) (regular_files files)))
  /\ (forall c w' l,
        transfer_deps E vm_name files w = (Exit c, w', l) ->
        c <> 0
        /\ exists done f,
             In f (regular_files files)
             /\ mp_exit E (vms w) (dep_transfer vm_name f) = c
             /\ l = (map (fun f => Multipass (dep_transfer vm_name f)) done
                     ++ [Multipass (dep_transfer vm_name f)])%list)
  /\ (forall done f rest c,
        regular_files files = (done ++ f :: rest)%list ->
        (forall g, In g done ->
                   mp_exit E (vms w) (dep_transfer vm_name g) = 0) ->
        mp_exit E (vms w) (dep_transfer vm_name f) = c -> c <> 0 ->
        transfer_deps E vm_name files w
        = (Exit c, w,
           (map (fun g => Multipass (dep_transfer vm_name g)) done
            ++ [Multipass (dep_transfer vm_name f)])%list)).
Proof.
  split; [|split];
    [| |intros done f rest c Hsplit Hdone Hc Hne;
        exact (transfer_deps_stops E vm_name w f rest c Hc Hne files done
                 Hsplit Hdone)];
    unfold regular_files, dep_transfer.
  - induction files as [|[file regular] files IH]; intros Hok; [reflexivity|].
    cbn [transfer_deps filter snd map fst]. destruct regular; cbn [map fst].
    + cbv [bind errexit multipass ret].
      rewrite (Hok file (vms w)) by (left; reflexivity). cbn [Nat.eqb mp_effect].
      rewrite set_vms_same, IH by (intros f v Hf; apply Hok; right; exact Hf).
      reflexivity.
    + cbv [bind ret]. rewrite IH by exact Hok. reflexivity.
  - induction files as [|[file regular] files IH]; intros c w' l Hrun;
      [discriminate|].
    cbn [transfer_deps filter snd map fst] in Hrun |- *.
    destruct regular; cbn [map fst].
    + cbv [bind errexit multipass ret exit] in Hrun.
      destruct (Nat.eqb (mp_exit E (vms w)
                           (MpTransfer file vm_name "/tmp/opengrok-deps/")) 0)
        eqn:Hst; cbn [mp_effect] in Hrun.
      * rewrite set_vms_same in Hrun.
        destruct (transfer_deps E vm_name files w) as [[[u|c1] w1] l1] eqn:Hrec;
          [discriminate|]. injection Hrun as <- <- <-.
        destruct (IH c1 w1 l1 eq_refl) as (Hc & done & f & Hin & Hex & Hl).
        split; [exact Hc|].
        exists (file :: done), f. split; [right; exact Hin|].
        split; [exact Hex|]. rewrite Hl. reflexivity.
      * injection Hrun as <- <- <-. apply Nat.eqb_neq in Hst.
        split; [exact Hst|]. exists [], file.
        split; [left; reflexivity|]. split; reflexivity.
    + cbv [bind ret] in Hrun.
      destruct (transfer_deps E vm_name files w) as [[[u|c1] w1] l1] eqn:Hrec;
        [discriminate|]. injection Hrun as <- <- <-.
      exact (IH c1 w1 l1 eq_refl).
Qed.
